(** * gtfs_stats: daily trip and route statistics, scheduling and retrieval

    A shallow embedding of [gtfs_utils/gtfs_stats.py] and the properties
    its specification states about it.  Python exceptions are results,
    dictionaries are finite maps, pandas frames are ordered named columns,
    and the file system, the bucket and the clock are explicit state. *)

From Stdlib Require Import ZArith QArith List String Lia Permutation Sorted.
From stdpp Require Import gmap strings list sorting.

Local Open Scope string_scope.
Local Open Scope list_scope.
Local Open Scope Z_scope.

(** ** Python results *)

(** The exception classes the module raises or catches. *)
Inductive exn_class :=
  | KeyError | TypeError | IndexError | ValueError
  | BadZipFile | ClientError | FileNotFoundError | KeyboardInterrupt.

Record exn := Exn { exn_cls : exn_class; exn_arg : string }.

#[global] Instance exn_class_eq_dec : EqDecision exn_class.
Proof. solve_decision. Defined.
#[global] Instance exn_eq_dec : EqDecision exn.
Proof. solve_decision. Defined.

Inductive result (A : Type) :=
  | Ok (a : A)
  | Raise (e : exn).
Arguments Ok {A} a.
Arguments Raise {A} e.

(** Sequencing: an exception of the first step ends the computation. *)
Definition rbind {A B} (r : result A) (k : A -> result B) : result B :=
  match r with
  | Ok a => k a
  | Raise e => Raise e
  end.

Notation "'let!' x := r 'in' k" := (rbind r (fun x => k))
  (at level 10, x name, k at level 200).

(** [isinstance(problem, Exception)]: every class but the
    [BaseException]-only ones. *)
Definition is_Exception (e : exn) : bool :=
  match exn_cls e with
  | KeyboardInterrupt => false
  | _ => true
  end.

(** Values passed as positional and keyword arguments. *)
Inductive pyval :=
  | PyCallable (name : string)
  | PyStr (s : string)
  | PyNone.

(** ** Retry executor: [retry] *)

Module Retry.

(** What a call of [report] is given. *)
Inductive report_args :=
| Failed (problem : exn) (delay : N)
    (* report("retryable failed:", problem, "-- delaying for %ds" % delay) *)
| FailedDefinitely (problems : list exn).
    (* report("retryable failed definitely:", problems) *)

(** The observable actions of [wrapped], in program order. *)
Inductive event :=
| Invoke                                   (* a call of func *)
| Report (callee : string) (a : report_args)
| Sleep (delay : N).                       (* time.sleep(delay) *)

(** The default of [delays]. *)
Definition default_delays : list N := [0; 1; 5; 30; 180; 600; 3600]%N.

Section Wrapper.
Context {S Args A : Type}.
Variable delays : list N.
Variable exception : exn -> bool.
Variable func : Args -> gmap string pyval -> S -> S * result A.

(** Calling [report(...)]: a callable is called, anything else is a
    [TypeError] raised inside the handler. *)
Definition call_report (report : pyval) (a : report_args)
  : list event * result unit :=
  match report with
  | PyCallable name => ([Report name a], Ok tt)
  | _ => ([], Raise (Exn TypeError "object is not callable"))
  end.

(** [itertools.chain(delays, [None])]. *)
Definition chain_delays : list (option N) := (Some <$> delays) ++ [None].

(** The [for delay in ...] loop; [problems] is the list built by
    [problems.append].  Falling off the end of the loop returns
    [None]. *)
Fixpoint loop (report : pyval) (args : Args) (kwargs : gmap string pyval)
    (ds : list (option N)) (problems : list exn) (s : S)
  : S * list event * result (option A) :=
  match ds with
  | [] => (s, [], Ok None)
  | delay :: ds' =>
      match func args kwargs s with
      | (s1, Ok a) => (s1, [Invoke], Ok (Some a))
      | (s1, Raise problem) =>
          if exception problem then
            let problems1 := problems ++ [problem] in
            match delay with
            | None =>
                match call_report report (FailedDefinitely problems1) with
                | (tr, Ok _) => (s1, Invoke :: tr, Raise problem)
                | (tr, Raise e) => (s1, Invoke :: tr, Raise e)
                end
            | Some d =>
                match call_report report (Failed problem d) with
                | (tr, Ok _) =>
                    let '(s2, tr2, r) :=
                      loop report args kwargs ds' problems1 s1 in
                    (s2, Invoke :: tr ++ Sleep d :: tr2, r)
                | (tr, Raise e) => (s1, Invoke :: tr, Raise e)
                end
            end
          else (s1, [Invoke], Raise problem)
      end
  end.

(** [wrapped]: the function the decorator returns. *)
Definition wrapped (args : Args) (kwargs : gmap string pyval) (s : S)
  : S * list event * result (option A) :=
  match kwargs !! "report" with
  | None => (s, [], Raise (Exn KeyError "report"))
  | Some report => loop report args kwargs chain_delays [] s
  end.

(** [fail_run args kwargs s es s']: starting in [s], the operation
    fails [length es] times in a row, with the retryable exceptions
    [es] in that order, and leaves the state [s']. *)
Inductive fail_run (args : Args) (kwargs : gmap string pyval)
  : S -> list exn -> S -> Prop :=
  | fail_run_nil s : fail_run args kwargs s [] s
  | fail_run_cons s s1 e es s2 :
      func args kwargs s = (s1, Raise e) ->
      exception e = true ->
      fail_run args kwargs s1 es s2 ->
      fail_run args kwargs s (e :: es) s2.

(** The actions of the retried attempts: each failure is reported
    with its delay, then the caller sleeps for that delay. *)
Fixpoint retried (callee : string) (es : list exn) (ds : list N)
  : list event :=
  match es, ds with
  | e :: es', d :: ds' =>
      Invoke :: Report callee (Failed e d) :: Sleep d
        :: retried callee es' ds'
  | _, _ => []
  end.

End Wrapper.

End Retry.

(** ** Dates and file names *)

(** A calendar date is its day number (days since 1970-01-01); the date
    strings [YYYY-mm-dd] the program passes around are represented by
    the date they denote ([parse_date] and [strftime] convert). *)
Definition date := Z.

(** The day number of a civil date of the proleptic Gregorian
    calendar. *)
Definition ymd (y m d : Z) : date :=
  let y' := if m <=? 2 then y - 1 else y in
  let era := y' / 400 in
  let yoe := y' - era * 400 in
  let doy := (153 * (if m >? 2 then m - 3 else m + 9) + 2) / 5 + d - 1 in
  let doe := yoe * 365 + yoe / 4 - yoe / 100 + doy in
  era * 146097 + doe - 719468.

(** A key of the bucket or a file of the local folder.  [Zip d] is the
    name [strftime(d) + '.zip']; [NaT_zip] is ['NaT.zip'], the name
    built from the text pandas prints for a missing timestamp. *)
Inductive fname :=
| Zip (d : date)
| NaT_zip.

#[global] Instance fname_eq_dec : EqDecision fname.
Proof. solve_decision. Defined.
#[global] Instance fname_countable : Countable fname.
Proof.
  apply (inj_countable' (fun f => match f with Zip d => Some d | NaT_zip => None end)
                        (fun o => match o with Some d => Zip d | None => NaT_zip end)).
  by intros [].
Defined.

(** The kind of an output file, [{date}_{kind}.pkl.gz]. *)
Inductive output_kind := trip_stats | route_stats.

#[global] Instance output_kind_eq_dec : EqDecision output_kind.
Proof. solve_decision. Defined.
#[global] Instance output_kind_countable : Countable output_kind.
Proof.
  apply (inj_countable' (fun k => match k with trip_stats => true | route_stats => false end)
                        (fun b : bool => if b then trip_stats else route_stats)).
  by intros [].
Defined.

(** ** Forward fill of a series *)

(** [fillna(method='ffill', limit=limit)]: a missing value takes the
    last valid value before it, for at most [limit] missing values in a
    row; [n] counts the missing values since [last]. *)
Fixpoint ffill_from {I V} (limit : option nat) (last : option V) (n : nat)
    (s : list (I * option V)) : list (I * option V) :=
  match s with
  | [] => []
  | (i, Some v) :: s' => (i, Some v) :: ffill_from limit (Some v) 0 s'
  | (i, None) :: s' =>
      (i, if match limit with Some k => (n <? k)%nat | None => true end
          then last else None)
        :: ffill_from limit last (Datatypes.S n) s'
  end.

Definition fillna_ffill {I V} (limit : option nat) (s : list (I * option V))
  : list (I * option V) :=
  ffill_from limit None 0%nat s.

(** ** Incremental scheduler *)

Module Scheduler.

(** A pandas Series of timestamps over a date index: label and value,
    [None] for [NaT]. *)
Definition series := list (date * option date).

(** [pd.DatetimeIndex(start=a, end=b, freq='D')]: both ends included. *)
Definition date_range (a b : date) : list date :=
  (fun i : nat => a + Z.of_nat i) <$> seq 0 (Z.to_nat (b - a + 1)).

(** [min()] and [max()] of a list of dates. *)
Definition dates_min (l : list date) : option date :=
  match l with
  | [] => None
  | d :: l' => Some (foldl Z.min d l')
  end.
Definition dates_max (l : list date) : option date :=
  match l with
  | [] => None
  | d :: l' => Some (foldl Z.max d l')
  end.

(** [s[label] = v] for one label of the index. *)
Definition set_label (s : series) (label : date) (v : option date) : series :=
  (fun p : date * option date =>
     if decide (p.1 = label) then (p.1, v) else p) <$> s.

(** [s[labels] = labels]: every label must be in the index. *)
Definition set_labels (s : series) (labels : list date) : result series :=
  if forallb (fun l => bool_decide (l ∈ s.*1)) labels
  then Ok (foldl (fun s l => set_label s l (Some l)) s labels)
  else Raise (Exn ValueError "not contained in the index").

(** [ffill[k].append(d)] on a [defaultdict(list)]. *)
Definition dict_append (k : fname) (d : date) (m : gmap fname (list date))
  : gmap fname (list date) :=
  <[k := default [] (m !! k) ++ [d]]> m.

(** [file_date + '.zip'] for a value of the filled series. *)
Definition file_of (v : option date) : fname :=
  match v with
  | Some d => Zip d
  | None => NaT_zip
  end.

(** [get_forward_fill_dict(valid_files, future_days)]; [valid_files]
    are given by their dates. *)
Definition get_forward_fill_dict (valid_files : list date) (future_days : Z)
  : result (gmap fname (list date)) :=
  let existing_dates := valid_files in
  match dates_min existing_dates, dates_max existing_dates with
  | Some lo, Some hi =>
      let expected_dates := date_range lo (hi + future_days) in
      let date_df : series := (fun d => (d, None)) <$> expected_dates in
      let! date_df := set_labels date_df existing_dates in
      let date_df := fillna_ffill (Some 59%nat) date_df in
      Ok (foldl (fun ffill p => dict_append (file_of p.2) p.1 ffill) ∅ date_df)
  | _, _ => Raise (Exn ValueError "NaT")
  end.

(** [get_dates_without_output(valid_files, existing_output_files)]. *)
Definition get_dates_without_output (valid_files : list date)
    (existing_output_files : list (date * output_kind)) : list date :=
  filter (fun file =>
            file ∉ (fst <$> filter (fun g => g.2 = route_stats)
                                   existing_output_files))
         valid_files.

(** [get_valid_file_dates_dict], without its log lines. *)
Definition get_valid_file_dates_dict (bucket_valid_files : list date)
    (existing_output_files : list (date * output_kind))
    (forward_fill : bool) (future_days : Z)
  : result (gmap fname (list date)) :=
  if forward_fill then
    let! ffill_dict := get_forward_fill_dict bucket_valid_files future_days in
    Ok ((fun dates => get_dates_without_output dates existing_output_files)
          <$> ffill_dict)
  else
    Ok (foldl (fun files d => dict_append (Zip d) d files) ∅
              (get_dates_without_output bucket_valid_files
                                        existing_output_files)).

End Scheduler.


(** ** pandas values and frames *)

#[global] Instance Q_eq_dec : EqDecision Q.
Proof. solve_decision. Defined.

(** A value of a column.  [VTime s] is the time string [HH:MM:SS] that
    denotes [s] seconds past midnight, [VDate d] the date string of [d];
    [VNaN] is NaN, None and NaT. *)
Inductive cell :=
| VInt (z : Z)
| VNum (q : Q)
| VStr (s : string)
| VTime (secs : Z)
| VDate (d : date)
| VNaN.

#[global] Instance cell_eq_dec : EqDecision cell.
Proof. solve_decision. Defined.

(** A float result, in lowest terms. *)
Definition qcell (q : Q) : cell := VNum (Qred q).

Definition cell_to_Q (c : cell) : option Q :=
  match c with
  | VInt z => Some (inject_Z z)
  | VNum q => Some q
  | _ => None
  end.

Definition notna (c : cell) : bool :=
  match c with
  | VNaN => false
  | _ => true
  end.

(** [x - y] and [x / y] on numbers; NaN when an operand is missing or
    the quotient is not a finite number. *)
Definition cell_sub (x y : cell) : cell :=
  match cell_to_Q x, cell_to_Q y with
  | Some a, Some b => qcell (a - b)
  | _, _ => VNaN
  end.
Definition cell_div (x y : cell) : cell :=
  match cell_to_Q x, cell_to_Q y with
  | Some a, Some b => if Qeq_bool b 0 then VNaN else qcell (a / b)
  | _, _ => VNaN
  end.

Definition Qlt_bool (a b : Q) : bool := negb (Qle_bool b a).

(** The order [sort_values] and [groupby] put keys in: numbers by value,
    strings by code points. *)
Definition cell_leb (x y : cell) : bool :=
  match x, y with
  | VStr a, VStr b =>
      match String.compare a b with
      | Gt => false
      | _ => true
      end
  | VStr _, _ => false
  | _, VStr _ => true
  | _, _ =>
      match cell_to_Q x, cell_to_Q y with
      | Some a, Some b => Qle_bool a b
      | None, _ => false
      | Some _, None => true
      end
  end.

Definition cell_le (x y : cell) : Prop := cell_leb x y = true.
#[global] Instance cell_le_dec : RelDecision cell_le.
Proof. intros x y. unfold cell_le. apply _. Defined.

(** [gtfstk.helpers.timestr_to_seconds(x)] and its [inverse=True]
    direction: what does not convert becomes NaN. *)
Definition timestr_to_seconds (x : cell) : cell :=
  match x with
  | VTime s => VInt s
  | _ => VNaN
  end.
Definition seconds_to_timestr (x : cell) : cell :=
  match x with
  | VInt s => VTime s
  | VNum q => VTime (Z.quot (Qnum q) (Z.pos (Qden q)))   (* int(x) *)
  | _ => VNaN
  end.

(** [hh:mm:ss] as a time string. *)
Definition hms (h m s : Z) : cell := VTime (h * 3600 + m * 60 + s).

(** A row built by an aggregation function: an [OrderedDict]. *)
Definition OrderedDict := list (string * cell).

(** A DataFrame: the index, with its name, and the columns in order. *)
Record DataFrame := {
  index_name : option string;
  index : list cell;
  columns : list (string * list cell)
}.

#[global] Instance DataFrame_eq_dec : EqDecision DataFrame.
Proof. solve_decision. Defined.

Module Frame.

Definition nrows (df : DataFrame) : nat := length (index df).

Fixpoint assoc {V} (k : string) (l : list (string * V)) : option V :=
  match l with
  | [] => None
  | (k', v) :: l' => if decide (k' = k) then Some v else assoc k l'
  end.

(** [df[c]]: a missing column is a [KeyError]. *)
Definition col (df : DataFrame) (c : string) : result (list cell) :=
  match assoc c (columns df) with
  | Some v => Ok v
  | None => Raise (Exn KeyError c)
  end.

Fixpoint assoc_set {V} (k : string) (v : V) (l : list (string * V))
  : list (string * V) :=
  match l with
  | [] => [(k, v)]
  | (k', v') :: l' =>
      if decide (k' = k) then (k, v) :: l' else (k', v') :: assoc_set k v l'
  end.

(** [df[c] = v]: replaces the column, or adds it as the last one. *)
Definition set_col (df : DataFrame) (c : string) (v : list cell) : DataFrame :=
  {| index_name := index_name df; index := index df;
     columns := assoc_set c v (columns df) |}.

(** [df[c] = x] for a scalar [x]. *)
Definition set_col_const (df : DataFrame) (c : string) (x : cell) : DataFrame :=
  set_col df c (replicate (nrows df) x).

(** [df[cs].applymap(f)] written back to [df[cs]]. *)
Fixpoint applymap_cols (f : cell -> cell) (cs : list string) (df : DataFrame)
  : result DataFrame :=
  match cs with
  | [] => Ok df
  | c :: cs' =>
      let! v := col df c in
      applymap_cols f cs' (set_col df c (f <$> v))
  end.

(** [df[cs]]: the listed columns, in the listed order. *)
Fixpoint select (df : DataFrame) (cs : list string)
  : result (list (string * list cell)) :=
  match cs with
  | [] => Ok []
  | c :: cs' =>
      let! v := col df c in
      let! rest := select df cs' in
      Ok ((c, v) :: rest)
  end.
Definition select_cols (df : DataFrame) (cs : list string) : result DataFrame :=
  let! sel := select df cs in
  Ok {| index_name := index_name df; index := index df; columns := sel |}.

(** [df.reset_index()]: the index becomes the first column, named after
    the index or ['index'], and the rows are numbered anew. *)
Definition reset_index (df : DataFrame) : DataFrame :=
  {| index_name := None;
     index := (fun i : nat => VInt (Z.of_nat i)) <$> seq 0 (nrows df);
     columns := (default "index" (index_name df), index df) :: columns df |}.

(** The rows a boolean mask selects. *)
Definition mask_list {A} (mask : list bool) (l : list A) : list A :=
  snd <$> filter (fun p : bool * A => p.1 = true) (zip mask l).
Definition mask_rows (mask : list bool) (df : DataFrame) : DataFrame :=
  {| index_name := index_name df; index := mask_list mask (index df);
     columns := (fun c : string * list cell => (c.1, mask_list mask c.2))
                  <$> columns df |}.

(** The keys of [groupby]: the values that are present, each once, in
    ascending order. *)
Definition group_keys (keys : list cell) : list cell :=
  remove_dups (merge_sort cell_le (filter (fun c => notna c = true) keys)).

(** [df.groupby(c)]: key and sub-frame of every group. *)
Definition groupby (df : DataFrame) (c : string)
  : result (list (cell * DataFrame)) :=
  let! keys := col df c in
  Ok ((fun k => (k, mask_rows ((fun x => bool_decide (x = k)) <$> keys) df))
        <$> group_keys keys).

(** The frame [groupby(c).apply(agg)] builds from the rows the groups
    gave.  Without any group there is no row to take column names
    from: the frame has an empty index and no column. *)
Definition of_applied (key_name : string) (rows : list (cell * OrderedDict))
  : DataFrame :=
  match rows with
  | [] => {| index_name := None; index := []; columns := [] |}
  | (_, d0) :: _ =>
      {| index_name := Some key_name;
         index := rows.*1;
         columns := (fun c => (c, (fun r : cell * OrderedDict =>
                                     default VNaN (assoc c r.2)) <$> rows))
                      <$> d0.*1 |}
  end.

Fixpoint mapM {A B} (f : A -> result B) (l : list A) : result (list B) :=
  match l with
  | [] => Ok []
  | a :: l' =>
      let! b := f a in
      let! bs := mapM f l' in
      Ok (b :: bs)
  end.

(** [s.iat[0]] and [s.iat[-1]]. *)
Definition iat0 (v : list cell) : result cell :=
  match v with
  | x :: _ => Ok x
  | [] => Raise (Exn IndexError "index 0 is out of bounds")
  end.
Definition iat_last (v : list cell) : result cell :=
  match last v with
  | Some x => Ok x
  | None => Raise (Exn IndexError "index -1 is out of bounds")
  end.

(** Reductions that skip NaN: [count], [sum], [min], [max],
    [nunique]; [unique] keeps NaN as a value. *)
Definition count (v : list cell) : Z :=
  Z.of_nat (length (filter (fun c => notna c = true) v)).
Definition numbers (v : list cell) : list Q := omap cell_to_Q v.
Definition sum (v : list cell) : cell :=
  qcell (foldl Qplus 0%Q (numbers v)).
Definition Qmin' (a b : Q) : Q := if Qle_bool a b then a else b.
Definition Qmax' (a b : Q) : Q := if Qle_bool a b then b else a.
Definition smin (v : list cell) : cell :=
  match numbers v with
  | [] => VNaN
  | q :: qs => qcell (foldl Qmin' q qs)
  end.
Definition smax (v : list cell) : cell :=
  match numbers v with
  | [] => VNaN
  | q :: qs => qcell (foldl Qmax' q qs)
  end.
Definition unique (v : list cell) : list cell := remove_dups v.
Definition nunique (v : list cell) : Z :=
  Z.of_nat (length (remove_dups (filter (fun c => notna c = true) v))).
Definition isnull_sum (v : list cell) : Z :=
  Z.of_nat (length (filter (fun c => notna c = false) v)).

(** Element-wise quotient of two columns. *)
Definition div_cols (a b : list cell) : list cell := zip_with cell_div a b.

End Frame.

(** ** Statistics: trip rollup, sweep, headways, route rollup *)

Module Stats.
Import Frame.

(** *** Active-interval sweep: [get_active_trips_df] *)

(** The labels of an index that are instants; [groupby] drops the
    missing ones. *)
Definition instants (v : list cell) : list Z :=
  omap (fun c => match c with VInt z => Some z | _ => None end) v.

(** [groupby(level=0, sort=True).sum()]: one entry per instant, in
    ascending order, holding the sum of the values at that instant. *)
Fixpoint add_event (t v : Z) (s : list (Z * Z)) : list (Z * Z) :=
  match s with
  | [] => [(t, v)]
  | (t', v') :: s' =>
      if t <? t' then (t, v) :: s
      else if t =? t' then (t', v' + v) :: s'
      else (t', v') :: add_event t v s'
  end.
Definition groupby_sum (events : list (Z * Z)) : list (Z * Z) :=
  foldl (fun s e => add_event e.1 e.2 s) [] events.

(** [cumsum()]. *)
Fixpoint cumsum_from (acc : Z) (s : list (Z * Z)) : list (Z * option Z) :=
  match s with
  | [] => []
  | (t, v) :: s' => (t, Some (acc + v)) :: cumsum_from (acc + v) s'
  end.

Definition get_active_trips_df (start_time end_time : list cell)
  : list (Z * option Z) :=
  let departed := (fun t => (t, 1)) <$> instants start_time in
  let arrived := (fun t => (t, -1)) <$> instants end_time in
  fillna_ffill None (cumsum_from 0 (groupby_sum (departed ++ arrived))).

(** The value a step function holds at instant [t]: that of the last
    entry at or before [t]. *)
Fixpoint value_at (s : list (Z * option Z)) (t : Z) : option Z :=
  match s with
  | [] => None
  | (t', v) :: s' =>
      if t' <=? t then
        match value_at s' t with
        | Some w => Some w
        | None => v
        end
      else None
  end.

(** *** Headways *)

(** [np.diff]. *)
Definition np_diff (l : list Z) : list Z :=
  zip_with (fun a b => b - a) l (tail l).

(** [x == n] for an integer [n]: the comparison of numbers, so that the
    float 0.0 of a column that holds a NaN equals 0; false for NaN and
    for what is not a number. *)
Definition cell_eq_int (x : cell) (n : Z) : bool :=
  match cell_to_Q x with
  | Some q => Qeq_bool q (inject_Z n)
  | None => false
  end.

(** [group[group['direction_id'] == direction]['start_time'].values]. *)
Definition direction_stimes (direction : Z) (direction_id start_time : list cell)
  : list cell :=
  mask_list ((fun c => cell_eq_int c direction) <$> direction_id) start_time.

(** [headway_start <= stime <= headway_end] on the values
    [timestr_to_seconds] gives, an integer or NaN; a comparison with
    NaN is false. *)
Definition in_window (headway_start headway_end stime : cell) : option Z :=
  match headway_start, headway_end, stime with
  | VInt a, VInt b, VInt s => if (a <=? s) && (s <=? b) then Some s else None
  | _, _, _ => None
  end.

(** The sorted start times of one direction inside the window. *)
Definition window_stimes (headway_start headway_end : cell) (direction : Z)
    (direction_id start_time : list cell) : list Z :=
  merge_sort Z.le
    (omap (in_window headway_start headway_end)
          (direction_stimes direction direction_id start_time)).

(** The loop [for direction in [0, 1]]. *)
Definition compute_headways (headway_start headway_end : cell)
    (direction_id start_time : list cell) : list Z :=
  foldl (fun headways direction =>
           headways ++ np_diff (window_stimes headway_start headway_end
                                              direction direction_id start_time))
        [] [0; 1].

Definition list_max (x : Z) (l : list Z) : Z := foldl Z.max x l.
Definition list_min (x : Z) (l : list Z) : Z := foldl Z.min x l.
Definition list_sum (l : list Z) : Z := foldl Z.add 0 l.

(** [max_headway], [min_headway] and [mean_headway], in minutes. *)
Definition headway_stats (headways : list Z) : cell * cell * cell :=
  match headways with
  | [] => (VNaN, VNaN, VNaN)
  | h :: hs =>
      (qcell (inject_Z (list_max h hs) / 60),
       qcell (inject_Z (list_min h hs) / 60),
       qcell (inject_Z (list_sum headways)
                / inject_Z (Z.of_nat (length headways)) / 60))
  end.

(** *** Tables of a feed *)

Record trip := {
  t_route_id : cell; t_trip_id : cell; t_direction_id : cell; t_shape_id : cell }.
Record route := {
  r_route_id : cell; r_route_short_name : cell; r_route_long_name : cell;
  r_route_type : cell; r_agency_id : cell }.
Record agency := { a_agency_id : cell; a_agency_name : cell }.
Record stop_time := {
  st_trip_id : cell; st_stop_id : cell; st_stop_sequence : cell;
  st_departure_time : cell; st_shape_dist_traveled : cell }.
Record stop := {
  s_stop_id : cell; s_stop_name : cell; s_stop_lat : cell; s_stop_lon : cell;
  s_stop_code : cell }.
Record zone := { z_stop_code : cell; z_zone_name : cell }.

Record Feed := {
  trips : list trip; routes : list route; agencies : list agency;
  stop_times : list stop_time; stops : list stop }.

(** A row of the joined trip-stop table. *)
Record TripRow := {
  route_id : cell; trip_id : cell; direction_id : cell; shape_id : cell;
  route_short_name : cell; route_long_name : cell; route_type : cell;
  agency_id : cell; agency_name : cell;
  stop_id : cell; stop_sequence : cell; departure_time : cell;
  shape_dist_traveled : cell;
  stop_name : cell; stop_lat : cell; stop_lon : cell; stop_code : cell;
  zone_name : cell }.

(** The right rows of a [how='left'] merge: without a match the left
    row is kept once, with nothing on the right. *)
Definition left_matches {A} (l : list A) : list (option A) :=
  match l with
  | [] => [None]
  | _ => Some <$> l
  end.

Definition on {A} (key : A -> cell) (k : cell) (l : list A) : list A :=
  filter (fun x => key x = k) l.

(** The chain of merges of [compute_trip_stats_partridge], each on the
    column the two tables share. *)
Definition merge_all (feed : Feed) (zones : list zone) : list TripRow :=
  t ← trips feed;
  r ← on r_route_id (t_route_id t) (routes feed);
  a ← left_matches (on a_agency_id (r_agency_id r) (agencies feed));
  st ← on st_trip_id (t_trip_id t) (stop_times feed);
  s ← on s_stop_id (st_stop_id st) (stops feed);
  z ← left_matches (on z_stop_code (s_stop_code s) zones);
  [ {| route_id := t_route_id t; trip_id := t_trip_id t;
       direction_id := t_direction_id t; shape_id := t_shape_id t;
       route_short_name := r_route_short_name r;
       route_long_name := r_route_long_name r;
       route_type := r_route_type r; agency_id := r_agency_id r;
       agency_name := from_option a_agency_name VNaN a;
       stop_id := st_stop_id st; stop_sequence := st_stop_sequence st;
       departure_time := st_departure_time st;
       shape_dist_traveled := st_shape_dist_traveled st;
       stop_name := s_stop_name s; stop_lat := s_stop_lat s;
       stop_lon := s_stop_lon s; stop_code := s_stop_code s;
       zone_name := from_option z_zone_name VNaN z |} ].

(** [sort_values(['trip_id', 'stop_sequence'])]. *)
Definition row_le (x y : TripRow) : Prop :=
  if decide (trip_id x = trip_id y)
  then cell_le (stop_sequence x) (stop_sequence y)
  else cell_le (trip_id x) (trip_id y).
#[global] Instance row_le_dec : RelDecision row_le.
Proof. intros x y. unfold row_le. destruct (decide _); apply _. Defined.

(** *** The two builders *)

Section Builders.

(** The geometry provider ([gtfstk.build_geometry_by_stop] with
    [use_utm=True], read as the dictionary lookup it returns, and the
    distance of two of its points) and [gtfstk.helpers.get_peak_indices]
    are external. *)
Variable Point : Type.
Variable distance : Point -> Point -> Q.
Variable build_geometry_by_stop : Feed -> cell -> option Point.
Variable get_peak_indices : list Z -> list (option Z) -> result (nat * nat).

(** [geometry_by_stop[stop_id]]. *)
Definition geometry_of (geometry_by_stop : cell -> option Point) (stop_id : cell)
  : result Point :=
  match geometry_by_stop stop_id with
  | Some p => Ok p
  | None => Raise (Exn KeyError "stop_id")
  end.

(** [my_agg(group)]: [iat[0]] reads the first row of the group and
    [iat[-1]] the last one. *)
Definition my_agg (geometry_by_stop : cell -> option Point)
    (group : list TripRow) : result OrderedDict :=
  match group, last group with
  | row0 :: _, Some rowN =>
      let start_time := departure_time row0 in
      let end_time := departure_time rowN in
      let! start_point := geometry_of geometry_by_stop (stop_id row0) in
      let! end_point := geometry_of geometry_by_stop (stop_id rowN) in
      let dist := distance start_point end_point in
      Ok [("route_id", route_id row0);
          ("route_short_name", route_short_name row0);
          ("route_long_name", route_long_name row0);
          ("agency_id", agency_id row0);
          ("agency_name", agency_name row0);
          ("route_type", route_type row0);
          ("direction_id", direction_id row0);
          ("shape_id", shape_id row0);
          ("num_stops", VInt (Z.of_nat (length group)));
          ("start_time", start_time);
          ("end_time", end_time);
          ("start_stop_id", stop_id row0);
          ("end_stop_id", stop_id rowN);
          ("start_stop_code", stop_code row0);
          ("end_stop_code", stop_code rowN);
          ("start_stop_name", stop_name row0);
          ("end_stop_name", stop_name rowN);
          ("start_stop_lat", stop_lat row0);
          ("start_stop_lon", stop_lon row0);
          ("end_stop_lat", stop_lat rowN);
          ("end_stop_lon", stop_lon rowN);
          ("start_zone", zone_name row0);
          ("end_zone", zone_name rowN);
          ("num_zones", VInt (nunique (zone_name <$> group)));
          ("num_zones_missing", VInt (isnull_sum (zone_name <$> group)));
          ("is_loop", VInt (if Qlt_bool dist (inject_Z 400) then 1 else 0));
          ("duration", cell_div (cell_sub end_time start_time) (VInt 3600))]
  | _, _ => Raise (Exn IndexError "index 0 is out of bounds")
  end.

(** [v / x] for a scalar [x]. *)
Definition div_scalar (v : list cell) (x : Z) : list cell :=
  (fun c => cell_div c (VInt x)) <$> v.

(** The rows of [f] grouped by [trip_id]. *)
Definition groupby_trip_id (f : list TripRow) : list (cell * list TripRow) :=
  (fun k => (k, filter (fun r => trip_id r = k) f))
    <$> group_keys (trip_id <$> f).

Definition apply_agg {G} (agg : G -> result OrderedDict)
    (g : list (cell * G)) : result (list (cell * OrderedDict)) :=
  mapM (fun kg : cell * G => let! d := agg kg.2 in Ok (kg.1, d)) g.

Definition compute_trip_stats_partridge (feed : Feed) (zones : list zone)
  : result DataFrame :=
  let f := merge_sort row_le (merge_all feed zones) in
  let geometry_by_stop := build_geometry_by_stop feed in
  let g := groupby_trip_id f in
  let! rows := apply_agg (my_agg geometry_by_stop) g in
  let h := of_applied "trip_id" rows in
  let h := set_col h "distance"
             ((fun kg : cell * list TripRow =>
                 smax (shape_dist_traveled <$> kg.2)) <$> g) in
  let h := reset_index h in
  let! dist := col h "distance" in
  let! duration := col h "duration" in
  let h := set_col h "speed" (div_scalar (div_cols dist duration) 1000) in
  applymap_cols seconds_to_timestr ["start_time"; "end_time"] h.

(** [s.any()] on a column of numbers. *)
Definition any (v : list cell) : bool :=
  existsb (fun c => match cell_to_Q c with
                    | Some q => negb (Qeq_bool q 0)
                    | None => false
                    end) v.

(** [x < bound], false for NaN. *)
Definition cell_ltb (x : cell) (bound : Z) : bool :=
  match cell_to_Q x with
  | Some q => Qlt_bool q (inject_Z bound)
  | None => false
  end.

Definition opt_cell (o : option Z) : cell :=
  match o with
  | Some z => VInt z
  | None => VNaN
  end.

(** [a[i]] on a numpy array. *)
Definition at_index {A} (a : list A) (i : nat) : result A :=
  match a !! i with
  | Some x => Ok x
  | None => Raise (Exn IndexError "index is out of bounds")
  end.

Definition iat0_of (group : DataFrame) (c : string) : result cell :=
  let! v := col group c in iat0 v.

(** [compute_route_stats(group)], the function applied to every route. *)
Definition compute_route_stats (headway_start headway_end : cell)
    (group : DataFrame) : result OrderedDict :=
  let! route_short_name := iat0_of group "route_short_name" in
  let! route_long_name := iat0_of group "route_long_name" in
  let! agency_id := iat0_of group "agency_id" in
  let! agency_name := iat0_of group "agency_name" in
  let! route_type := iat0_of group "route_type" in
  let! start_time := col group "start_time" in
  let! end_time := col group "end_time" in
  let! is_loop := col group "is_loop" in
  let! direction_id := col group "direction_id" in
  let headways :=
    compute_headways headway_start headway_end direction_id start_time in
  let '(max_headway, min_headway, mean_headway) := headway_stats headways in
  let active_trips := get_active_trips_df start_time end_time in
  let times := active_trips.*1 in
  let counts := active_trips.*2 in
  let! peak := get_peak_indices times counts in
  let! peak_num_trips := at_index counts peak.1 in
  let! peak_start_time := at_index times peak.1 in
  let! peak_end_time := at_index times peak.2 in
  let! dist := col group "distance" in
  let! duration := col group "duration" in
  let! start_stop_id := iat0_of group "start_stop_id" in
  let! end_stop_id := iat0_of group "end_stop_id" in
  let! start_stop_lat := iat0_of group "start_stop_lat" in
  let! start_stop_lon := iat0_of group "start_stop_lon" in
  let! end_stop_lat := iat0_of group "end_stop_lat" in
  let! end_stop_lon := iat0_of group "end_stop_lon" in
  let! num_stops := iat0_of group "num_stops" in
  let! start_zone := iat0_of group "start_zone" in
  let! end_zone := iat0_of group "end_zone" in
  let! num_zones := iat0_of group "num_zones" in
  let! num_zones_missing := iat0_of group "num_zones_missing" in
  Ok [("route_short_name", route_short_name);
      ("route_long_name", route_long_name);
      ("agency_id", agency_id);
      ("agency_name", agency_name);
      ("route_type", route_type);
      ("num_trips", VInt (Z.of_nat (nrows group)));
      ("num_trip_starts", VInt (count start_time));
      ("num_trip_ends",
        VInt (count (filter (fun c => cell_ltb c (24 * 3600) = true) end_time)));
      ("is_loop", VInt (if any is_loop then 1 else 0));
      ("is_bidirectional",
        VInt (if (1 <? length (unique direction_id))%nat then 1 else 0));
      ("start_time", smin start_time);
      ("end_time", smax end_time);
      ("max_headway", max_headway);
      ("min_headway", min_headway);
      ("mean_headway", mean_headway);
      ("peak_num_trips", opt_cell peak_num_trips);
      ("peak_start_time", VInt peak_start_time);
      ("peak_end_time", VInt peak_end_time);
      ("service_distance", sum dist);
      ("service_duration", sum duration);
      ("start_stop_id", start_stop_id);
      ("end_stop_id", end_stop_id);
      ("start_stop_lat", start_stop_lat);
      ("start_stop_lon", start_stop_lon);
      ("end_stop_lat", end_stop_lat);
      ("end_stop_lon", end_stop_lon);
      ("num_stops", num_stops);
      ("start_zone", start_zone);
      ("end_zone", end_zone);
      ("num_zones", num_zones);
      ("num_zones_missing", num_zones_missing)].

(** The columns of the result, in the order of the final selection. *)
Definition route_stats_columns : list string :=
  ["route_id"; "route_short_name"; "agency_id"; "agency_name";
   "route_long_name"; "route_type"; "num_trips"; "num_trip_starts";
   "num_trip_ends"; "is_loop"; "is_bidirectional"; "start_time";
   "end_time"; "max_headway"; "min_headway"; "mean_headway";
   "peak_num_trips"; "peak_start_time"; "peak_end_time";
   "service_distance"; "service_duration"; "service_speed";
   "mean_trip_distance"; "mean_trip_duration"; "start_stop_id";
   "end_stop_id"; "start_stop_lat"; "start_stop_lon"; "end_stop_lat";
   "end_stop_lon"; "num_stops"; "start_zone"; "end_zone";
   "num_zones"; "num_zones_missing"].

Definition compute_route_stats_base_partridge (trip_stats_subset : DataFrame)
    (headway_start_time headway_end_time : cell) : result DataFrame :=
  let f := trip_stats_subset in
  let! f := applymap_cols timestr_to_seconds ["start_time"; "end_time"] f in
  let headway_start := timestr_to_seconds headway_start_time in
  let headway_end := timestr_to_seconds headway_end_time in
  let! groups := groupby f "route_id" in
  let! rows := apply_agg (compute_route_stats headway_start headway_end) groups in
  let g := reset_index (of_applied "route_id" rows) in
  let! service_distance := col g "service_distance" in
  let! service_duration := col g "service_duration" in
  let g := set_col g "service_speed" (div_cols service_distance service_duration) in
  let! num_trips := col g "num_trips" in
  let g := set_col g "mean_trip_distance" (div_cols service_distance num_trips) in
  let g := set_col g "mean_trip_duration" (div_cols service_duration num_trips) in
  let! g := applymap_cols seconds_to_timestr
              ["start_time"; "end_time"; "peak_start_time"; "peak_end_time"] g in
  let! service_speed := col g "service_speed" in
  let g := set_col g "service_speed" (div_scalar service_speed 1000) in
  select_cols g route_stats_columns.

End Builders.

(** The columns of a trip-stats frame. *)
Definition trip_stats_columns : list string :=
  ["trip_id"; "route_id"; "route_short_name"; "route_long_name"; "agency_id";
   "agency_name"; "route_type"; "direction_id"; "shape_id"; "num_stops";
   "start_time"; "end_time"; "start_stop_id"; "end_stop_id";
   "start_stop_code"; "end_stop_code"; "start_stop_name"; "end_stop_name";
   "start_stop_lat"; "start_stop_lon"; "end_stop_lat"; "end_stop_lon";
   "start_zone"; "end_zone"; "num_zones"; "num_zones_missing"; "is_loop";
   "duration"; "distance"; "speed"].

(** A trip-stats frame without rows. *)
Definition empty_trip_stats : DataFrame :=
  {| index_name := None; index := [];
     columns := (fun c => (c, [])) <$> trip_stats_columns |}.

(** A feed without any row. *)
Definition empty_feed : Feed :=
  {| trips := []; routes := []; agencies := []; stop_times := []; stops := [] |}.

End Stats.

(** ** Batch orchestrator *)

Module Orchestrator.
Import Frame Stats.

(** The collaborators the module calls but does not define: the bucket
    behind [bucket.download_file], the feed readers of [gtfs_utils] and
    [partridge], the zone table, the geometry provider, the peak
    selector and the switch [WRITE_FILTERED_FEED] of the
    configuration. *)
Record Externals := {
  Net : Type;
  ZipFile : Type;
  download_file : fname -> Net -> Net * result ZipFile;
  get_partridge_feed_by_date : ZipFile -> date -> result Feed;
  write_filtered_feed_by_date : ZipFile -> date -> result ZipFile;
  ptg_feed : ZipFile -> result Feed;
  get_zones_df : list zone;
  WRITE_FILTERED_FEED : bool;
  Point : Type;
  distance : Point -> Point -> Q;
  build_geometry_by_stop : Feed -> cell -> option Point;
  get_peak_indices : list Z -> list (option Z) -> result (nat * nat)
}.

(** What the handlers do to the world, in program order. *)
Inductive action :=
| Download (file : fname) (ev : Retry.event)   (* s3_download, under retry *)
| Windowing (file : fname) (d : date)          (* get_partridge_feed_by_date *)
| Filtering (file : fname) (d : date)          (* write_filtered_feed_by_date *)
| TripRollup (d : date)                        (* compute_trip_stats_partridge *)
| RouteRollup (d : date)                       (* compute_route_stats_base_partridge *)
| ReadPickle (d : date) (k : output_kind)
| ToPickle (d : date) (k : output_kind)
| Remove (file : fname).                       (* os.remove *)

(** The actions of the stage that produces the trip artifact: a
    download, reading or filtering a snapshot, and the trip rollup.
    The route rollup and the reads and writes of output files are not
    among them. *)
Definition fetches_or_builds_trips (a : action) : bool :=
  match a with
  | Download _ _ | Windowing _ _ | Filtering _ _ | TripRollup _ => true
  | _ => false
  end.

Section Handlers.
Variable E : Externals.

(** The bucket, the three folders and the journal of actions. *)
Record World := {
  net : Net E;
  gtfs_folder : gmap fname (ZipFile E);
  filtered_folder : gmap date (ZipFile E);
  output_folder : gmap (date * output_kind) DataFrame;
  journal : list action
}.

Definition log (acts : list action) (w : World) : World :=
  {| net := net w; gtfs_folder := gtfs_folder w;
     filtered_folder := filtered_folder w;
     output_folder := output_folder w; journal := journal w ++ acts |}.

(** A computation on the world that may raise. *)
Definition M (A : Type) : Type := World -> World * result A.

Definition ret {A} (a : A) : M A := fun w => (w, Ok a).
Definition bind {A B} (m : M A) (k : A -> M B) : M B := fun w =>
  match m w with
  | (w1, Ok a) => k a w1
  | (w1, Raise e) => (w1, Raise e)
  end.
Definition lift {A} (r : result A) : M A := fun w => (w, r).
Definition act (a : action) : M unit := fun w => (log [a] w, Ok tt).

(** The body of [s3_download]: [bucket.download_file(key, output_path)]
    with [output_path] the file of that name in the local folder. *)
Definition s3_download_body (key : fname) (kwargs : gmap string pyval)
  : M unit := fun w =>
  match download_file E key (net w) with
  | (n, Ok z) =>
      ({| net := n; gtfs_folder := <[key := z]> (gtfs_folder w);
          filtered_folder := filtered_folder w;
          output_folder := output_folder w; journal := journal w |}, Ok tt)
  | (n, Raise e) =>
      ({| net := n; gtfs_folder := gtfs_folder w;
          filtered_folder := filtered_folder w;
          output_folder := output_folder w; journal := journal w |}, Raise e)
  end.

(** [s3_download], decorated with [@retry()]. *)
Definition s3_download (key : fname) (kwargs : gmap string pyval) : M unit :=
  fun w =>
  let '(w1, evs, r) :=
    Retry.wrapped Retry.default_delays is_Exception s3_download_body
                  key kwargs w in
  (log (Download key <$> evs) w1,
   match r with
   | Ok _ => Ok tt
   | Raise e => Raise e
   end).

Definition get_gtfs_file (file : fname) (force : bool) : M bool := fun w =>
  if negb force && bool_decide (is_Some (gtfs_folder w !! file))
  then (w, Ok false)
  else bind (s3_download file {["report" := PyCallable "logger.error"]})
            (fun _ => ret true) w.

(** Reading the local snapshot [file] with a reader [f]. *)
Definition read_local {A} (file : fname) (f : ZipFile E -> result A) : M A :=
  fun w =>
  match gtfs_folder w !! file with
  | Some z => (w, f z)
  | None => (w, Raise (Exn FileNotFoundError "gtfs file"))
  end.

Definition windowed (file : fname) (d : date) : M Feed :=
  bind (act (Windowing file d))
       (fun _ => read_local file (fun z => get_partridge_feed_by_date E z d)).

(** The [try ... except BadZipFile] of [handle_gtfs_date]. *)
Definition windowed_or_refetched (file : fname) (d : date) (downloaded : bool)
  : M (bool * Feed) := fun w =>
  match windowed file d w with
  | (w1, Ok feed) => (w1, Ok (downloaded, feed))
  | (w1, Raise e) =>
      if decide (exn_cls e = BadZipFile) then
        bind (get_gtfs_file file true)
             (fun downloaded =>
                bind (windowed file d) (fun feed => ret (downloaded, feed))) w1
      else (w1, Raise e)
  end.

Definition filtered (file : fname) (d : date) (downloaded : bool)
  : M (bool * Feed) :=
  bind (act (Filtering file d)) (fun _ =>
  bind (read_local file (fun z => write_filtered_feed_by_date E z d)) (fun z w =>
    ({| net := net w; gtfs_folder := gtfs_folder w;
        filtered_folder := <[d := z]> (filtered_folder w);
        output_folder := output_folder w; journal := journal w |},
     let! feed := ptg_feed E z in Ok (downloaded, feed)))).

(** [df.to_pickle(path)] for the output file of [d] and [k]. *)
Definition to_pickle (d : date) (k : output_kind) (df : DataFrame) : M unit :=
  fun w =>
  ({| net := net w; gtfs_folder := gtfs_folder w;
      filtered_folder := filtered_folder w;
      output_folder := <[(d, k) := df]> (output_folder w);
      journal := journal w ++ [ToPickle d k] |}, Ok tt).

(** [df['date'] = date_str]. *)
Definition tag (d : date) (df : DataFrame) : DataFrame :=
  set_col_const df "date" (VDate d).

Definition trip_stats_for (d : date) (file : fname) : M (bool * DataFrame) :=
  fun w =>
  match output_folder w !! (d, trip_stats) with
  | Some ts => (log [ReadPickle d trip_stats] w, Ok (false, ts))
  | None =>
      bind (get_gtfs_file file false) (fun downloaded =>
      bind (if WRITE_FILTERED_FEED E then filtered file d downloaded
            else windowed_or_refetched file d downloaded) (fun df =>
      bind (act (TripRollup d)) (fun _ =>
      bind (lift (compute_trip_stats_partridge
                    (Point E) (distance E) (build_geometry_by_stop E)
                    df.2 (get_zones_df E))) (fun ts =>
      let ts := tag d ts in
      bind (to_pickle d trip_stats ts) (fun _ => ret (df.1, ts)))))) w
  end.

Definition handle_gtfs_date (d : date) (file : fname) : M bool :=
  bind (trip_stats_for d file) (fun dts =>
  bind (act (RouteRollup d)) (fun _ =>
  bind (lift (compute_route_stats_base_partridge (get_peak_indices E)
                dts.2 (hms 7 0 0) (hms 19 0 0))) (fun rs =>
  bind (to_pickle d route_stats (tag d rs)) (fun _ => ret dts.1)))).

(** The loop over [stats_dates]: [downloaded] is assigned anew for every
    date. *)
Fixpoint handle_dates (file : fname) (stats_dates : list date)
    (downloaded : bool) : M bool :=
  match stats_dates with
  | [] => ret downloaded
  | d :: ds =>
      bind (handle_gtfs_date d file) (fun downloaded =>
        handle_dates file ds downloaded)
  end.

(** [os.remove(gtfs_folder + file)]. *)
Definition os_remove (file : fname) : M unit := fun w =>
  match gtfs_folder w !! file with
  | Some _ =>
      ({| net := net w; gtfs_folder := delete file (gtfs_folder w);
          filtered_folder := filtered_folder w;
          output_folder := output_folder w;
          journal := journal w ++ [Remove file] |}, Ok tt)
  | None => (w, Raise (Exn FileNotFoundError "gtfs file"))
  end.

Definition handle_gtfs_file (file : fname) (stats_dates : list date)
    (delete_downloaded_gtfs_zips : bool) : M unit :=
  bind (handle_dates file stats_dates false) (fun downloaded =>
    if delete_downloaded_gtfs_zips && downloaded
    then os_remove file
    else ret tt).

End Handlers.

(** What a download attempt may change: the bucket and the local file
    of that name. *)
Definition fetched_only (E : Externals) (file : fname) (w w' : World E)
  : Prop :=
  output_folder E w' = output_folder E w
  /\ filtered_folder E w' = filtered_folder E w
  /\ journal E w' = journal E w
  /\ (forall f, f <> file -> gtfs_folder E w' !! f = gtfs_folder E w !! f).

(** What fetching and reading snapshot [file] for date [d] may change:
    the bucket, the local file of that name (which is not removed), the
    filtered feed of that date and the end of the journal. *)
Definition fetch_frame (E : Externals) (d : date) (file : fname)
    (w w' : World E) : Prop :=
  output_folder E w' = output_folder E w
  /\ (forall f, f <> file -> gtfs_folder E w' !! f = gtfs_folder E w !! f)
  /\ (is_Some (gtfs_folder E w !! file) -> is_Some (gtfs_folder E w' !! file))
  /\ (forall d', d' <> d ->
                 filtered_folder E w' !! d' = filtered_folder E w !! d')
  /\ journal E w `prefix_of` journal E w'.

(** What handling date [d] of snapshot [file] may change besides: the
    two output files of that date, of which a trip artifact that exists
    is kept as it is; no output file is removed. *)
Definition date_frame (E : Externals) (d : date) (file : fname)
    (w w' : World E) : Prop :=
  (forall d' k, d' <> d ->
                output_folder E w' !! (d', k) = output_folder E w !! (d', k))
  /\ (forall ts, output_folder E w !! (d, trip_stats) = Some ts ->
                 output_folder E w' !! (d, trip_stats) = Some ts)
  /\ (forall k, is_Some (output_folder E w !! k) ->
                is_Some (output_folder E w' !! k))
  /\ (forall f, f <> file -> gtfs_folder E w' !! f = gtfs_folder E w !! f)
  /\ (is_Some (gtfs_folder E w !! file) -> is_Some (gtfs_folder E w' !! file))
  /\ (forall d', d' <> d ->
                 filtered_folder E w' !! d' = filtered_folder E w !! d')
  /\ journal E w `prefix_of` journal E w'.

(** What handling snapshot [file] for the dates [dates] may change. *)
Definition file_frame (E : Externals) (dates : list date) (file : fname)
    (w w' : World E) : Prop :=
  (forall d' k, d' ∉ dates ->
                output_folder E w' !! (d', k) = output_folder E w !! (d', k))
  /\ (forall d ts, output_folder E w !! (d, trip_stats) = Some ts ->
                   output_folder E w' !! (d, trip_stats) = Some ts)
  /\ (forall k, is_Some (output_folder E w !! k) ->
                is_Some (output_folder E w' !! k))
  /\ (forall f, f <> file -> gtfs_folder E w' !! f = gtfs_folder E w !! f)
  /\ journal E w `prefix_of` journal E w'.

End Orchestrator.

(** * Specification-level definitions and example data *)

(** An operation that counts its attempts and times out at each. *)
Definition flaky (args : list pyval) (kwargs : gmap string pyval) (n : nat)
  : nat * result unit :=
  (Datatypes.S n, Raise (Exn ClientError "timeout")).

(** An operation with a default [report] of its own: it succeeds when it
    is called. *)
Definition with_default (args : list pyval) (kwargs : gmap string pyval)
    (n : nat) : nat * result pyval :=
  (Datatypes.S n, Ok (default (PyCallable "print") (kwargs !! "report"))).

(** Stops on a line, a point being its abscissa in metres. *)
Definition line_distance (a b : Q) : Q :=
  if Qle_bool a b then (b - a)%Q else (a - b)%Q.
Definition line_geometry (stop_id : cell) : option Q :=
  match stop_id with
  | VInt x => Some (inject_Z x)
  | _ => None
  end.

(** A row of trip [t] at stop [s], with sequence number [n] and
    departure [dep]. *)
Definition row_at (t : string) (s n dep : Z) : Stats.TripRow :=
  {| Stats.route_id := VStr "r1"; Stats.trip_id := VStr t;
     Stats.direction_id := VInt 0; Stats.shape_id := VNaN;
     Stats.route_short_name := VStr "1"; Stats.route_long_name := VNaN;
     Stats.route_type := VInt 3; Stats.agency_id := VInt 5;
     Stats.agency_name := VNaN;
     Stats.stop_id := VInt s; Stats.stop_sequence := VInt n;
     Stats.departure_time := VInt dep; Stats.shape_dist_traveled := VNaN;
     Stats.stop_name := VNaN; Stats.stop_lat := VNaN; Stats.stop_lon := VNaN;
     Stats.stop_code := VInt s; Stats.zone_name := VNaN |}.

(** The number of intervals that have started at or before [t] minus
    the number of those that have ended at or before [t]. *)
Definition active_at (intervals : list (Z * Z)) (t : Z) : Z :=
  Z.of_nat (length (filter (fun i : Z * Z => i.1 <= t) intervals))
  - Z.of_nat (length (filter (fun i : Z * Z => i.2 <= t) intervals)).

(** The sum of the values of the events at or before [t]. *)
Fixpoint weight_le (t : Z) (l : list (Z * Z)) : Z :=
  match l with
  | [] => 0
  | (t', v) :: l' => (if t' <=? t then v else 0) + weight_le t l'
  end.

(** A trip runs in direction [d] when its direction id is the number
    [d], held as an integer or as a float; a missing id and an id that
    is not a number are no direction. *)
Definition has_direction (c : cell) (d : Z) : Prop :=
  match c with
  | VInt z => z = d
  | VNum q => (q == inject_Z d)%Q
  | _ => False
  end.

#[global] Instance has_direction_dec c d : Decision (has_direction c d).
Proof.
  destruct c as [z | q | | | |]; simpl;
    [apply Z.eq_dec | apply Qeq_dec | right | right | right | right]; tauto.
Defined.

(** The start times, in seconds, of the trips of direction [d] that
    start inside the closed window, in the order of the rows:
    [start_time] holds the time strings of the trip table. *)
Definition qualifying (hs he d : Z) (direction_id start_time : list cell)
  : list Z :=
  omap (fun p : cell * cell =>
          match p.2 with
          | VTime s =>
              if decide (has_direction p.1 d /\ hs <= s <= he)
              then Some s else None
          | _ => None
          end) (zip direction_id start_time).

(** The sum of a list of gaps. *)
Definition total (l : list Z) : Z := foldr Z.add 0 l.

(** The latest of the snapshot dates [V] at or before [d]. *)
Fixpoint latest (V : list date) (d : date) : option date :=
  match V with
  | [] => None
  | s :: V' =>
      if s <=? d
      then Some (match latest V' d with
                 | Some m => Z.max s m
                 | None => s
                 end)
      else latest V' d
  end.

(** The snapshot that applies to [d]: the latest one at or before [d],
    when it is at most 59 days old. *)
Definition applicable (V : list date) (d : date) : option date :=
  match latest V d with
  | Some s => if d - s <=? 59 then Some s else None
  | None => None
  end.

(** The series after [date_df[existing_dates] = existing_dates]. *)
Definition marked (V : list date) (dates : list date) : Scheduler.series :=
  (fun d => (d, if decide (d ∈ V) then Some d else None)) <$> dates.

(** ** An example run *)

(** The runs of [counts] at the value [m], as pairs of the first index
    of the run and the index after its last. *)
Fixpoint max_runs (m : Z) (i : nat) (start : option nat)
    (counts : list (option Z)) : list (nat * nat) :=
  match counts with
  | [] =>
      match start with
      | Some s => [(s, i)]
      | None => []
      end
  | c :: cs =>
      if decide (c = Some m)
      then max_runs m (Datatypes.S i) (Some (default i start)) cs
      else match start with
           | Some s => (s, i) :: max_runs m (Datatypes.S i) None cs
           | None => max_runs m (Datatypes.S i) None cs
           end
  end.

(** The first of the longest runs; [None] while no run was seen. *)
Fixpoint first_longest (best : option (Z * (nat * nat)))
    (runs : list (Z * (nat * nat))) : option (nat * nat) :=
  match runs with
  | [] => snd <$> best
  | (dur, r) :: runs' =>
      match best with
      | Some (bd, _) =>
          if bd <? dur then first_longest (Some (dur, r)) runs'
          else first_longest best runs'
      | None => first_longest (Some (dur, r)) runs'
      end
  end.

(** A rendering of [gtfstk.helpers.get_peak_indices], for the example
    runs: the first longest period at the maximum count. *)
Definition peak_indices (times : list Z) (counts : list (option Z))
  : result (nat * nat) :=
  match omap id counts with
  | [] => Raise (Exn ValueError "zero-size array")
  | c :: cs =>
      let m := foldl Z.max c cs in
      let! runs :=
        Frame.mapM (fun r : nat * nat =>
                      match times !! r.1, times !! r.2 with
                      | Some a, Some b => Ok (b - a, r)
                      | _, _ => Raise (Exn IndexError "index is out of bounds")
                      end)
                   (max_runs m 0 None counts) in
      match first_longest None runs with
      | Some r => Ok r
      | None => Raise (Exn ValueError "attempt to get argmax of an empty sequence")
      end
  end.

(** A feed with one route and two trips between stops on a line. *)
Definition example_feed : Stats.Feed :=
  {| Stats.trips :=
       [ {| Stats.t_route_id := VStr "r1"; Stats.t_trip_id := VStr "t1";
            Stats.t_direction_id := VInt 0; Stats.t_shape_id := VNaN |};
         {| Stats.t_route_id := VStr "r1"; Stats.t_trip_id := VStr "t2";
            Stats.t_direction_id := VInt 0; Stats.t_shape_id := VNaN |} ];
     Stats.routes :=
       [ {| Stats.r_route_id := VStr "r1"; Stats.r_route_short_name := VStr "1";
            Stats.r_route_long_name := VStr "one"; Stats.r_route_type := VInt 3;
            Stats.r_agency_id := VInt 5 |} ];
     Stats.agencies :=
       [ {| Stats.a_agency_id := VInt 5; Stats.a_agency_name := VStr "bus" |} ];
     Stats.stop_times :=
       [ {| Stats.st_trip_id := VStr "t1"; Stats.st_stop_id := VInt 0;
            Stats.st_stop_sequence := VInt 1;
            Stats.st_departure_time := VInt 25200;
            Stats.st_shape_dist_traveled := VInt 0 |};
         {| Stats.st_trip_id := VStr "t1"; Stats.st_stop_id := VInt 1000;
            Stats.st_stop_sequence := VInt 2;
            Stats.st_departure_time := VInt 26100;
            Stats.st_shape_dist_traveled := VInt 1000 |};
         {| Stats.st_trip_id := VStr "t2"; Stats.st_stop_id := VInt 0;
            Stats.st_stop_sequence := VInt 1;
            Stats.st_departure_time := VInt 26100;
            Stats.st_shape_dist_traveled := VInt 0 |};
         {| Stats.st_trip_id := VStr "t2"; Stats.st_stop_id := VInt 1000;
            Stats.st_stop_sequence := VInt 2;
            Stats.st_departure_time := VInt 27000;
            Stats.st_shape_dist_traveled := VInt 1000 |} ];
     Stats.stops :=
       [ {| Stats.s_stop_id := VInt 0; Stats.s_stop_name := VStr "a";
            Stats.s_stop_lat := VNaN; Stats.s_stop_lon := VNaN;
            Stats.s_stop_code := VInt 10 |};
         {| Stats.s_stop_id := VInt 1000; Stats.s_stop_name := VStr "b";
            Stats.s_stop_lat := VNaN; Stats.s_stop_lon := VNaN;
            Stats.s_stop_code := VInt 11 |} ] |}.

(** A bucket that serves [example_feed] under every key and counts the
    downloads, with readers that never fail. *)
Definition example_env : Orchestrator.Externals :=
  {| Orchestrator.Net := nat;
     Orchestrator.ZipFile := Stats.Feed;
     Orchestrator.download_file := fun _ n => (Datatypes.S n, Ok example_feed);
     Orchestrator.get_partridge_feed_by_date := fun z _ => Ok z;
     Orchestrator.write_filtered_feed_by_date := fun z _ => Ok z;
     Orchestrator.ptg_feed := fun z => Ok z;
     Orchestrator.get_zones_df :=
       [ {| Stats.z_stop_code := VInt 10; Stats.z_zone_name := VStr "north" |} ];
     Orchestrator.WRITE_FILTERED_FEED := false;
     Orchestrator.Point := Q;
     Orchestrator.distance := line_distance;
     Orchestrator.build_geometry_by_stop := fun _ => line_geometry;
     Orchestrator.get_peak_indices := peak_indices |}.

(** Nothing downloaded, nothing computed. *)
Definition fresh_world : Orchestrator.World example_env :=
  Orchestrator.Build_World example_env 0%nat ∅ ∅ ∅ [].


(** The trip artifact of 2024-01-01 computed from [example_feed]. *)
Definition example_trip_stats : DataFrame :=
  match Stats.compute_trip_stats_partridge Q line_distance
          (fun _ => line_geometry) example_feed
          (Orchestrator.get_zones_df example_env) with
  | Ok ts => Orchestrator.tag (ymd 2024 1 1) ts
  | Raise _ => Stats.empty_trip_stats
  end.

(** The world after the handler ran once for 2024-01-01. *)
Definition persisted_world : Orchestrator.World example_env :=
  (Orchestrator.handle_gtfs_date example_env (ymd 2024 1 1)
                                 (Zip (ymd 2024 1 1)) fresh_world).1.

(** ** Measures of a retry trace *)

(** The delays slept on, in order, and the number of attempts. *)
Definition sleeps (tr : list Retry.event) : list N :=
  omap (fun ev => match ev with Retry.Sleep d => Some d | _ => None end) tr.
Definition invokes (tr : list Retry.event) : nat :=
  length (omap (fun ev => match ev with
                          | Retry.Invoke => Some tt
                          | _ => None
                          end) tr).
Definition total_sleep (tr : list Retry.event) : N :=
  foldr N.add 0%N (sleeps tr).

(** ** Measures of a journal *)

(** The retry events of the downloads of a journal. *)
Definition download_events (acts : list Orchestrator.action)
  : list Retry.event :=
  omap (fun a => match a with
                 | Orchestrator.Download _ ev => Some ev
                 | _ => None
                 end) acts.

(** ** Example runs with failures *)

(** A bucket without any object: every download fails. *)
Definition unreachable_env : Orchestrator.Externals :=
  {| Orchestrator.Net := nat;
     Orchestrator.ZipFile := Stats.Feed;
     Orchestrator.download_file := fun _ n =>
       (Datatypes.S n, Raise (Exn ClientError "404"));
     Orchestrator.get_partridge_feed_by_date := fun z _ => Ok z;
     Orchestrator.write_filtered_feed_by_date := fun z _ => Ok z;
     Orchestrator.ptg_feed := fun z => Ok z;
     Orchestrator.get_zones_df := [];
     Orchestrator.WRITE_FILTERED_FEED := false;
     Orchestrator.Point := Q;
     Orchestrator.distance := line_distance;
     Orchestrator.build_geometry_by_stop := fun _ => line_geometry;
     Orchestrator.get_peak_indices := peak_indices |}.

(** The entry of a [defaultdict(list)] for a key whose appended items
    are [l]: the key is missing as long as nothing was appended. *)
Definition appended {A} (l : list A) : option (list A) :=
  match l with
  | [] => None
  | _ => Some l
  end.

(** The keys of the dictionary [my_agg] returns, in order. *)
Definition trip_agg_columns : list string :=
  ["route_id"; "route_short_name"; "route_long_name"; "agency_id";
   "agency_name"; "route_type"; "direction_id"; "shape_id"; "num_stops";
   "start_time"; "end_time"; "start_stop_id"; "end_stop_id";
   "start_stop_code"; "end_stop_code"; "start_stop_name"; "end_stop_name";
   "start_stop_lat"; "start_stop_lon"; "end_stop_lat"; "end_stop_lon";
   "start_zone"; "end_zone"; "num_zones"; "num_zones_missing"; "is_loop";
   "duration"].

(** The labels of the row [compute_route_stats] builds, in order. *)
Definition route_agg_columns : list string :=
  ["route_short_name"; "route_long_name"; "agency_id"; "agency_name";
   "route_type"; "num_trips"; "num_trip_starts"; "num_trip_ends";
   "is_loop"; "is_bidirectional"; "start_time"; "end_time";
   "max_headway"; "min_headway"; "mean_headway"; "peak_num_trips";
   "peak_start_time"; "peak_end_time"; "service_distance";
   "service_duration"; "start_stop_id"; "end_stop_id"; "start_stop_lat";
   "start_stop_lon"; "end_stop_lat"; "end_stop_lon"; "num_stops";
   "start_zone"; "end_zone"; "num_zones"; "num_zones_missing"].

(** The trips of route [r1] in [example_trip_stats], with times in
    seconds, and the row the route rollup builds from them. *)
Definition example_route_group : DataFrame :=
  match (let! f := Frame.applymap_cols timestr_to_seconds
                     ["start_time"; "end_time"] example_trip_stats in
         Frame.groupby f "route_id") with
  | Ok ((_, g) :: _) => g
  | _ => Stats.empty_trip_stats
  end.
Definition example_route_row : OrderedDict :=
  match Stats.compute_route_stats peak_indices (VInt 25200) (VInt 68400)
          example_route_group with
  | Ok d => d
  | Raise _ => []
  end.

(** The route rollup of [example_trip_stats]. *)
Definition example_route_stats : DataFrame :=
  match Stats.compute_route_stats_base_partridge peak_indices
          example_trip_stats (hms 7 0 0) (hms 19 0 0) with
  | Ok rs => rs
  | Raise _ => Stats.empty_trip_stats
  end.

(** The trip artifact of 2024-01-01 is persisted and the route artifact
    is not: the state after a run whose route rollup or second write
    did not complete. *)
Definition trip_only_world : Orchestrator.World example_env :=
  Orchestrator.Build_World example_env 0%nat ∅ ∅
    {[ (ymd 2024 1 1, trip_stats) := example_trip_stats ]} [].

(** Local files that may be corrupt ([None]); the bucket times out at
    the first two attempts and serves [example_feed] from the third
    on. *)
Definition slow_bucket_env : Orchestrator.Externals :=
  {| Orchestrator.Net := nat;
     Orchestrator.ZipFile := option Stats.Feed;
     Orchestrator.download_file := fun _ n =>
       (Datatypes.S n,
        if (n <? 2)%nat then Raise (Exn ClientError "timeout")
        else Ok (Some example_feed));
     Orchestrator.get_partridge_feed_by_date := fun z _ =>
       match z with
       | Some feed => Ok feed
       | None => Raise (Exn BadZipFile "File is not a zip file")
       end;
     Orchestrator.write_filtered_feed_by_date := fun z _ => Ok z;
     Orchestrator.ptg_feed := fun z =>
       match z with
       | Some feed => Ok feed
       | None => Raise (Exn BadZipFile "File is not a zip file")
       end;
     Orchestrator.get_zones_df := [];
     Orchestrator.WRITE_FILTERED_FEED := false;
     Orchestrator.Point := Q;
     Orchestrator.distance := line_distance;
     Orchestrator.build_geometry_by_stop := fun _ => line_geometry;
     Orchestrator.get_peak_indices := peak_indices |}.

(** The snapshot of 2024-01-01 is in the local folder, corrupt. *)
Definition slow_bucket_world : Orchestrator.World slow_bucket_env :=
  Orchestrator.Build_World slow_bucket_env 0%nat
                           {[Zip (ymd 2024 1 1) := None]} ∅ ∅ [].

(** Both artifacts of 2024-01-01 are persisted, the route artifact
    being a table without rows and not the rollup of the trip
    artifact. *)
Definition stale_route_world : Orchestrator.World example_env :=
  Orchestrator.Build_World example_env 0%nat ∅ ∅
    {[ (ymd 2024 1 1, trip_stats) := example_trip_stats;
       (ymd 2024 1 1, route_stats) := Stats.empty_trip_stats ]} [].

(** * Properties *)

(** ** Retry executor *)

Section RetryFacts.
Context {S Args A : Type}.
Variable delays : list N.
Variable exception : exn -> bool.
Variable func : Args -> gmap string pyval -> S -> S * result A.

Abbreviation loop := (Retry.loop exception func).
Abbreviation fail_run := (Retry.fail_run exception func).

Lemma loop_retry_step report args kwargs d ds problems s s1 e :
  func args kwargs s = (s1, Raise e) ->
  exception e = true ->
  loop (PyCallable report) args kwargs (Some d :: ds) problems s =
  let '(s2, tr, r) :=
    loop (PyCallable report) args kwargs ds (problems ++ [e]) s1 in
  (s2, Retry.Invoke :: Retry.Report report (Retry.Failed e d)
         :: Retry.Sleep d :: tr, r).
Proof. intros Hf He. cbn [Retry.loop]. by rewrite Hf, He. Qed.

(** A run of retryable failures is consumed by the loop one delay at a
    time: every failure is reported and slept on, and the loop goes on
    with the remaining delays and the failures recorded so far. *)
Lemma loop_fail_run report args kwargs s es s1 :
  fail_run args kwargs s es s1 ->
  forall (ds : list N) (rest : list (option N)) (problems : list exn),
    length es = length ds ->
    loop (PyCallable report) args kwargs ((Some <$> ds) ++ rest) problems s =
    let '(s2, tr, r) :=
      loop (PyCallable report) args kwargs rest (problems ++ es) s1 in
    (s2, Retry.retried report es ds ++ tr, r).
Proof.
  induction 1 as [s | s s1 e es s2 Hf He Hrun IH]; intros ds rest problems Hlen.
  - destruct ds; [| discriminate]. rewrite app_nil_r. simpl.
    by destruct (loop _ _ _ rest problems s) as [[? ?] ?].
  - destruct ds as [| d ds]; [discriminate |].
    injection Hlen as Hlen. rewrite fmap_cons, <- app_comm_cons.
    rewrite (loop_retry_step _ _ _ _ _ _ _ _ _ Hf He).
    rewrite (IH ds rest (problems ++ [e]) Hlen).
    rewrite <- app_assoc. simpl.
    by destruct (loop _ _ _ rest (problems ++ e :: es) s2) as [[? ?] ?].
Qed.

Lemma retried_length_le report es ds1 ds2 :
  length es = length ds1 ->
  Retry.retried report es (ds1 ++ ds2) = Retry.retried report es ds1.
Proof.
  revert ds1. induction es as [| e es IH]; intros [| d ds1] Hlen;
    try discriminate; simpl.
  - by destruct ds2.
  - injection Hlen as Hlen. by rewrite IH.
Qed.

Lemma chain_split (k : nat) :
  (k <= length delays)%nat ->
  Retry.chain_delays delays =
    (Some <$> take k delays) ++ ((Some <$> drop k delays) ++ [None]).
Proof.
  intros _. unfold Retry.chain_delays.
  by rewrite app_assoc, <- fmap_app, take_drop.
Qed.

Lemma wrapped_fail_run report args kwargs s es s1 :
  kwargs !! "report" = Some (PyCallable report) ->
  fail_run args kwargs s es s1 ->
  (length es <= length delays)%nat ->
  Retry.wrapped delays exception func args kwargs s =
  let '(s2, tr, r) :=
    loop (PyCallable report) args kwargs
         ((Some <$> drop (length es) delays) ++ [None]) es s1 in
  (s2, Retry.retried report es delays ++ tr, r).
Proof.
  intros Hrep Hrun Hle. unfold Retry.wrapped. rewrite Hrep.
  rewrite (chain_split (length es) Hle).
  rewrite (loop_fail_run report args kwargs s es s1 Hrun (take (length es) delays));
    [| by rewrite length_take; lia].
  rewrite <- (retried_length_le report es (take (length es) delays)
                                 (drop (length es) delays))
    by (rewrite length_take; lia).
  by rewrite take_drop.
Qed.

(** C3.  With a callable [report] passed by keyword, the executor
    attempts the operation; every retryable failure is reported with the
    next delay of the sequence and slept on, in order, before the next
    attempt.  After [es], the failures so far: a success ends the call
    with its value; a failure that is not retryable is raised at once;
    and when the delays are exhausted the one last attempt, if it fails,
    is followed by a single final report that lists every failure in
    order, and its exception is raised. *)
Theorem retry_contract report args kwargs s es s1 :
  kwargs !! "report" = Some (PyCallable report) ->
  fail_run args kwargs s es s1 ->
  (length es <= length delays)%nat ->
  (forall s2 a,
     func args kwargs s1 = (s2, Ok a) ->
     Retry.wrapped delays exception func args kwargs s =
     (s2, Retry.retried report es delays ++ [Retry.Invoke], Ok (Some a)))
  /\ (forall s2 e,
        func args kwargs s1 = (s2, Raise e) ->
        exception e = false ->
        Retry.wrapped delays exception func args kwargs s =
        (s2, Retry.retried report es delays ++ [Retry.Invoke], Raise e))
  /\ (forall s2 e,
        func args kwargs s1 = (s2, Raise e) ->
        exception e = true ->
        length es = length delays ->
        Retry.wrapped delays exception func args kwargs s =
        (s2, Retry.retried report es delays
               ++ [Retry.Invoke;
                   Retry.Report report (Retry.FailedDefinitely (es ++ [e]))],
         Raise e)).
Proof.
  intros Hrep Hrun Hle.
  pose proof (wrapped_fail_run report args kwargs s es s1 Hrep Hrun Hle) as Hw.
  repeat split.
  - intros s2 a Hf. rewrite Hw.
    destruct (drop (length es) delays); cbn [fmap list_fmap app Retry.loop];
      by rewrite Hf.
  - intros s2 e Hf He. rewrite Hw.
    destruct (drop (length es) delays); cbn [fmap list_fmap app Retry.loop];
      by rewrite Hf, He.
  - intros s2 e Hf He Hlen. rewrite Hw.
    rewrite Hlen, drop_all. cbn [fmap list_fmap app Retry.loop].
    by rewrite Hf, He.
Qed.

(** C10.  Called without a [report] keyword argument, the wrapper raises
    [KeyError] before the operation is attempted: nothing is invoked,
    reported or slept on, and the state is untouched, whatever the
    positional arguments and whatever the operation would do with a
    default of its own. *)
Theorem wrapped_without_report args kwargs s :
  kwargs !! "report" = None ->
  Retry.wrapped delays exception func args kwargs s =
  (s, [], Raise (Exn KeyError "report")).
Proof. intros Hrep. unfold Retry.wrapped. by rewrite Hrep. Qed.

End RetryFacts.

Lemma retry_contract_witness :
  Retry.wrapped [0; 1]%N is_Exception flaky [] {["report" := PyCallable "print"]}
                0%nat =
  (3%nat,
   [Retry.Invoke;
    Retry.Report "print" (Retry.Failed (Exn ClientError "timeout") 0);
    Retry.Sleep 0;
    Retry.Invoke;
    Retry.Report "print" (Retry.Failed (Exn ClientError "timeout") 1);
    Retry.Sleep 1;
    Retry.Invoke;
    Retry.Report "print"
      (Retry.FailedDefinitely
         [Exn ClientError "timeout"; Exn ClientError "timeout";
          Exn ClientError "timeout"])],
   Raise (Exn ClientError "timeout")).
Proof.
  eapply (proj2 (proj2 (retry_contract [0; 1]%N is_Exception flaky "print" []
                          {["report" := PyCallable "print"]} 0%nat
                          [Exn ClientError "timeout"; Exn ClientError "timeout"]
                          2%nat _ _ _))).
  - reflexivity.
  - reflexivity.
  - reflexivity.
  Unshelve.
  + vm_compute. reflexivity.
  + repeat (eapply Retry.fail_run_cons; [reflexivity | reflexivity |]).
    apply Retry.fail_run_nil.
  + simpl. lia.
Defined.

Lemma wrapped_without_report_witness :
  Retry.wrapped Retry.default_delays is_Exception with_default
                [PyCallable "logger.error"] ∅ 0%nat =
  (0%nat, [], Raise (Exn KeyError "report")).
Proof.
  apply (wrapped_without_report Retry.default_delays is_Exception with_default
           [PyCallable "logger.error"] ∅ 0%nat).
  reflexivity.
Defined.

(** ** Trip rollup: [is_loop] *)

Lemma Qlt_bool_iff (a b : Q) : Qlt_bool a b = true <-> (a < b)%Q.
Proof.
  unfold Qlt_bool. rewrite negb_true_iff, <- not_true_iff_false, Qle_bool_iff.
  split; [apply Qnot_le_lt | apply Qlt_not_le].
Qed.

Lemma assoc_cons_ne {V} (k k' : string) (v : V) l :
  k' <> k -> Frame.assoc k ((k', v) :: l) = Frame.assoc k l.
Proof. intros Hne. simpl. by destruct (decide (k' = k)). Qed.

Lemma assoc_cons_eq {V} (k : string) (v : V) l :
  Frame.assoc k ((k, v) :: l) = Some v.
Proof. simpl. by destruct (decide (k = k)). Qed.

Section TripRollupFacts.
Variable Point : Type.
Variable distance : Point -> Point -> Q.

(** C8.  For a trip with at least one row whose first and last stops
    have a projected point, the rollup is built, and its [is_loop] is 1
    exactly when the distance of the two points is strictly below 400;
    at a distance of exactly 400 it is 0. *)
Theorem is_loop_threshold geometry_by_stop group row0 rowN p0 pN :
  head group = Some row0 ->
  last group = Some rowN ->
  geometry_by_stop (Stats.stop_id row0) = Some p0 ->
  geometry_by_stop (Stats.stop_id rowN) = Some pN ->
  exists d is_loop,
    Stats.my_agg Point distance geometry_by_stop group = Ok d
    /\ Frame.assoc "is_loop" d = Some (VInt is_loop)
    /\ (is_loop = 1 <-> (distance p0 pN < inject_Z 400)%Q)
    /\ (is_loop = 0 <-> (inject_Z 400 <= distance p0 pN)%Q)
    /\ ((distance p0 pN == inject_Z 400)%Q -> is_loop = 0).
Proof.
  intros Hhead Hlast H0 HN.
  destruct group as [| r group]; [discriminate |].
  injection Hhead as ->.
  unfold Stats.my_agg. rewrite Hlast.
  unfold Stats.geometry_of. rewrite H0, HN. cbn [rbind].
  eexists. exists (if Qlt_bool (distance p0 pN) (inject_Z 400) then 1 else 0).
  split; [reflexivity |].
  split.
  { repeat (rewrite assoc_cons_ne by discriminate). apply assoc_cons_eq. }
  pose proof (Qlt_bool_iff (distance p0 pN) (inject_Z 400)) as Hlt.
  destruct (Qlt_bool (distance p0 pN) (inject_Z 400)).
  - assert (distance p0 pN < inject_Z 400)%Q as Hd by by apply Hlt.
    repeat split; try done.
    + intros Hle. exfalso. by apply (Qlt_not_le _ _ Hd).
    + intros Heq. exfalso. rewrite Heq in Hd. by apply (Qlt_irrefl _ Hd).
  - assert (~ (distance p0 pN < inject_Z 400)%Q) as Hd
      by (intros Hd; apply Hlt in Hd; discriminate).
    repeat split; try done.
    intros _. by apply Qnot_lt_le.
Qed.

End TripRollupFacts.

Lemma is_loop_threshold_witness :
  exists d is_loop,
    Stats.my_agg Q line_distance line_geometry
                 [row_at "t1" 0 1 25200; row_at "t1" 400 2 26100] = Ok d
    /\ Frame.assoc "is_loop" d = Some (VInt is_loop)
    /\ (is_loop = 1 <-> (line_distance (inject_Z 0) (inject_Z 400) < inject_Z 400)%Q)
    /\ (is_loop = 0 <-> (inject_Z 400 <= line_distance (inject_Z 0) (inject_Z 400))%Q)
    /\ ((line_distance (inject_Z 0) (inject_Z 400) == inject_Z 400)%Q -> is_loop = 0).
Proof.
  apply (is_loop_threshold Q line_distance line_geometry
           [row_at "t1" 0 1 25200; row_at "t1" 400 2 26100]
           (row_at "t1" 0 1 25200) (row_at "t1" 400 2 26100));
    reflexivity.
Defined.

(** ** Active-interval sweep *)

Section SweepFacts.
Import Stats.

Lemma weight_le_app t l1 l2 :
  weight_le t (l1 ++ l2) = weight_le t l1 + weight_le t l2.
Proof. induction l1 as [| [t' v] l1 IH]; simpl; lia. Qed.

Lemma weight_le_add_event t t0 v s :
  weight_le t (add_event t0 v s) = weight_le t s + (if t0 <=? t then v else 0).
Proof.
  induction s as [| [t' v'] s IH]; simpl; [lia |].
  destruct (Z.ltb_spec t0 t'); simpl; [lia |].
  destruct (Z.eqb_spec t0 t'); simpl.
  - subst. destruct (t' <=? t); lia.
  - rewrite IH. lia.
Qed.

Lemma weight_le_foldl t events s :
  weight_le t (foldl (fun s e => add_event e.1 e.2 s) s events)
  = weight_le t s + weight_le t events.
Proof.
  revert s. induction events as [| [t0 v] events IH]; intros s; simpl; [lia |].
  rewrite IH, weight_le_add_event. lia.
Qed.

Lemma weight_le_groupby_sum t events :
  weight_le t (groupby_sum events) = weight_le t events.
Proof. unfold groupby_sum. by rewrite weight_le_foldl. Qed.

Lemma keys_add_event t t0 v s :
  t ∈ (add_event t0 v s).*1 <-> t = t0 \/ t ∈ s.*1.
Proof.
  induction s as [| [t' v'] s IH]; simpl.
  - rewrite list_elem_of_singleton, elem_of_nil. tauto.
  - destruct (Z.ltb_spec t0 t'); simpl; [by rewrite !elem_of_cons |].
    destruct (Z.eqb_spec t0 t'); simpl.
    + subst. rewrite !elem_of_cons. tauto.
    + rewrite !elem_of_cons, IH. tauto.
Qed.

Lemma keys_groupby_sum_from t events s :
  t ∈ (foldl (fun s e => add_event e.1 e.2 s) s events).*1
  <-> t ∈ s.*1 \/ t ∈ events.*1.
Proof.
  revert s. induction events as [| [t0 v] events IH]; intros s; simpl.
  - rewrite elem_of_nil. tauto.
  - rewrite IH, keys_add_event, elem_of_cons. tauto.
Qed.

Lemma sorted_add_event t0 v s :
  StronglySorted Z.lt s.*1 -> StronglySorted Z.lt (add_event t0 v s).*1.
Proof.
  induction s as [| [t' v'] s IH]; simpl; intros Hs.
  - repeat constructor.
  - apply StronglySorted_inv in Hs as [Hs Hall].
    destruct (Z.ltb_spec t0 t'); simpl.
    + constructor; [by constructor |].
      constructor; [done |].
      eapply Forall_impl; [exact Hall | simpl; lia].
    + destruct (Z.eqb_spec t0 t'); simpl; [by constructor |].
      constructor; [by apply IH |].
      apply Forall_forall. intros x Hx. apply keys_add_event in Hx as [-> | Hx].
      * lia.
      * by eapply Forall_forall in Hall.
Qed.

Lemma sorted_groupby_sum events : StronglySorted Z.lt (groupby_sum events).*1.
Proof.
  unfold groupby_sum.
  assert (forall s, StronglySorted Z.lt s.*1 ->
            StronglySorted Z.lt
              (foldl (fun s e => add_event e.1 e.2 s) s events).*1) as H.
  { induction events as [| e events IH]; intros s Hs; simpl; [done |].
    by apply IH, sorted_add_event. }
  apply H. constructor.
Qed.

Lemma keys_cumsum acc s : (cumsum_from acc s).*1 = s.*1.
Proof.
  revert acc. induction s as [| [t v] s IH]; intros acc; simpl; [done |].
  by rewrite IH.
Qed.

Lemma weight_le_above t s :
  Forall (fun t' => t < t') s.*1 -> weight_le t s = 0.
Proof.
  induction s as [| [t' v] s IH]; simpl; [done |].
  intros H. apply Forall_cons in H as [Ht H].
  destruct (Z.leb_spec t' t); [lia |]. by rewrite IH.
Qed.

(** An entry of the cumulative sum holds the weight of all events at or
    before its instant. *)
Lemma cumsum_entry acc s t v :
  StronglySorted Z.lt s.*1 ->
  (t, v) ∈ cumsum_from acc s -> v = Some (acc + weight_le t s).
Proof.
  revert acc. induction s as [| [t' v'] s IH]; intros acc Hs Hin; simpl in *.
  - by apply elem_of_nil in Hin.
  - apply StronglySorted_inv in Hs as [Hs Hall].
    apply elem_of_cons in Hin as [Heq | Hin].
    + injection Heq as -> ->. rewrite Z.leb_refl.
      rewrite (weight_le_above t' s Hall). f_equal. lia.
    + assert (t ∈ s.*1) as Hk.
      { rewrite <- (keys_cumsum (acc + v') s).
        apply list_elem_of_fmap. by exists (t, v). }
      eapply Forall_forall in Hall; [| exact Hk]. simpl in Hall.
      destruct (Z.leb_spec t' t); [| lia].
      rewrite (IH _ Hs Hin). f_equal. lia.
Qed.

(** The value held at any instant. *)
Lemma value_at_cumsum acc s t :
  StronglySorted Z.lt s.*1 ->
  value_at (cumsum_from acc s) t =
  if existsb (fun t' => t' <=? t) s.*1 then Some (acc + weight_le t s) else None.
Proof.
  revert acc. induction s as [| [t' v'] s IH]; intros acc Hs; simpl; [done |].
  apply StronglySorted_inv in Hs as [Hs Hall].
  destruct (Z.leb_spec t' t) as [Hle | Hgt]; simpl.
  - rewrite (IH _ Hs).
    destruct (existsb (fun t'0 => t'0 <=? t) s.*1) eqn:Hex.
    + f_equal. lia.
    + f_equal. rewrite weight_le_above; [lia |].
      apply Forall_forall. intros x Hx.
      destruct (Z.leb_spec x t) as [Hxt | Hxt]; [| done].
      exfalso. assert (existsb (fun t'0 => t'0 <=? t) s.*1 = true) as Habs.
      { apply existsb_exists. exists x. split; [by apply list_elem_of_In |].
        by apply Z.leb_le. }
      congruence.
  - destruct (existsb _ _) eqn:Hex; [| done]. exfalso.
    apply existsb_exists in Hex as (x & Hx & Hxt).
    apply list_elem_of_In in Hx. eapply Forall_forall in Hall; [| exact Hx].
    simpl in Hall. apply Z.leb_le in Hxt. lia.
Qed.

(** Forward fill changes nothing where no value is missing. *)
Lemma ffill_cumsum limit last n acc s :
  ffill_from limit last n (cumsum_from acc s) = cumsum_from acc s.
Proof.
  revert last n acc. induction s as [| [t v] s IH]; intros last n acc; simpl;
    [done |].
  by rewrite IH.
Qed.

Lemma instants_VInt (l : list Z) : instants (VInt <$> l) = l.
Proof.
  induction l as [| x l IH]; [done |].
  change (instants (VInt <$> x :: l)) with (x :: instants (VInt <$> l)).
  by rewrite IH.
Qed.

Lemma weight_le_starts t (l : list Z) (w : Z) :
  weight_le t ((fun x => (x, w)) <$> l)
  = w * Z.of_nat (length (filter (fun x => x <= t) l)).
Proof.
  induction l as [| x l IH]; [simpl; lia |].
  rewrite fmap_cons, filter_cons. cbn [weight_le]. rewrite IH.
  destruct (decide (x <= t)); destruct (Z.leb_spec x t); simpl; lia.
Qed.

Lemma length_filter_fmap {A B} (f : A -> B) (P : B -> Prop)
    `{!forall x, Decision (P x)} (l : list A) :
  length (filter P (f <$> l)) = length (filter (fun x => P (f x)) l).
Proof.
  induction l as [| x l IH]; [done |]. rewrite fmap_cons, !filter_cons.
  destruct (decide (P (f x))); simpl; by rewrite IH.
Qed.

Lemma keys_of_events (w : Z) (l : list Z) : ((fun t => (t, w)) <$> l).*1 = l.
Proof.
  induction l as [| x l IH]; [done |]. rewrite !fmap_cons. simpl. by rewrite IH.
Qed.

Lemma get_active_trips_df_eq (intervals : list (Z * Z)) :
  get_active_trips_df (VInt <$> intervals.*1) (VInt <$> intervals.*2)
  = cumsum_from 0 (groupby_sum (((fun t => (t, 1)) <$> intervals.*1)
                                ++ ((fun t => (t, -1)) <$> intervals.*2))).
Proof.
  unfold get_active_trips_df, fillna_ffill.
  by rewrite !instants_VInt, ffill_cumsum.
Qed.

Lemma weight_le_intervals t (intervals : list (Z * Z)) :
  weight_le t (((fun t => (t, 1)) <$> intervals.*1)
               ++ ((fun t => (t, -1)) <$> intervals.*2))
  = active_at intervals t.
Proof.
  rewrite weight_le_app, !weight_le_starts. unfold active_at.
  rewrite !length_filter_fmap. lia.
Qed.

(** For intervals that do not end before they start, the count is the
    number of intervals open at [t]: started at or before [t], not yet
    ended. *)
Lemma active_at_open (intervals : list (Z * Z)) (t : Z) :
  Forall (fun i : Z * Z => i.1 <= i.2) intervals ->
  active_at intervals t
  = Z.of_nat (length (filter (fun i : Z * Z => i.1 <= t < i.2) intervals)).
Proof.
  unfold active_at. induction 1 as [| [a b] l Hab Hl IH]; [done |].
  rewrite !filter_cons. simpl in *.
  destruct (decide (a <= t)), (decide (b <= t)), (decide (a <= t < b));
    simpl; lia.
Qed.

End SweepFacts.

(** C6.  The sweep of a list of intervals has one entry per instant at
    which an interval starts or ends, in strictly ascending order; the
    entry of an instant holds the starts minus the ends at or before it
    (the +1 and -1 events, merged and accumulated), which is the number
    of intervals open at that instant; the value held
    forward at any instant at or after the first event is that same
    count, and nothing is held before the first event.  On
    [(0,10); (5,15)] the counts are 1 at 0, 2 at 5, 1 at 10, 0 at 15. *)
Theorem sweep_counts (intervals : list (Z * Z)) :
  let s := Stats.get_active_trips_df (VInt <$> intervals.*1)
                                     (VInt <$> intervals.*2) in
  StronglySorted Z.lt s.*1
  /\ (forall t, t ∈ s.*1 <-> t ∈ intervals.*1 \/ t ∈ intervals.*2)
  /\ (forall t v, (t, v) ∈ s -> v = Some (active_at intervals t))
  /\ (Forall (fun i : Z * Z => i.1 <= i.2) intervals ->
      forall t, active_at intervals t
                = Z.of_nat (length (filter (fun i : Z * Z => i.1 <= t < i.2)
                                           intervals)))
  /\ (forall t t', t' ∈ intervals.*1 ++ intervals.*2 -> t' <= t ->
        Stats.value_at s t = Some (active_at intervals t))
  /\ (forall t, Forall (fun t' => t < t') (intervals.*1 ++ intervals.*2) ->
        Stats.value_at s t = None)
  /\ Stats.get_active_trips_df (VInt <$> [(0, 10); (5, 15)].*1)
                               (VInt <$> [(0, 10); (5, 15)].*2)
     = [(0, Some 1); (5, Some 2); (10, Some 1); (15, Some 0)].
Proof.
  intros s. subst s. rewrite get_active_trips_df_eq.
  set (events := ((fun t => (t, 1)) <$> intervals.*1)
                 ++ ((fun t => (t, -1)) <$> intervals.*2)).
  pose proof (sorted_groupby_sum events) as Hsorted.
  assert (forall t, t ∈ (Stats.groupby_sum events).*1
                    <-> t ∈ intervals.*1 \/ t ∈ intervals.*2) as Hkeys.
  { intros t. unfold Stats.groupby_sum. rewrite keys_groupby_sum_from.
    unfold events. rewrite fmap_app, elem_of_app, !keys_of_events.
    simpl. rewrite elem_of_nil. tauto. }
  split; [by rewrite keys_cumsum |].
  split; [intros t; by rewrite keys_cumsum |].
  split.
  { intros t v Hin. rewrite (cumsum_entry _ _ _ _ Hsorted Hin).
    rewrite weight_le_groupby_sum. unfold events.
    by rewrite weight_le_intervals. }
  split; [intros Hwf t; by apply active_at_open |].
  split.
  { intros t t' Hin Hle. rewrite (value_at_cumsum _ _ _ Hsorted).
    assert (existsb (fun t'0 => t'0 <=? t) (Stats.groupby_sum events).*1 = true)
      as ->.
    { apply existsb_exists. exists t'. split.
      - apply list_elem_of_In, Hkeys. by apply elem_of_app.
      - by apply Z.leb_le. }
    rewrite weight_le_groupby_sum. unfold events.
    by rewrite weight_le_intervals. }
  split; [| reflexivity].
  intros t Hall. rewrite (value_at_cumsum _ _ _ Hsorted).
  destruct (existsb _ _) eqn:Hex; [| done]. exfalso.
  apply existsb_exists in Hex as (x & Hx & Hxt).
  apply list_elem_of_In, Hkeys, elem_of_app in Hx.
  eapply Forall_forall in Hall; [| exact Hx]. simpl in Hall.
  apply Z.leb_le in Hxt. lia.
Qed.

(** ** Headways *)

Section HeadwayFacts.
Import Stats.

(** The comparison of the code selects the trips of the direction. *)
Lemma cell_eq_int_direction (c : cell) (d : Z) :
  cell_eq_int c d = true <-> has_direction c d.
Proof.
  unfold cell_eq_int. destruct c as [z | q | | | |]; simpl; try done.
  - rewrite Qeq_bool_iff. apply inject_Z_injective.
  - apply Qeq_bool_iff.
Qed.

Lemma window_stimes_qualifying hs he d direction_id start_time :
  omap (in_window (VInt hs) (VInt he))
       (direction_stimes d direction_id (timestr_to_seconds <$> start_time))
  = qualifying hs he d direction_id start_time.
Proof.
  unfold direction_stimes, Frame.mask_list, qualifying.
  revert start_time.
  induction direction_id as [| c dir IH]; intros [| st sts]; try done.
  rewrite !fmap_cons. cbn [zip zip_with]. rewrite filter_cons.
  cbn [omap list_omap fst snd]. specialize (IH sts).
  pose proof (cell_eq_int_direction c d) as Hdir.
  destruct (cell_eq_int c d).
  - rewrite decide_True by done. rewrite fmap_cons. cbn [omap list_omap snd].
    rewrite IH. unfold in_window, timestr_to_seconds.
    destruct st as [| | | s | |]; try done.
    destruct (Z.leb_spec hs s), (Z.leb_spec s he); simpl;
      (rewrite decide_True by (split; [by apply Hdir | lia]))
      || (rewrite decide_False by (intros [_ ?]; lia)); done.
  - rewrite decide_False by done. rewrite IH.
    destruct st as [| | | s | |]; try done.
    rewrite decide_False; [done |]. intros [Hd _]. by apply Hdir in Hd.
Qed.

(** The largest and the smallest of a list, and its sum. *)
Lemma list_max_spec (x : Z) (l : list Z) :
  list_max x l ∈ x :: l /\ forall y, y ∈ x :: l -> y <= list_max x l.
Proof.
  unfold list_max. revert x. induction l as [| a l IH]; intros x; simpl.
  - split; [by left |]. intros y ->%list_elem_of_singleton. lia.
  - destruct (IH (Z.max x a)) as [Hin Hge]. split.
    + apply elem_of_cons in Hin as [-> | Hin]; [| by do 2 right].
      destruct (Z.max_spec x a) as [[_ ->] | [_ ->]];
        [right; by left | by left].
    + pose proof (Hge (Z.max x a) ltac:(by left)) as Hm.
      intros y Hy.
      apply elem_of_cons in Hy as [-> | Hy]; [lia |].
      apply elem_of_cons in Hy as [-> | Hy]; [lia |].
      apply Hge. by right.
Qed.

Lemma list_min_spec (x : Z) (l : list Z) :
  list_min x l ∈ x :: l /\ forall y, y ∈ x :: l -> list_min x l <= y.
Proof.
  unfold list_min. revert x. induction l as [| a l IH]; intros x; simpl.
  - split; [by left |]. intros y ->%list_elem_of_singleton. lia.
  - destruct (IH (Z.min x a)) as [Hin Hle]. split.
    + apply elem_of_cons in Hin as [-> | Hin]; [| by do 2 right].
      destruct (Z.min_spec x a) as [[_ ->] | [_ ->]];
        [by left | right; by left].
    + pose proof (Hle (Z.min x a) ltac:(by left)) as Hm.
      intros y Hy.
      apply elem_of_cons in Hy as [-> | Hy]; [lia |].
      apply elem_of_cons in Hy as [-> | Hy]; [lia |].
      apply Hle. by right.
Qed.

Lemma list_sum_total (l : list Z) : list_sum l = total l.
Proof.
  unfold list_sum, total.
  assert (forall a, foldl Z.add a l = a + foldr Z.add 0 l) as H.
  { induction l as [| x l IH]; intros a; simpl; [lia |].
    rewrite IH. lia. }
  by rewrite H.
Qed.

(** The differences of a list are those of its consecutive entries. *)
Lemma np_diff_lookup (l : list Z) (i : nat) (a b : Z) :
  l !! i = Some a -> l !! Datatypes.S i = Some b ->
  np_diff l !! i = Some (b - a).
Proof.
  intros Ha Hb. unfold np_diff.
  apply lookup_zip_with_Some. exists a, b. split; [done |].
  split; [done |]. by rewrite lookup_tail.
Qed.

Lemma np_diff_length (l : list Z) :
  length (np_diff l) = (length l - 1)%nat.
Proof.
  unfold np_diff. rewrite length_zip_with.
  destruct l; cbn [tail length]; lia.
Qed.

Lemma np_diff_short (l : list Z) : (length l <= 1)%nat -> np_diff l = [].
Proof.
  intros Hl. apply length_zero_iff_nil. rewrite np_diff_length. lia.
Qed.

Lemma compute_headways_eq headway_start headway_end direction_id start_time :
  compute_headways headway_start headway_end direction_id start_time
  = np_diff (window_stimes headway_start headway_end 0 direction_id start_time)
    ++ np_diff (window_stimes headway_start headway_end 1 direction_id start_time).
Proof. reflexivity. Qed.

End HeadwayFacts.

(** C7.  The route rollup hands the analyzer the direction ids of a
    route group, its start times converted from time strings to
    seconds, and the window converted likewise.  For each of the two
    directions the analyzer takes the start times of the trips of that
    direction (the id compared as a number, so that 0.0 is direction 0)
    inside the closed window, sorted ascending, and the differences of
    consecutive ones; the headways are the differences of direction 0
    followed by those of direction 1; a direction with at most one
    qualifying start time contributes none.  The three statistics are
    NaN exactly when there is no headway at all; otherwise they are the
    largest headway, the smallest one and the sum divided by the
    number, each divided by 60.  Start times 07:00:00, 07:15:00 and
    07:30:00 (25200, 26100 and 27000 seconds) of one direction, held as
    the integer 0 or as the float 0.0, with the window 07:00:00 to
    19:00:00, give 15 minutes three times. *)
Theorem headway_analysis (hs he : Z) (direction_id start_time : list cell) :
  let stimes d :=
    Stats.window_stimes (timestr_to_seconds (VTime hs))
                        (timestr_to_seconds (VTime he)) d direction_id
                        (timestr_to_seconds <$> start_time) in
  let headways :=
    Stats.compute_headways (timestr_to_seconds (VTime hs))
                           (timestr_to_seconds (VTime he)) direction_id
                           (timestr_to_seconds <$> start_time) in
  (forall d, Sorted Z.le (stimes d)
             /\ stimes d ≡ₚ qualifying hs he d direction_id start_time)
  /\ headways = Stats.np_diff (stimes 0) ++ Stats.np_diff (stimes 1)
  /\ (forall d i a b, stimes d !! i = Some a ->
                      stimes d !! Datatypes.S i = Some b ->
                      Stats.np_diff (stimes d) !! i = Some (b - a))
  /\ (forall d, length (Stats.np_diff (stimes d)) = (length (stimes d) - 1)%nat)
  /\ (forall d, (length (qualifying hs he d direction_id start_time) <= 1)%nat ->
                Stats.np_diff (stimes d) = [])
  /\ (headways = [] <-> Stats.headway_stats headways = (VNaN, VNaN, VNaN))
  /\ (forall gaps : list Z,
        gaps <> [] ->
        exists hmax hmin,
          hmax ∈ gaps /\ (forall h, h ∈ gaps -> h <= hmax)
          /\ hmin ∈ gaps /\ (forall h, h ∈ gaps -> hmin <= h)
          /\ Stats.headway_stats gaps
             = (qcell (inject_Z hmax / 60), qcell (inject_Z hmin / 60),
                qcell (inject_Z (total gaps)
                         / inject_Z (Z.of_nat (length gaps)) / 60)))
  /\ Stats.headway_stats
       (Stats.compute_headways (timestr_to_seconds (hms 7 0 0))
                               (timestr_to_seconds (hms 19 0 0))
                               [VInt 0; VInt 0; VInt 0]
                               (timestr_to_seconds
                                  <$> [hms 7 0 0; hms 7 15 0; hms 7 30 0]))
     = (VNum (inject_Z 15), VNum (inject_Z 15), VNum (inject_Z 15))
  /\ timestr_to_seconds <$> [hms 7 0 0; hms 7 15 0; hms 7 30 0]
     = [VInt 25200; VInt 26100; VInt 27000]
  /\ Stats.headway_stats
       (Stats.compute_headways (timestr_to_seconds (hms 7 0 0))
                               (timestr_to_seconds (hms 19 0 0))
                               [VNum 0%Q; VNum 0%Q; VNaN; VNum 0%Q]
                               (timestr_to_seconds
                                  <$> [hms 7 0 0; hms 7 15 0; hms 7 20 0;
                                       hms 7 30 0]))
     = (VNum (inject_Z 15), VNum (inject_Z 15), VNum (inject_Z 15)).
Proof.
  intros stimes headways.
  assert (forall d, stimes d ≡ₚ qualifying hs he d direction_id start_time)
    as Hperm.
  { intros d. unfold stimes, Stats.window_stimes.
    rewrite merge_sort_Permutation.
    change (timestr_to_seconds (VTime hs)) with (VInt hs).
    change (timestr_to_seconds (VTime he)) with (VInt he).
    by rewrite window_stimes_qualifying. }
  split.
  { intros d. split; [| done]. apply (Sorted_merge_sort Z.le). }
  split; [apply compute_headways_eq |].
  split; [intros d i a b; apply np_diff_lookup |].
  split; [intros d; apply np_diff_length |].
  split.
  { intros d Hlen. apply np_diff_short. by rewrite (Hperm d). }
  split.
  { split; [by intros -> |]. by destruct headways. }
  split; [| split_and!; reflexivity].
  intros [| h gaps] Hne; [done |].
  destruct (list_max_spec h gaps) as [HMin HMge].
  destruct (list_min_spec h gaps) as [Hmin Hmle].
  exists (Stats.list_max h gaps), (Stats.list_min h gaps).
  split_and!; try done.
  unfold Stats.headway_stats. by rewrite list_sum_total.
Qed.

(** ** Forward fill plan *)

Section SchedulerFacts.
Import Scheduler.

Lemma latest_Some V d s :
  latest V d = Some s <->
  s ∈ V /\ s <= d /\ (forall s', s' ∈ V -> s' <= d -> s' <= s).
Proof.
  revert s. induction V as [| x V IH]; intros s; simpl.
  - split; [done |]. intros [H _]. by apply elem_of_nil in H.
  - destruct (Z.leb_spec x d) as [Hx | Hx].
    + destruct (latest V d) as [m |] eqn:Hm.
      * destruct (proj1 (IH m) eq_refl) as (Hin & Hle & Hmax).
        split.
        -- intros [= <-]. split; [| split].
           ++ destruct (Z.max_spec x m) as [[_ ->] | [_ ->]];
                [by right | by left].
           ++ lia.
           ++ intros s' [-> | Hs']%elem_of_cons Hs'd; [lia |].
              specialize (Hmax s' Hs' Hs'd). lia.
        -- intros (Hs & Hsd & Hsmax). f_equal.
           assert (x <= s) by (apply Hsmax; [by left | done]).
           assert (m <= s) by (apply Hsmax; [by right | done]).
           apply elem_of_cons in Hs as [-> | Hs]; [lia |].
           specialize (Hmax s Hs Hsd). lia.
      * assert (forall s', s' ∈ V -> s' <= d -> False) as Hnone.
        { intros s' Hs' Hs'd.
          destruct (latest V d) as [m |] eqn:Hm'; [done |].
          clear Hm. revert Hm'. clear IH.
          induction V as [| y V IHV]; [by apply elem_of_nil in Hs' |].
          simpl. destruct (Z.leb_spec y d); [done |].
          apply elem_of_cons in Hs' as [-> | Hs']; [lia | by apply IHV]. }
        split.
        -- intros [= <-]. split; [by left | split; [done |]].
           intros s' [-> | Hs']%elem_of_cons Hs'd; [lia |].
           by destruct (Hnone s' Hs' Hs'd).
        -- intros (Hs & Hsd & Hsmax). f_equal.
           apply elem_of_cons in Hs as [-> | Hs]; [done |].
           by destruct (Hnone s Hs Hsd).
    + rewrite IH. split.
      * intros (Hs & Hsd & Hmax). split; [by right | split; [done |]].
        intros s' [-> | Hs']%elem_of_cons Hs'd; [lia | by apply Hmax].
      * intros (Hs & Hsd & Hmax).
        apply elem_of_cons in Hs as [-> | Hs]; [lia |].
        split; [done | split; [done |]].
        intros s' Hs' Hs'd. apply Hmax; [by right | done].
Qed.

Lemma latest_None V d : latest V d = None <-> (forall s, s ∈ V -> d < s).
Proof.
  induction V as [| x V IH]; simpl.
  - split; [| done]. intros _ s H. by apply elem_of_nil in H.
  - destruct (Z.leb_spec x d) as [Hx | Hx].
    + split; [done |]. intros H. specialize (H x (list_elem_of_here _ _)). lia.
    + rewrite IH. split.
      * intros H s [-> | Hs]%elem_of_cons; [done | by apply H].
      * intros H s Hs. apply H. by right.
Qed.

Lemma latest_here V d : d ∈ V -> latest V d = Some d.
Proof.
  intros Hd. apply latest_Some. split; [done |]. split; [lia | done].
Qed.

Lemma latest_step V d : d ∉ V -> latest V d = latest V (d - 1).
Proof.
  intros Hd. destruct (latest V (d - 1)) as [s |] eqn:Hs.
  - apply latest_Some in Hs as (Hin & Hle & Hmax).
    apply latest_Some. split; [done |]. split; [lia |].
    intros s' Hs' Hs'd. apply Hmax; [done |].
    assert (s' <> d) by (intros ->; done). lia.
  - apply latest_None. intros s Hin.
    pose proof (proj1 (latest_None V (d - 1)) Hs s Hin).
    assert (s <> d) by (intros ->; done). lia.
Qed.

Lemma foldl_min_le (l : list Z) (x : Z) :
  foldl Z.min x l <= x /\ (forall y, y ∈ l -> foldl Z.min x l <= y).
Proof.
  revert x. induction l as [| a l IH]; intros x; simpl.
  - split; [lia |]. intros y H. by apply elem_of_nil in H.
  - destruct (IH (Z.min x a)) as [H1 H2]. split; [lia |].
    intros y [-> | Hy]%elem_of_cons; [lia | by apply H2].
Qed.

Lemma foldl_max_ge (l : list Z) (x : Z) :
  x <= foldl Z.max x l /\ (forall y, y ∈ l -> y <= foldl Z.max x l).
Proof.
  revert x. induction l as [| a l IH]; intros x; simpl.
  - split; [lia |]. intros y H. by apply elem_of_nil in H.
  - destruct (IH (Z.max x a)) as [H1 H2]. split; [lia |].
    intros y [-> | Hy]%elem_of_cons; [lia | by apply H2].
Qed.

Lemma dates_min_max (V : list date) :
  V <> [] ->
  exists lo hi, dates_min V = Some lo /\ dates_max V = Some hi
                /\ (forall s, s ∈ V -> lo <= s <= hi).
Proof.
  destruct V as [| x V]; [done |]. intros _.
  exists (foldl Z.min x V), (foldl Z.max x V).
  split; [done |]. split; [done |].
  destruct (foldl_min_le V x) as [Hm1 Hm2].
  destruct (foldl_max_ge V x) as [HM1 HM2].
  intros s [-> | Hs]%elem_of_cons.
  - lia.
  - specialize (Hm2 s Hs). specialize (HM2 s Hs). lia.
Qed.

Lemma date_range_empty a b : b < a -> date_range a b = [].
Proof.
  intros H. unfold date_range. by replace (Z.to_nat (b - a + 1)) with 0%nat by lia.
Qed.

Lemma date_range_cons a b : a <= b -> date_range a b = a :: date_range (a + 1) b.
Proof.
  intros H. unfold date_range.
  replace (Z.to_nat (b - a + 1)) with (Datatypes.S (Z.to_nat (b - (a + 1) + 1)))
    by lia.
  cbn [seq]. rewrite fmap_cons. f_equal; [simpl; lia |].
  rewrite <- fmap_S_seq, <- list_fmap_compose.
  apply list_fmap_ext. intros i x _. simpl. lia.
Qed.

Lemma elem_of_date_range a b d : d ∈ date_range a b <-> a <= d <= b.
Proof.
  unfold date_range. rewrite list_elem_of_fmap. split.
  - intros (i & -> & Hi). apply elem_of_seq in Hi. lia.
  - intros H. exists (Z.to_nat (d - a)). split; [lia |].
    apply elem_of_seq. lia.
Qed.

Lemma NoDup_date_range a b : NoDup (date_range a b).
Proof.
  unfold date_range. apply NoDup_fmap_2; [| apply NoDup_seq].
  intros i j H. lia.
Qed.

Lemma foldl_set_label (dates labels done : list date) :
  foldl (fun s l => set_label s l (Some l)) (marked done dates) labels
  = marked (done ++ labels) dates.
Proof.
  revert done. induction labels as [| l labels IH]; intros done; simpl.
  - by rewrite app_nil_r.
  - replace (set_label (marked done dates) l (Some l))
      with (marked (done ++ [l]) dates).
    + rewrite IH. by rewrite <- app_assoc.
    + unfold set_label, marked. rewrite <- list_fmap_compose.
      apply list_fmap_ext. intros i d _. simpl.
      destruct (decide (d = l)) as [-> | Hne].
      * rewrite decide_True; [done |]. apply elem_of_app. right. by left.
      * destruct (decide (d ∈ done)) as [Hd | Hd].
        -- rewrite decide_True; [done |]. apply elem_of_app. by left.
        -- rewrite decide_False; [done |].
           intros [H | H%list_elem_of_singleton]%elem_of_app; done.
Qed.

Lemma set_labels_marked (dates labels : list date) :
  (forall l, l ∈ labels -> l ∈ dates) ->
  set_labels ((fun d => (d, None)) <$> dates) labels = Ok (marked labels dates).
Proof.
  intros Hsub. unfold set_labels.
  assert (forallb
            (fun l => bool_decide (l ∈ ((fun d : date => (d, @None date)) <$> dates).*1))
            labels = true) as ->.
  { apply forallb_forall. intros l Hl. apply bool_decide_eq_true.
    rewrite <- list_fmap_compose.
    replace (fst ∘ (fun d : date => (d, @None date)) <$> dates) with dates.
    - apply Hsub. by apply list_elem_of_In.
    - symmetry. rewrite <- (list_fmap_id dates) at 2.
      by apply list_fmap_ext. }
  f_equal.
  replace ((fun d : date => (d, @None date)) <$> dates) with (marked [] dates).
  - by rewrite foldl_set_label.
  - unfold marked. apply list_fmap_ext. intros i d _.
    rewrite decide_False; [done |]. apply not_elem_of_nil.
Qed.

(** Forward fill over consecutive days: when [last] is the latest
    snapshot before [a], [n] days ago, every day gets the snapshot that
    applies to it. *)
Lemma ffill_marked (V : list date) (m : nat) :
  forall (a b : date) (last : option date) (n : nat),
    Z.to_nat (b - a + 1) = m ->
    last = latest V (a - 1) ->
    (forall s, last = Some s -> a = s + 1 + Z.of_nat n) ->
    ffill_from (Some 59%nat) last n (marked V (date_range a b))
    = (fun d => (d, applicable V d)) <$> date_range a b.
Proof.
  induction m as [| m IH]; intros a b last n Hm Hlast Hn.
  - rewrite date_range_empty by lia. done.
  - rewrite date_range_cons by lia. unfold marked. rewrite !fmap_cons.
    fold (marked V (date_range (a + 1) b)).
    destruct (decide (a ∈ V)) as [Ha | Ha]; cbn [ffill_from].
    + rewrite (IH (a + 1) b (Some a) 0%nat).
      * f_equal. unfold applicable. rewrite (latest_here V a Ha).
        by replace (a - a) with 0 by lia.
      * lia.
      * replace (a + 1 - 1) with a by lia. by rewrite latest_here.
      * intros s [= <-]. lia.
    + rewrite (IH (a + 1) b last (Datatypes.S n)).
      * f_equal. f_equal. unfold applicable.
        rewrite (latest_step V a Ha), <- Hlast.
        destruct last as [s |]; [| by destruct (n <? 59)%nat].
        specialize (Hn s eq_refl).
        destruct (Nat.ltb_spec n 59), (Z.leb_spec (a - s) 59); try done; lia.
      * lia.
      * replace (a + 1 - 1) with a by lia. by rewrite (latest_step V a Ha).
      * intros s Hs. specialize (Hn s Hs). lia.
Qed.

(** The lists the loop over the filled series builds. *)
Lemma foldl_dict_append (s : list (date * option date))
    (m : gmap fname (list date)) (k : fname) :
  default [] (foldl (fun ffill p => dict_append (file_of p.2) p.1 ffill) m s
              !! k)
  = default [] (m !! k)
    ++ (filter (fun p : date * option date => file_of p.2 = k) s).*1.
Proof.
  revert m. induction s as [| [d v] s IH]; intros m.
  - simpl. by rewrite app_nil_r.
  - cbn [foldl]. rewrite IH. unfold dict_append. rewrite filter_cons.
    cbn [fst snd].
    destruct (decide (file_of v = k)) as [-> | Hne].
    + rewrite lookup_insert_eq, fmap_cons. simpl. by rewrite <- app_assoc.
    + by rewrite lookup_insert_ne.
Qed.

Lemma filter_applied (g : date -> option date) (k : fname) (l : list date) :
  (filter (fun p : date * option date => file_of p.2 = k)
          ((fun d => (d, g d)) <$> l)).*1
  = filter (fun d => file_of (g d) = k) l.
Proof.
  induction l as [| d l IH]; [done |].
  rewrite fmap_cons, !filter_cons. cbn [fst snd].
  destruct (decide (file_of (g d) = k)); [| done].
  rewrite fmap_cons. cbn [fst]. by rewrite IH.
Qed.

(** The plan of a non-empty set of snapshots: the list of a file holds,
    in order, the days of the range the file applies to. *)
Lemma get_forward_fill_dict_spec (V : list date) (future_days : Z) :
  V <> [] -> 0 <= future_days ->
  exists ffill lo hi,
    dates_min V = Some lo /\ dates_max V = Some hi
    /\ get_forward_fill_dict V future_days = Ok ffill
    /\ forall k,
         default [] (ffill !! k)
         = filter (fun d => file_of (applicable V d) = k)
                  (date_range lo (hi + future_days)).
Proof.
  intros HV Hfd.
  destruct (dates_min_max V HV) as (lo & hi & Hlo & Hhi & Hbounds).
  eexists _, lo, hi. split; [done |]. split; [done |].
  unfold get_forward_fill_dict. rewrite Hlo, Hhi.
  rewrite set_labels_marked.
  2:{ intros l Hl. apply elem_of_date_range. specialize (Hbounds l Hl). lia. }
  cbn [rbind]. split; [reflexivity |].
  intros k. rewrite foldl_dict_append, lookup_empty. simpl.
  unfold fillna_ffill.
  rewrite (ffill_marked V _ lo (hi + future_days) None 0 eq_refl).
  - apply filter_applied.
  - symmetry. apply latest_None. intros s Hs. specialize (Hbounds s Hs). lia.
  - done.
Qed.

End SchedulerFacts.

Lemma file_of_Zip (v : option date) (s : date) :
  Scheduler.file_of v = Zip s <-> v = Some s.
Proof.
  destruct v as [x |]; simpl; split; try done.
  - by intros [= ->].
  - by intros [= ->].
Qed.

Lemma applicable_Some (V : list date) (d s : date) :
  applicable V d = Some s <->
  s ∈ V /\ s <= d <= s + 59 /\ (forall s', s' ∈ V -> s' <= d -> s' <= s).
Proof.
  unfold applicable. destruct (latest V d) as [m |] eqn:Hm.
  - apply latest_Some in Hm as (Hin & Hle & Hmax).
    destruct (Z.leb_spec (d - m) 59) as [Hgap | Hgap].
    + split.
      * intros [= <-]. split; [done |]. split; [lia | done].
      * intros (Hs & Hsd & Hsmax). f_equal.
        specialize (Hmax s Hs). specialize (Hsmax m Hin). lia.
    + split; [done |]. intros (Hs & Hsd & Hsmax).
      specialize (Hmax s Hs). specialize (Hsmax m Hin). lia.
  - split; [done |]. intros (Hs & Hsd & _).
    pose proof (proj1 (latest_None V d) Hm s Hs). lia.
Qed.

(** The plan for snapshots on 2024-01-01 and 2024-03-01 only. *)
Lemma forward_fill_example (future_days : Z) :
  0 <= future_days ->
  exists ffill,
    Scheduler.get_forward_fill_dict [ymd 2024 1 1; ymd 2024 3 1] future_days
    = Ok ffill
    /\ (forall d, d ∈ default [] (ffill !! Zip (ymd 2024 1 1))
                  <-> ymd 2024 1 1 <= d <= ymd 2024 2 29)
    /\ (forall d, d ∈ default [] (ffill !! Zip (ymd 2024 3 1))
                  <-> ymd 2024 3 1 <= d <= ymd 2024 3 1 + Z.min future_days 59).
Proof.
  intros Hfd.
  destruct (get_forward_fill_dict_spec [ymd 2024 1 1; ymd 2024 3 1] future_days
              ltac:(done) Hfd) as (ffill & lo & hi & Hlo & Hhi & Hok & Hlists).
  exists ffill. split; [done |].
  assert (ymd 2024 1 1 = 19723) as E1 by reflexivity.
  assert (ymd 2024 2 29 = 19782) as E2 by reflexivity.
  assert (ymd 2024 3 1 = 19783) as E3 by reflexivity.
  rewrite E1, E2, E3 in *.
  injection Hlo as <-. injection Hhi as <-.
  change (foldl Z.min 19723 [19783]) with 19723 in Hlists.
  change (foldl Z.max 19723 [19783]) with 19783 in Hlists.
  split; intros d; rewrite Hlists, list_elem_of_filter, elem_of_date_range,
    file_of_Zip, applicable_Some, !elem_of_cons, elem_of_nil.
  - split.
    + intros ((_ & Hd & Hmax) & Hr).
      assert (19783 ∈ [19723; 19783]) as Hin by (right; left).
      destruct (Z.le_gt_cases 19783 d) as [H | H]; [| lia].
      specialize (Hmax _ Hin H). lia.
    + intros Hd. split; [| lia]. split; [by left |]. split; [lia |].
      intros s' [-> | [-> | []%elem_of_nil]%elem_of_cons]%elem_of_cons; lia.
  - split.
    + intros (([Heq | [Heq | []]] & Hd & Hmax) & Hr); lia.
    + intros Hd. split; [| lia]. split; [right; by left |]. split; [lia |].
      intros s' [-> | [-> | []%elem_of_nil]%elem_of_cons]%elem_of_cons; lia.
Qed.

(** C5.  For a non-empty set of snapshot dates the plan is built, and a
    date is in the list of a snapshot exactly when it lies in the
    planned range and that snapshot is the latest one at or before it,
    at most 59 days back; no list holds a date twice and no date is in
    the lists of two files.  With snapshots on 2024-01-01 and 2024-03-01
    only, the first covers 2024-01-01 to 2024-02-29 and the second
    covers from 2024-03-01 on. *)
Theorem forward_fill_assignment (valid_files : list date) (future_days : Z) :
  valid_files <> [] ->
  0 <= future_days ->
  exists ffill lo hi,
    Scheduler.dates_min valid_files = Some lo
    /\ Scheduler.dates_max valid_files = Some hi
    /\ Scheduler.get_forward_fill_dict valid_files future_days = Ok ffill
    /\ (forall s d,
          d ∈ default [] (ffill !! Zip s)
          <-> lo <= d <= hi + future_days
              /\ s ∈ valid_files /\ s <= d <= s + 59
              /\ (forall s', s' ∈ valid_files -> s' <= d -> s' <= s))
    /\ (forall k, NoDup (default [] (ffill !! k)))
    /\ (forall k1 k2 d,
          d ∈ default [] (ffill !! k1) -> d ∈ default [] (ffill !! k2) ->
          k1 = k2)
    /\ (forall fd, 0 <= fd ->
          exists ffill',
            Scheduler.get_forward_fill_dict [ymd 2024 1 1; ymd 2024 3 1] fd
            = Ok ffill'
            /\ (forall d, d ∈ default [] (ffill' !! Zip (ymd 2024 1 1))
                          <-> ymd 2024 1 1 <= d <= ymd 2024 2 29)
            /\ (forall d, d ∈ default [] (ffill' !! Zip (ymd 2024 3 1))
                          <-> ymd 2024 3 1 <= d
                                <= ymd 2024 3 1 + Z.min fd 59)).
Proof.
  intros HV Hfd.
  destruct (get_forward_fill_dict_spec valid_files future_days HV Hfd)
    as (ffill & lo & hi & Hlo & Hhi & Hok & Hlists).
  exists ffill, lo, hi. repeat (split; [done |]).
  split.
  { intros s d. rewrite Hlists, list_elem_of_filter, elem_of_date_range,
      file_of_Zip, applicable_Some. tauto. }
  split.
  { intros k. rewrite Hlists. apply NoDup_filter, NoDup_date_range. }
  split; [| apply forward_fill_example].
  intros k1 k2 d. rewrite !Hlists, !list_elem_of_filter.
  intros [<- _] [<- _]. done.
Qed.

Lemma forward_fill_assignment_witness :
  exists ffill lo hi,
    Scheduler.dates_min [ymd 2024 1 1; ymd 2024 3 1] = Some lo
    /\ Scheduler.dates_max [ymd 2024 1 1; ymd 2024 3 1] = Some hi
    /\ Scheduler.get_forward_fill_dict [ymd 2024 1 1; ymd 2024 3 1] 3 = Ok ffill
    /\ (forall s d,
          d ∈ default [] (ffill !! Zip s)
          <-> lo <= d <= hi + 3
              /\ s ∈ [ymd 2024 1 1; ymd 2024 3 1] /\ s <= d <= s + 59
              /\ (forall s', s' ∈ [ymd 2024 1 1; ymd 2024 3 1] ->
                             s' <= d -> s' <= s))
    /\ (forall k, NoDup (default [] (ffill !! k)))
    /\ (forall k1 k2 d,
          d ∈ default [] (ffill !! k1) -> d ∈ default [] (ffill !! k2) ->
          k1 = k2)
    /\ (forall fd, 0 <= fd ->
          exists ffill',
            Scheduler.get_forward_fill_dict [ymd 2024 1 1; ymd 2024 3 1] fd
            = Ok ffill'
            /\ (forall d, d ∈ default [] (ffill' !! Zip (ymd 2024 1 1))
                          <-> ymd 2024 1 1 <= d <= ymd 2024 2 29)
            /\ (forall d, d ∈ default [] (ffill' !! Zip (ymd 2024 3 1))
                          <-> ymd 2024 3 1 <= d
                                <= ymd 2024 3 1 + Z.min fd 59)).
Proof.
  apply (forward_fill_assignment [ymd 2024 1 1; ymd 2024 3 1] 3).
  - discriminate.
  - lia.
Defined.

(** C4 at snapshots 2024-01-01 and 2024-04-01, 91 days apart: the days
    past the limit, 2024-03-01 to 2024-03-31, are not left out of
    the plan.  They are the list of the file ['NaT.zip'], and the work
    lists built from the plan carry that file and those days on to the
    handlers. *)
Theorem forward_fill_gap_goes_to_NaT_zip :
  exists ffill work,
    Scheduler.get_forward_fill_dict [ymd 2024 1 1; ymd 2024 4 1] 0 = Ok ffill
    /\ ffill !! Zip (ymd 2024 1 1)
       = Some (Scheduler.date_range (ymd 2024 1 1) (ymd 2024 2 29))
    /\ ffill !! NaT_zip
       = Some (Scheduler.date_range (ymd 2024 3 1) (ymd 2024 3 31))
    /\ Scheduler.get_valid_file_dates_dict [ymd 2024 1 1; ymd 2024 4 1] []
                                           true 0 = Ok work
    /\ work !! NaT_zip
       = Some (Scheduler.date_range (ymd 2024 3 1) (ymd 2024 3 31)).
Proof.
  eexists _, _.
  split; [reflexivity |].
  split; [by vm_compute |].
  split; [by vm_compute |].
  split; [reflexivity |].
  by vm_compute.
Qed.

(** ** Builders on empty input *)

(** C2 at the empty input.  When the joined trip-stop table has no row
    the trip rollup builder raises [KeyError: 'duration'], and on a
    trip-stats frame without rows the route rollup builder raises
    [KeyError: 'service_distance']: with no group to aggregate, the
    frame [apply] returns has none of the columns the next lines
    read. *)
Theorem builders_raise_on_empty_input (Point : Type)
    (distance : Point -> Point -> Q)
    (build_geometry_by_stop : Stats.Feed -> cell -> option Point)
    (get_peak_indices : list Z -> list (option Z) -> result (nat * nat))
    (feed : Stats.Feed) (zones : list Stats.zone) :
  Stats.merge_all feed zones = [] ->
  Stats.compute_trip_stats_partridge Point distance build_geometry_by_stop
                                     feed zones
  = Raise (Exn KeyError "duration")
  /\ Stats.compute_route_stats_base_partridge get_peak_indices
       Stats.empty_trip_stats (hms 7 0 0) (hms 19 0 0)
     = Raise (Exn KeyError "service_distance").
Proof.
  intros Hempty. split.
  - unfold Stats.compute_trip_stats_partridge. rewrite Hempty. reflexivity.
  - reflexivity.
Qed.

Lemma builders_raise_on_empty_input_witness :
  Stats.compute_trip_stats_partridge Q line_distance (fun _ => line_geometry)
                                     Stats.empty_feed []
  = Raise (Exn KeyError "duration")
  /\ Stats.compute_route_stats_base_partridge
       (fun _ _ => Ok (0%nat, 0%nat))
       Stats.empty_trip_stats (hms 7 0 0) (hms 19 0 0)
     = Raise (Exn KeyError "service_distance").
Proof.
  apply (builders_raise_on_empty_input Q line_distance (fun _ => line_geometry)
           (fun _ _ => Ok (0%nat, 0%nat)) Stats.empty_feed []).
  reflexivity.
Defined.

(** ** Batch orchestrator *)

Section OrchestratorFacts.
Import Orchestrator.
Variable E : Externals.

Lemma bind_Ok {A B} (m : M E A) (k : A -> M E B) w w' b :
  bind E m k w = (w', Ok b) ->
  exists w1 a, m w = (w1, Ok a) /\ k a w1 = (w', Ok b).
Proof.
  unfold bind. destruct (m w) as [w1 [a | e]]; [| done].
  intros H. by exists w1, a.
Qed.

(** With the trip artifact persisted, it is read back and nothing is
    fetched or computed. *)
Lemma trip_stats_for_persisted d file w ts :
  output_folder E w !! (d, trip_stats) = Some ts ->
  trip_stats_for E d file w = (log E [ReadPickle d trip_stats] w, Ok (false, ts)).
Proof. intros H. unfold trip_stats_for. by rewrite H. Qed.

(** The frame [trip_stats_for] returns is the persisted trip artifact. *)
Lemma trip_stats_for_output d file w w1 b ts :
  trip_stats_for E d file w = (w1, Ok (b, ts)) ->
  output_folder E w1 !! (d, trip_stats) = Some ts.
Proof.
  unfold trip_stats_for.
  destruct (output_folder E w !! (d, trip_stats)) as [ts0 |] eqn:Hts.
  - by intros [= <- _ <-].
  - intros H.
    apply bind_Ok in H as (w2 & downloaded & _ & H).
    apply bind_Ok in H as (w3 & df & _ & H).
    apply bind_Ok in H as (w4 & [] & _ & H).
    apply bind_Ok in H as (w5 & ts5 & _ & H).
    apply bind_Ok in H as (w6 & [] & Hp & H).
    injection H as <- _ <-. unfold to_pickle in Hp. injection Hp as <-.
    simpl. apply lookup_insert_eq.
Qed.

(** The handler on a date whose trip artifact is persisted. *)
Lemma handle_gtfs_date_persisted d file w ts :
  output_folder E w !! (d, trip_stats) = Some ts ->
  handle_gtfs_date E d file w =
  match Stats.compute_route_stats_base_partridge (get_peak_indices E) ts
          (hms 7 0 0) (hms 19 0 0) with
  | Ok rs =>
      ({| net := net E w; gtfs_folder := gtfs_folder E w;
          filtered_folder := filtered_folder E w;
          output_folder := <[(d, route_stats) := tag d rs]> (output_folder E w);
          journal := journal E w ++ [ReadPickle d trip_stats; RouteRollup d;
                                     ToPickle d route_stats] |}, Ok false)
  | Raise e =>
      (log E [ReadPickle d trip_stats; RouteRollup d] w, Raise e)
  end.
Proof.
  intros H. unfold handle_gtfs_date, bind at 1.
  rewrite (trip_stats_for_persisted d file w ts H).
  unfold bind, act, lift, to_pickle, ret, log. simpl.
  destruct (Stats.compute_route_stats_base_partridge _ _ _ _); simpl;
    by rewrite <- !app_assoc.
Qed.

(** After a completed run the route artifact is the tagged route rollup
    of the persisted trip artifact. *)
Lemma handle_gtfs_date_completed d file w0 w b :
  handle_gtfs_date E d file w0 = (w, Ok b) ->
  exists ts rs,
    output_folder E w !! (d, trip_stats) = Some ts
    /\ Stats.compute_route_stats_base_partridge (get_peak_indices E) ts
         (hms 7 0 0) (hms 19 0 0) = Ok rs
    /\ output_folder E w !! (d, route_stats) = Some (tag d rs).
Proof.
  unfold handle_gtfs_date. intros H.
  apply bind_Ok in H as (w1 & [b1 ts] & Hts & H).
  apply trip_stats_for_output in Hts.
  apply bind_Ok in H as (w2 & [] & Hact & H).
  apply bind_Ok in H as (w3 & rs & Hrs & H).
  apply bind_Ok in H as (w4 & [] & Hp & H).
  injection H as <- _. unfold act in Hact. injection Hact as <-.
  unfold lift in Hrs. injection Hrs as <- Hrs.
  unfold to_pickle in Hp. injection Hp as <-.
  exists ts, rs. simpl in *. split; [| split; [done |]].
  - by rewrite lookup_insert_ne.
  - apply lookup_insert_eq.
Qed.

(** The flag the loop over the dates ends with is the answer of the
    handler for the last date. *)
Lemma handle_dates_last file ds d b w :
  handle_dates E file (ds ++ [d]) b w
  = bind E (handle_dates E file ds b) (fun _ => handle_gtfs_date E d file) w.
Proof.
  revert b w. induction ds as [| d' ds IH]; intros b w.
  - simpl. unfold bind, ret.
    by destruct (handle_gtfs_date E d file w) as [? [? | ?]].
  - simpl. unfold bind.
    destruct (handle_gtfs_date E d' file w) as [w1 [b1 | e]]; [| done].
    rewrite IH. by unfold bind.
Qed.

(** C1.  When the trip artifact of the date is persisted, the handler
    reads it back: it downloads nothing, reads no snapshot and runs no
    trip rollup, and the bucket, the local folders, the trip artifact
    and every output file other than the route artifact of the date are
    left as they are.  The route rollup is run again, on the trip
    artifact that was read.  When it raises, the handler raises and the
    output folder is as before.  When it returns, the route artifact is
    written anew: the actions of the run are the read, the route rollup
    and that write, and the output folder is unchanged exactly when the
    route artifact it held was already this rollup, as it is in the
    state a completed run of the handler for the date left. *)
Theorem rerun_reuses_trip_stats d file w ts :
  output_folder E w !! (d, trip_stats) = Some ts ->
  exists w' r,
    handle_gtfs_date E d file w = (w', r)
    /\ net E w' = net E w
    /\ gtfs_folder E w' = gtfs_folder E w
    /\ filtered_folder E w' = filtered_folder E w
    /\ output_folder E w' !! (d, trip_stats) = Some ts
    /\ (forall k, k <> (d, route_stats) ->
                  output_folder E w' !! k = output_folder E w !! k)
    /\ (forall e,
          Stats.compute_route_stats_base_partridge (get_peak_indices E) ts
            (hms 7 0 0) (hms 19 0 0) = Raise e ->
          r = Raise e
          /\ journal E w'
             = journal E w ++ [ReadPickle d trip_stats; RouteRollup d]
          /\ output_folder E w' = output_folder E w)
    /\ (forall rs,
          Stats.compute_route_stats_base_partridge (get_peak_indices E) ts
            (hms 7 0 0) (hms 19 0 0) = Ok rs ->
          r = Ok false
          /\ journal E w'
             = journal E w ++ [ReadPickle d trip_stats; RouteRollup d;
                               ToPickle d route_stats]
          /\ output_folder E w'
             = <[(d, route_stats) := tag d rs]> (output_folder E w)
          /\ (output_folder E w' = output_folder E w
              <-> output_folder E w !! (d, route_stats) = Some (tag d rs)))
    /\ (forall w0 b,
          handle_gtfs_date E d file w0 = (w, Ok b) ->
          r = Ok false /\ output_folder E w' = output_folder E w).
Proof.
  intros Hts. rewrite (handle_gtfs_date_persisted d file w ts Hts).
  destruct (Stats.compute_route_stats_base_partridge (get_peak_indices E) ts
              (hms 7 0 0) (hms 19 0 0)) as [rs | e] eqn:Hrs.
  - eexists _, _. split; [reflexivity |].
    cbn [journal net gtfs_folder filtered_folder output_folder].
    do 3 (split; [reflexivity |]).
    split; [by rewrite lookup_insert_ne |].
    split; [intros k Hk; by rewrite lookup_insert_ne |].
    split; [done |].
    split.
    + intros rs' [= <-]. do 3 (split; [done |]). split.
      * intros Heq. rewrite <- Heq. apply lookup_insert_eq.
      * intros Hroute. by apply insert_id.
    + intros w0 b Hrun. split; [done |].
      destruct (handle_gtfs_date_completed d file w0 w b Hrun)
        as (ts' & rs' & Hts' & Hrs' & Hroute).
      rewrite Hts in Hts'. injection Hts' as <-.
      rewrite Hrs in Hrs'. injection Hrs' as <-.
      by apply insert_id.
  - eexists _, _. split; [reflexivity |]. unfold log.
    cbn [journal net gtfs_folder filtered_folder output_folder].
    do 3 (split; [reflexivity |]).
    split; [done |].
    split; [done |].
    split; [by intros e' [= <-] |].
    split; [done |].
    intros w0 b Hrun. exfalso.
    destruct (handle_gtfs_date_completed d file w0 w b Hrun)
      as (ts' & rs' & Hts' & Hrs' & Hroute).
    rewrite Hts in Hts'. injection Hts' as <-. congruence.
Qed.

End OrchestratorFacts.

Lemma rerun_reuses_trip_stats_witness :
  Orchestrator.output_folder example_env persisted_world
    !! (ymd 2024 1 1, trip_stats) = Some example_trip_stats
  /\ exists w',
       Orchestrator.handle_gtfs_date example_env (ymd 2024 1 1)
                                     (Zip (ymd 2024 1 1)) persisted_world
       = (w', Ok false)
       /\ Orchestrator.journal example_env w'
          = Orchestrator.journal example_env persisted_world
              ++ [Orchestrator.ReadPickle (ymd 2024 1 1) trip_stats;
                  Orchestrator.RouteRollup (ymd 2024 1 1);
                  Orchestrator.ToPickle (ymd 2024 1 1) route_stats]
       /\ Orchestrator.output_folder example_env w'
          = Orchestrator.output_folder example_env persisted_world.
Proof.
  assert (Orchestrator.output_folder example_env persisted_world
            !! (ymd 2024 1 1, trip_stats) = Some example_trip_stats) as Hts
    by (vm_compute; reflexivity).
  split; [exact Hts |].
  destruct (rerun_reuses_trip_stats example_env (ymd 2024 1 1)
              (Zip (ymd 2024 1 1)) persisted_world example_trip_stats Hts)
    as (w' & r & Hrun & _ & _ & _ & _ & _ & _ & Hok & Hagain).
  destruct (Hagain fresh_world true) as [-> Hout]; [vm_compute; reflexivity |].
  destruct (Hok example_route_stats) as (_ & Hj & _); [vm_compute; reflexivity |].
  exists w'. by split_and!.
Defined.

(** C1 as the specification has it does not hold: with the trip
    artifact of 2024-01-01 persisted and no route artifact (the state
    in which the scheduler hands the date to the handler again), the
    re-run computes the route rollup and writes the route artifact, so
    the output folder changes; with a route artifact persisted that is
    not the rollup of the persisted trip artifact, the re-run replaces
    it; and in the state a completed run left, the re-run still
    computes the route rollup and rewrites the route artifact. *)
Theorem rerun_recomputes_route_stats :
  (exists w',
     Orchestrator.output_folder example_env trip_only_world
       !! (ymd 2024 1 1, trip_stats) = Some example_trip_stats
     /\ Orchestrator.output_folder example_env trip_only_world
          !! (ymd 2024 1 1, route_stats) = None
     /\ Orchestrator.handle_gtfs_date example_env (ymd 2024 1 1)
          (Zip (ymd 2024 1 1)) trip_only_world = (w', Ok false)
     /\ Orchestrator.journal example_env w'
        = [Orchestrator.ReadPickle (ymd 2024 1 1) trip_stats;
           Orchestrator.RouteRollup (ymd 2024 1 1);
           Orchestrator.ToPickle (ymd 2024 1 1) route_stats]
     /\ Orchestrator.output_folder example_env w'
          !! (ymd 2024 1 1, route_stats)
        = Some (Orchestrator.tag (ymd 2024 1 1) example_route_stats)
     /\ Orchestrator.output_folder example_env w'
        <> Orchestrator.output_folder example_env trip_only_world)
  /\ (exists w',
        Orchestrator.output_folder example_env stale_route_world
          !! (ymd 2024 1 1, trip_stats) = Some example_trip_stats
        /\ Orchestrator.output_folder example_env stale_route_world
             !! (ymd 2024 1 1, route_stats) = Some Stats.empty_trip_stats
        /\ Orchestrator.handle_gtfs_date example_env (ymd 2024 1 1)
             (Zip (ymd 2024 1 1)) stale_route_world = (w', Ok false)
        /\ Orchestrator.output_folder example_env w'
             !! (ymd 2024 1 1, route_stats)
           = Some (Orchestrator.tag (ymd 2024 1 1) example_route_stats)
        /\ Orchestrator.tag (ymd 2024 1 1) example_route_stats
           <> Stats.empty_trip_stats)
  /\ (exists w',
        Orchestrator.handle_gtfs_date example_env (ymd 2024 1 1)
          (Zip (ymd 2024 1 1)) persisted_world = (w', Ok false)
        /\ Orchestrator.journal example_env w'
           = Orchestrator.journal example_env persisted_world
               ++ [Orchestrator.ReadPickle (ymd 2024 1 1) trip_stats;
                   Orchestrator.RouteRollup (ymd 2024 1 1);
                   Orchestrator.ToPickle (ymd 2024 1 1) route_stats]).
Proof.
  split; [| split].
  - eexists. split; [vm_compute; reflexivity |].
    split; [vm_compute; reflexivity |].
    split; [vm_compute; reflexivity |].
    split; [vm_compute; reflexivity |].
    split; [vm_compute; reflexivity |].
    intros Heq.
    apply (f_equal (fun m => m !! (ymd 2024 1 1, route_stats))) in Heq.
    vm_compute in Heq. discriminate Heq.
  - eexists. split; [vm_compute; reflexivity |].
    split; [vm_compute; reflexivity |].
    split; [vm_compute; reflexivity |].
    split; [vm_compute; reflexivity |].
    intros Heq. apply (f_equal Frame.nrows) in Heq.
    vm_compute in Heq. discriminate Heq.
  - eexists. split; vm_compute; reflexivity.
Qed.

(** C9 on a snapshot with two scheduled dates, deletion enabled, nothing
    in the local folder: the snapshot is downloaded for the first date
    and found locally for the second, whose [downloaded = False]
    replaces the first answer, so the file is kept.  With the first
    date alone the same snapshot is deleted. *)
Theorem downloaded_snapshot_kept_after_two_dates :
  (exists w,
     Orchestrator.handle_gtfs_file example_env (Zip (ymd 2024 1 1))
       [ymd 2024 1 1; ymd 2024 1 2] true fresh_world = (w, Ok tt)
     /\ Orchestrator.journal example_env w
        = [Orchestrator.Download (Zip (ymd 2024 1 1)) Retry.Invoke;
           Orchestrator.Windowing (Zip (ymd 2024 1 1)) (ymd 2024 1 1);
           Orchestrator.TripRollup (ymd 2024 1 1);
           Orchestrator.ToPickle (ymd 2024 1 1) trip_stats;
           Orchestrator.RouteRollup (ymd 2024 1 1);
           Orchestrator.ToPickle (ymd 2024 1 1) route_stats;
           Orchestrator.Windowing (Zip (ymd 2024 1 1)) (ymd 2024 1 2);
           Orchestrator.TripRollup (ymd 2024 1 2);
           Orchestrator.ToPickle (ymd 2024 1 2) trip_stats;
           Orchestrator.RouteRollup (ymd 2024 1 2);
           Orchestrator.ToPickle (ymd 2024 1 2) route_stats]
     /\ Orchestrator.gtfs_folder example_env w !! Zip (ymd 2024 1 1)
        = Some example_feed)
  /\ (exists w,
        Orchestrator.handle_gtfs_file example_env (Zip (ymd 2024 1 1))
          [ymd 2024 1 1] true fresh_world = (w, Ok tt)
        /\ Orchestrator.journal example_env w
           = [Orchestrator.Download (Zip (ymd 2024 1 1)) Retry.Invoke;
              Orchestrator.Windowing (Zip (ymd 2024 1 1)) (ymd 2024 1 1);
              Orchestrator.TripRollup (ymd 2024 1 1);
              Orchestrator.ToPickle (ymd 2024 1 1) trip_stats;
              Orchestrator.RouteRollup (ymd 2024 1 1);
              Orchestrator.ToPickle (ymd 2024 1 1) route_stats;
              Orchestrator.Remove (Zip (ymd 2024 1 1))]
        /\ Orchestrator.gtfs_folder example_env w !! Zip (ymd 2024 1 1)
           = None).
Proof.
  split.
  - eexists. split; [vm_compute; reflexivity |].
    split; vm_compute; reflexivity.
  - eexists. split; [vm_compute; reflexivity |].
    split; vm_compute; reflexivity.
Qed.

(** * Further properties of the code *)

(** ** Retry executor: bounds and a report that cannot be called *)

Section RetryBounds.
Context {S Args A : Type}.
Variable delays : list N.
Variable exception : exn -> bool.
Variable func : Args -> gmap string pyval -> S -> S * result A.

Lemma loop_bounded report args kwargs (ds : list N) :
  forall problems s,
    let '(_, tr, r) :=
      Retry.loop exception func report args kwargs
                 ((Some <$> ds) ++ [None]) problems s in
    sleeps tr `prefix_of` ds
    /\ invokes tr = Datatypes.S (length (sleeps tr))
    /\ r <> Ok None.
Proof.
  induction ds as [| d ds IH]; intros problems s.
  - cbn [fmap list_fmap app Retry.loop].
    destruct (func args kwargs s) as [s1 [a | e]].
    + repeat split; [by exists [] | done].
    + destruct (exception e).
      * destruct report; simpl; repeat split; by try exists [].
      * repeat split; [by exists [] | done].
  - rewrite fmap_cons, <- app_comm_cons. cbn [Retry.loop].
    destruct (func args kwargs s) as [s1 [a | e]].
    + repeat split; [by exists (d :: ds) | done].
    + destruct (exception e).
      * destruct report as [name | str |]; cbn [Retry.call_report].
        -- specialize (IH (problems ++ [e]) s1).
           destruct (Retry.loop exception func (PyCallable name) args kwargs
                       ((Some <$> ds) ++ [None]) (problems ++ [e]) s1)
             as [[s2 tr2] r2].
           destruct IH as (Hpre & Hinv & Hr).
           split; [| split; [| done]].
           ++ cbn. by apply prefix_cons.
           ++ unfold invokes in *. cbn. by rewrite Hinv.
        -- repeat split; [by exists (d :: ds) | done].
        -- repeat split; [by exists (d :: ds) | done].
      * repeat split; [by exists (d :: ds) | done].
Qed.

(** X1.  Whatever the operation does, a call of the wrapper makes at
    most one attempt more than there are delays, sleeps on a prefix of
    the delay sequence, in order, once between two attempts, and never
    ends by falling off the loop with [None]. *)
Theorem retry_bounded args kwargs s :
  let '(_, tr, r) := Retry.wrapped delays exception func args kwargs s in
  sleeps tr `prefix_of` delays
  /\ (invokes tr <= Datatypes.S (length delays))%nat
  /\ (is_Some (kwargs !! "report") ->
      invokes tr = Datatypes.S (length (sleeps tr)))
  /\ r <> Ok None.
Proof.
  unfold Retry.wrapped. destruct (kwargs !! "report") as [report |] eqn:Hrep.
  - pose proof (loop_bounded report args kwargs delays [] s) as H.
    unfold Retry.chain_delays.
    destruct (Retry.loop exception func report args kwargs
                ((Some <$> delays) ++ [None]) [] s) as [[s' tr] r].
    destruct H as (Hpre & Hinv & Hr).
    split; [done |]. split; [| split; [done | done]].
    rewrite Hinv. apply prefix_length in Hpre. lia.
  - split; [by exists delays |]. split; [unfold invokes; simpl; lia |].
    split; [| done]. intros [? ?]. done.
Qed.

(** X2.  When [report] is passed but is not callable, the first
    retryable failure of the operation is not retried: the call ends
    after that one attempt with the [TypeError] of calling [report],
    and the operation's own exception is lost. *)
Theorem report_not_callable args kwargs report s s1 e :
  kwargs !! "report" = Some report ->
  (forall name, report <> PyCallable name) ->
  func args kwargs s = (s1, Raise e) ->
  exception e = true ->
  Retry.wrapped delays exception func args kwargs s
  = (s1, [Retry.Invoke], Raise (Exn TypeError "object is not callable")).
Proof.
  intros Hrep Hnc Hf He. unfold Retry.wrapped, Retry.chain_delays.
  rewrite Hrep.
  destruct delays as [| d ds]; cbn [fmap list_fmap app Retry.loop];
    rewrite Hf, He;
    destruct report as [name | str |]; try done; by destruct (Hnc name).
Qed.

End RetryBounds.

Lemma report_not_callable_witness :
  Retry.wrapped Retry.default_delays is_Exception flaky []
                {["report" := PyStr "print"]} 0%nat
  = (1%nat, [Retry.Invoke], Raise (Exn TypeError "object is not callable")).
Proof.
  apply (report_not_callable Retry.default_delays is_Exception flaky []
           {["report" := PyStr "print"]} (PyStr "print") 0%nat 1%nat
           (Exn ClientError "timeout")).
  - vm_compute. reflexivity.
  - intros name. discriminate.
  - reflexivity.
  - reflexivity.
Defined.

(** ** Fetching a snapshot: [get_gtfs_file] and [s3_download] *)

Section FetchFacts.
Import Orchestrator.
Variable E : Externals.

Abbreviation logger_error := ({["report" := PyCallable "logger.error"]}
                               : gmap string pyval).

Abbreviation fetched_only := (Orchestrator.fetched_only E).

Lemma fetched_only_refl file w : fetched_only file w w.
Proof. by repeat split. Qed.

Lemma fetched_only_trans file w1 w2 w3 :
  fetched_only file w1 w2 -> fetched_only file w2 w3 -> fetched_only file w1 w3.
Proof.
  intros (Ho & Hf & Hj & Hg) (Ho' & Hf' & Hj' & Hg').
  repeat split; try congruence.
  intros f Hne. by rewrite Hg', Hg.
Qed.

Lemma s3_download_body_fetched file kwargs w w' r :
  s3_download_body E file kwargs w = (w', r) -> fetched_only file w w'.
Proof.
  unfold s3_download_body.
  destruct (download_file E file (net E w)) as [n [z | e]];
    intros [= <- _]; repeat split; simpl; try done.
  intros f Hne. by rewrite lookup_insert_ne.
Qed.

Lemma s3_download_body_Ok file kwargs w w' :
  s3_download_body E file kwargs w = (w', Ok tt) ->
  is_Some (gtfs_folder E w' !! file).
Proof.
  unfold s3_download_body.
  destruct (download_file E file (net E w)) as [n [z | e]]; [| done].
  intros [= <-]. simpl. rewrite lookup_insert_eq. by eexists.
Qed.

(** A failed attempt leaves the local folder as it was. *)
Lemma s3_download_body_Raise file kwargs w w' e :
  s3_download_body E file kwargs w = (w', Raise e) ->
  gtfs_folder E w' = gtfs_folder E w.
Proof.
  unfold s3_download_body.
  destruct (download_file E file (net E w)) as [n [z | e']]; [done |].
  by intros [= <- _].
Qed.

(** The retry loop keeps what every attempt keeps. *)
Lemma loop_preserves {S Args A} (exception : exn -> bool)
    (func : Args -> gmap string pyval -> S -> S * result A)
    (P : S -> S -> Prop) report args kwargs :
  (forall s, P s s) ->
  (forall s1 s2 s3, P s1 s2 -> P s2 s3 -> P s1 s3) ->
  (forall s s1 r, func args kwargs s = (s1, r) -> P s s1) ->
  forall ds problems s s' tr r,
    Retry.loop exception func report args kwargs ds problems s = (s', tr, r) ->
    P s s'.
Proof.
  intros Hrefl Htrans Hfunc. induction ds as [| d ds IH];
    intros problems s s' tr r; cbn [Retry.loop].
  - intros [= <- _ _]. apply Hrefl.
  - destruct (func args kwargs s) as [s1 [a | e]] eqn:Hf.
    + intros [= <- _ _]. by eapply Hfunc.
    + pose proof (Hfunc _ _ _ Hf) as Hstep.
      destruct (exception e); [| by intros [= <- _ _]].
      destruct d as [d |].
      * destruct (Retry.call_report report (Retry.Failed e d)) as [tr1 [[] | e1]];
          [| by intros [= <- _ _]].
        destruct (Retry.loop exception func report args kwargs ds
                    (problems ++ [e]) s1) as [[s2 tr2] r2] eqn:Hloop.
        intros [= <- _ _]. eapply Htrans; [exact Hstep |]. by eapply IH.
      * destruct (Retry.call_report report (Retry.FailedDefinitely _))
          as [tr1 [[] | e1]]; by intros [= <- _ _].
Qed.

(** A call that returns ended with a successful attempt. *)
Lemma loop_Ok {S Args A} (exception : exn -> bool)
    (func : Args -> gmap string pyval -> S -> S * result A)
    report args kwargs :
  forall ds problems s s' tr a,
    Retry.loop exception func report args kwargs ds problems s
    = (s', tr, Ok (Some a)) ->
    exists s0, func args kwargs s0 = (s', Ok a) /\ Retry.Invoke ∈ tr.
Proof.
  induction ds as [| d ds IH]; intros problems s s' tr a; cbn [Retry.loop].
  - done.
  - destruct (func args kwargs s) as [s1 [a1 | e]] eqn:Hf.
    + intros [= <- <- <-]. exists s. split; [done | by left].
    + destruct (exception e); [| done].
      destruct d as [d |].
      * destruct (Retry.call_report report (Retry.Failed e d)) as [tr1 [[] | e1]];
          [| done].
        destruct (Retry.loop exception func report args kwargs ds
                    (problems ++ [e]) s1) as [[s2 tr2] r2] eqn:Hloop.
        intros [= <- <- ->].
        destruct (IH _ _ _ _ _ Hloop) as (s0 & Hs0 & _).
        exists s0. split; [done | by left].
      * by destruct (Retry.call_report report (Retry.FailedDefinitely _))
          as [tr1 [[] | e1]].
Qed.

(** X4.  When [get_gtfs_file] returns, the snapshot is in the local
    folder.  It returns [False] exactly when nothing was done: the
    world is unchanged.  It returns [True] after a download attempt
    that succeeded; the output folder, the other local files and the
    other journal entries are as before. *)
Theorem get_gtfs_file_returns file force w w' b :
  get_gtfs_file E file force w = (w', Ok b) ->
  is_Some (gtfs_folder E w' !! file)
  /\ (b = false -> w' = w /\ force = false)
  /\ (b = true ->
      exists tr, journal E w' = journal E w ++ (Download file <$> tr)
                 /\ Retry.Invoke ∈ tr)
  /\ output_folder E w' = output_folder E w
  /\ filtered_folder E w' = filtered_folder E w
  /\ (forall f, f <> file -> gtfs_folder E w' !! f = gtfs_folder E w !! f).
Proof.
  unfold get_gtfs_file.
  destruct (negb force && bool_decide (is_Some (gtfs_folder E w !! file)))
    eqn:Hhit.
  - intros [= <- <-]. apply andb_true_iff in Hhit as [Hforce Hsome].
    apply bool_decide_eq_true in Hsome. apply negb_true_iff in Hforce.
    repeat split; try done.
  - unfold bind, s3_download, Retry.wrapped, ret.
    rewrite lookup_singleton_eq.
    destruct (Retry.loop is_Exception (s3_download_body E)
                (PyCallable "logger.error") file logger_error
                (Retry.chain_delays Retry.default_delays) [] w)
      as [[w1 tr] r] eqn:Hloop.
    pose proof (loop_bounded is_Exception (s3_download_body E)
                  (PyCallable "logger.error") file logger_error
                  Retry.default_delays [] w) as Hbounded.
    unfold Retry.chain_delays in Hloop. rewrite Hloop in Hbounded.
    destruct r as [[[] |] | e]; [| by destruct Hbounded as (_ & _ & ?) | done].
    intros [= <- <-].
    destruct (loop_Ok _ _ _ _ _ _ _ _ _ _ _ Hloop) as (w0 & Hbody & Hinv).
    pose proof (loop_preserves is_Exception (s3_download_body E)
                    (fetched_only file) (PyCallable "logger.error") file
                    logger_error (fetched_only_refl file)
                    (fetched_only_trans file)
                    (s3_download_body_fetched file logger_error)
                    _ _ _ _ _ _ Hloop) as (Ho & Hf & Hj & Hg).
      split; [by apply (s3_download_body_Ok _ _ _ _ Hbody) |].
      split; [done |].
      split; [intros _; exists tr; by rewrite <- Hj |].
      by repeat split.
Qed.

End FetchFacts.

Section FetchFailure.
Import Orchestrator.
Variable E : Externals.

(** Attempts that all fail leave a run of failures of any length, and
    only the bucket changes. *)
Lemma body_fail_run (file : fname) (kwargs : gmap string pyval) :
  (forall n, exists n' e, download_file E file n = (n', Raise e)
                          /\ is_Exception e = true) ->
  forall (k : nat) (w : World E),
    exists es w',
      Retry.fail_run is_Exception (s3_download_body E) file kwargs w es w'
      /\ length es = k
      /\ gtfs_folder E w' = gtfs_folder E w
      /\ filtered_folder E w' = filtered_folder E w
      /\ output_folder E w' = output_folder E w
      /\ journal E w' = journal E w.
Proof.
  intros Hfail. induction k as [| k IH]; intros w.
  - exists [], w. repeat split. constructor.
  - destruct (Hfail (net E w)) as (n' & e & Hd & He).
    set (w1 := {| net := n'; gtfs_folder := gtfs_folder E w;
                  filtered_folder := filtered_folder E w;
                  output_folder := output_folder E w;
                  journal := journal E w |}).
    destruct (IH w1) as (es & w' & Hrun & Hlen & Hg & Hf & Ho & Hj).
    exists (e :: es), w'. split; [| by rewrite <- Hlen].
    eapply Retry.fail_run_cons; [| exact He | exact Hrun].
    unfold s3_download_body. by rewrite Hd.
Qed.

(** X3.  When every download attempt of a key fails with an
    [Exception], fetching it (forced, or not in the local folder) makes
    eight attempts, sleeps 0, 1, 5, 30, 180, 600 and 3600 seconds
    between them, 4416 seconds in all, and raises; the local folder and
    the output folder are as before. *)
Theorem get_gtfs_file_gives_up file force w :
  (forall n, exists n' e, download_file E file n = (n', Raise e)
                          /\ is_Exception e = true) ->
  force = true \/ gtfs_folder E w !! file = None ->
  exists w' e tr,
    get_gtfs_file E file force w = (w', Raise e)
    /\ journal E w' = journal E w ++ (Download file <$> tr)
    /\ invokes tr = 8%nat
    /\ sleeps tr = Retry.default_delays
    /\ total_sleep tr = 4416%N
    /\ gtfs_folder E w' = gtfs_folder E w
    /\ output_folder E w' = output_folder E w.
Proof.
  intros Hfail Hneed.
  set (kwargs := ({["report" := PyCallable "logger.error"]}
                   : gmap string pyval)).
  destruct (body_fail_run file kwargs Hfail 7 w)
    as (es & w1 & Hrun & Hlen & Hg & Hf & Ho & Hj).
  destruct (Hfail (net E w1)) as (n' & e & Hd & He).
  assert (negb force && bool_decide (is_Some (gtfs_folder E w !! file)) = false)
    as Hmiss.
  { destruct Hneed as [-> | Hnone]; [done |].
    rewrite Hnone. rewrite bool_decide_eq_false_2; [by destruct force |].
    by intros [? ?]. }
  unfold get_gtfs_file. rewrite Hmiss. unfold bind, s3_download. fold kwargs.
  rewrite (wrapped_fail_run Retry.default_delays is_Exception
             (s3_download_body E) "logger.error" file kwargs w es w1);
    [| by apply lookup_singleton_eq | exact Hrun | rewrite Hlen; simpl; lia].
  rewrite Hlen. cbn [drop Retry.default_delays fmap list_fmap app Retry.loop].
  unfold s3_download_body at 1. rewrite Hd, He. cbn [Retry.call_report].
  eexists _, e, _. split; [reflexivity |]. cbn [journal gtfs_folder output_folder].
  do 8 (destruct es as [| ? es]; try discriminate).
  split; [by rewrite Hj |].
  repeat split; try done.
Qed.

End FetchFailure.

Lemma get_gtfs_file_gives_up_witness :
  let w := Orchestrator.Build_World unreachable_env 0%nat ∅ ∅ ∅ [] in
  exists w' e tr,
    Orchestrator.get_gtfs_file unreachable_env NaT_zip false w = (w', Raise e)
    /\ Orchestrator.journal unreachable_env w'
       = Orchestrator.journal unreachable_env w
           ++ (Orchestrator.Download NaT_zip <$> tr)
    /\ invokes tr = 8%nat
    /\ sleeps tr = Retry.default_delays
    /\ total_sleep tr = 4416%N
    /\ Orchestrator.gtfs_folder unreachable_env w'
       = Orchestrator.gtfs_folder unreachable_env w
    /\ Orchestrator.output_folder unreachable_env w'
       = Orchestrator.output_folder unreachable_env w.
Proof.
  intros w. apply (get_gtfs_file_gives_up unreachable_env NaT_zip false w).
  - intros n. exists (Datatypes.S n), (Exn ClientError "404"). by split.
  - right. reflexivity.
Defined.

(** ** What the handlers leave alone *)

Section FrameFacts.
Import Orchestrator.
Variable E : Externals.

Lemma bind_inv {A B} (m : M E A) (k : A -> M E B) w w' r :
  bind E m k w = (w', r) ->
  (exists w1 a, m w = (w1, Ok a) /\ k a w1 = (w', r))
  \/ (exists e, m w = (w', Raise e) /\ r = Raise e).
Proof.
  unfold bind. destruct (m w) as [w1 [a | e]].
  - intros H. left. by exists w1, a.
  - intros [= <- <-]. right. by exists e.
Qed.

Lemma fetch_frame_refl d file w : fetch_frame E d file w w.
Proof. by repeat split. Qed.

Lemma fetch_frame_trans d file w1 w2 w3 :
  fetch_frame E d file w1 w2 -> fetch_frame E d file w2 w3 ->
  fetch_frame E d file w1 w3.
Proof.
  intros (Ho & Hg & Hk & Hf & Hj) (Ho' & Hg' & Hk' & Hf' & Hj').
  split; [congruence |].
  split; [intros f Hne; by rewrite Hg', Hg |].
  split; [auto |].
  split; [intros d' Hne; by rewrite Hf', Hf |].
  by etransitivity.
Qed.

Lemma date_frame_refl d file w : date_frame E d file w w.
Proof. by repeat split. Qed.

Lemma date_frame_trans d file w1 w2 w3 :
  date_frame E d file w1 w2 -> date_frame E d file w2 w3 ->
  date_frame E d file w1 w3.
Proof.
  intros (Ho & Ht & Hs & Hg & Hk & Hf & Hj) (Ho' & Ht' & Hs' & Hg' & Hk' & Hf' & Hj').
  split; [intros d' k Hne; by rewrite Ho', Ho |].
  split; [auto |].
  split; [auto |].
  split; [intros f Hne; by rewrite Hg', Hg |].
  split; [auto |].
  split; [intros d' Hne; by rewrite Hf', Hf |].
  by etransitivity.
Qed.

Lemma fetch_frame_date_frame d file w w' :
  fetch_frame E d file w w' -> date_frame E d file w w'.
Proof.
  intros (Ho & Hg & Hk & Hf & Hj). unfold date_frame. rewrite Ho.
  by repeat split.
Qed.

(** One download attempt. *)
Lemma s3_download_body_frame d file kwargs w w' r :
  s3_download_body E file kwargs w = (w', r) -> fetch_frame E d file w w'.
Proof.
  unfold s3_download_body.
  destruct (download_file E file (net E w)) as [n [z | e]];
    intros [= <- _]; repeat split; simpl; try done.
  - intros f Hne. by rewrite lookup_insert_ne.
  - intros _. rewrite lookup_insert_eq. by eexists.
Qed.

Lemma log_frame d file acts w : fetch_frame E d file w (log E acts w).
Proof. repeat split; simpl; try done. by apply prefix_app_r. Qed.

Lemma get_gtfs_file_frame d file force w w' r :
  get_gtfs_file E file force w = (w', r) -> fetch_frame E d file w w'.
Proof.
  unfold get_gtfs_file.
  destruct (negb force && bool_decide (is_Some (gtfs_folder E w !! file))).
  - intros [= <- _]. apply fetch_frame_refl.
  - unfold bind, s3_download, Retry.wrapped, ret.
    rewrite lookup_singleton_eq.
    destruct (Retry.loop is_Exception (s3_download_body E)
                (PyCallable "logger.error") file
                {["report" := PyCallable "logger.error"]}
                (Retry.chain_delays Retry.default_delays) [] w)
      as [[w1 tr] r1] eqn:Hloop.
    pose proof (loop_preserves is_Exception (s3_download_body E)
                  (fetch_frame E d file) (PyCallable "logger.error") file
                  {["report" := PyCallable "logger.error"]}
                  (fetch_frame_refl d file) (fetch_frame_trans d file)
                  (s3_download_body_frame d file _)
                  _ _ _ _ _ _ Hloop) as Hframe.
    assert (fetch_frame E d file w (log E (Download file <$> tr) w1)) as H.
    { eapply fetch_frame_trans; [exact Hframe | apply log_frame]. }
    destruct r1 as [a | e]; by intros [= <- _].
Qed.

Lemma read_local_frame {A} file (f : ZipFile E -> result A) w w' r :
  read_local E file f w = (w', r) -> w' = w.
Proof.
  unfold read_local. destruct (gtfs_folder E w !! file); by intros [= <- _].
Qed.

Lemma windowed_frame d file w w' r :
  windowed E file d w = (w', r) -> fetch_frame E d file w w'.
Proof.
  unfold windowed, bind, act. intros H.
  destruct (read_local E file _ (log E [Windowing file d] w))
    as [w1 r1] eqn:Hread.
  apply read_local_frame in Hread as ->.
  destruct r1; injection H as <- _; apply log_frame.
Qed.

Lemma windowed_or_refetched_frame d file downloaded w w' r :
  windowed_or_refetched E file d downloaded w = (w', r) ->
  fetch_frame E d file w w'.
Proof.
  unfold windowed_or_refetched.
  destruct (windowed E file d w) as [w1 [feed | e]] eqn:Hw;
    apply windowed_frame in Hw.
  - by intros [= <- _].
  - destruct (decide (exn_cls e = BadZipFile)); [| by intros [= <- _]].
    intros H. eapply fetch_frame_trans; [exact Hw |].
    apply bind_inv in H as [(w2 & b & Hget & H) | (e2 & Hget & _)];
      apply get_gtfs_file_frame with (d := d) in Hget; [| done].
    eapply fetch_frame_trans; [exact Hget |].
    apply bind_inv in H as [(w3 & feed & Hw3 & H) | (e3 & Hw3 & _)];
      apply windowed_frame in Hw3; [| done].
    by injection H as <- _.
Qed.

Lemma filtered_frame d file downloaded w w' r :
  filtered E file d downloaded w = (w', r) -> fetch_frame E d file w w'.
Proof.
  unfold filtered, bind at 1, act. intros H.
  apply bind_inv in H as [(w2 & z & Hread & H) | (e & Hread & _)];
    apply read_local_frame in Hread as ->; [| apply log_frame].
  injection H as <- _. repeat split; simpl; try done.
  - intros d' Hne. by rewrite lookup_insert_ne.
  - by apply prefix_app_r.
Qed.

Lemma to_pickle_frame d file k df w w' r :
  (k = trip_stats -> output_folder E w !! (d, trip_stats) = None) ->
  to_pickle E d k df w = (w', r) -> date_frame E d file w w'.
Proof.
  intros Hfree [= <- _]. repeat split; simpl; try done.
  - intros d' k' Hne. rewrite lookup_insert_ne; [done |]. congruence.
  - intros ts Hts. destruct k.
    + rewrite Hfree in Hts; done.
    + by rewrite lookup_insert_ne.
  - intros k' Hk'. destruct (decide ((d, k) = k')) as [<- | Hne].
    + rewrite lookup_insert_eq. by eexists.
    + by rewrite lookup_insert_ne.
  - by apply prefix_app_r.
Qed.

Lemma trip_stats_for_frame d file w w' r :
  trip_stats_for E d file w = (w', r) -> date_frame E d file w w'.
Proof.
  unfold trip_stats_for.
  destruct (output_folder E w !! (d, trip_stats)) as [ts |] eqn:Hts.
  - intros [= <- _]. apply fetch_frame_date_frame, log_frame.
  - intros H.
    assert (forall w1, fetch_frame E d file w w1 ->
                       output_folder E w1 !! (d, trip_stats) = None) as Hfree.
    { intros w1 (Ho & _). by rewrite Ho. }
    apply bind_inv in H as [(w1 & b & H1 & H) | (e & H1 & _)];
      apply get_gtfs_file_frame with (d := d) in H1;
      [| by apply fetch_frame_date_frame].
    assert (exists w2,
              fetch_frame E d file w w2
              /\ ((exists df, bind E (act E (TripRollup d)) (fun _ =>
                     bind E (lift E (Stats.compute_trip_stats_partridge
                                       (Point E) (distance E)
                                       (build_geometry_by_stop E) df.2
                                       (get_zones_df E))) (fun ts =>
                     bind E (to_pickle E d trip_stats (tag d ts)) (fun _ =>
                       ret E (df.1, tag d ts)))) w2 = (w', r))
                  \/ w2 = w')) as (w2 & Hw2 & [(df & H') | ->]).
    { apply bind_inv in H as [(w2 & df & H2 & H) | (e & H2 & _)].
      - exists w2. split; [| left; by exists df].
        eapply fetch_frame_trans; [exact H1 |].
        destruct (WRITE_FILTERED_FEED E);
          [by eapply filtered_frame | by eapply windowed_or_refetched_frame].
      - exists w'. split; [| by right].
        eapply fetch_frame_trans; [exact H1 |].
        destruct (WRITE_FILTERED_FEED E);
          [by eapply filtered_frame | by eapply windowed_or_refetched_frame]. }
    2:{ by apply fetch_frame_date_frame. }
    unfold bind at 1, act in H'.
    assert (fetch_frame E d file w (log E [TripRollup d] w2)) as Hw3.
    { eapply fetch_frame_trans; [exact Hw2 | apply log_frame]. }
    unfold bind at 1, lift in H'.
    destruct (Stats.compute_trip_stats_partridge _ _ _ _ _) as [ts | e].
    + apply bind_inv in H' as [(w4 & [] & Hp & H') | (e & Hp & _)].
      * injection H' as <- _.
        eapply date_frame_trans; [by apply fetch_frame_date_frame |].
        eapply to_pickle_frame; [| exact Hp]. intros _. by apply Hfree.
      * eapply date_frame_trans; [by apply fetch_frame_date_frame |].
        eapply to_pickle_frame; [| exact Hp]. intros _. by apply Hfree.
    + injection H' as <- _. by apply fetch_frame_date_frame.
Qed.

(** X5.  Whether it returns or raises, the handler of a date changes
    no output file of another date, removes no output file, leaves a
    trip artifact that exists as it is, changes no local snapshot other
    than its own, which it does not remove, and only adds to the
    journal. *)
Theorem handle_gtfs_date_frame d file w w' r :
  handle_gtfs_date E d file w = (w', r) ->
  (forall d' k, d' <> d ->
                output_folder E w' !! (d', k) = output_folder E w !! (d', k))
  /\ (forall ts, output_folder E w !! (d, trip_stats) = Some ts ->
                 output_folder E w' !! (d, trip_stats) = Some ts)
  /\ (forall k, is_Some (output_folder E w !! k) ->
                is_Some (output_folder E w' !! k))
  /\ (forall f, f <> file -> gtfs_folder E w' !! f = gtfs_folder E w !! f)
  /\ (is_Some (gtfs_folder E w !! file) -> is_Some (gtfs_folder E w' !! file))
  /\ (forall d', d' <> d ->
                 filtered_folder E w' !! d' = filtered_folder E w !! d')
  /\ journal E w `prefix_of` journal E w'.
Proof.
  change (handle_gtfs_date E d file w = (w', r) -> date_frame E d file w w').
  unfold handle_gtfs_date. intros H.
  apply bind_inv in H as [(w1 & dts & H1 & H) | (e & H1 & _)];
    apply trip_stats_for_frame in H1; [| done].
  eapply date_frame_trans; [exact H1 |].
  unfold bind at 1, act in H.
  eapply date_frame_trans; [apply fetch_frame_date_frame, log_frame |].
  unfold bind at 1, lift in H.
  destruct (Stats.compute_route_stats_base_partridge _ _ _ _) as [rs | e];
    [| injection H as <- _; apply date_frame_refl].
  apply bind_inv in H as [(w4 & [] & Hp & H) | (e & Hp & _)].
  - injection H as <- _. eapply to_pickle_frame; [| exact Hp]. done.
  - eapply to_pickle_frame; [| exact Hp]. done.
Qed.

End FrameFacts.

Lemma handle_gtfs_date_frame_witness :
  Orchestrator.date_frame example_env (ymd 2024 1 1) (Zip (ymd 2024 1 1))
                          fresh_world persisted_world.
Proof.
  apply (handle_gtfs_date_frame example_env (ymd 2024 1 1) (Zip (ymd 2024 1 1))
           fresh_world persisted_world (Ok true)).
  vm_compute. reflexivity.
Defined.

Section FileFacts.
Import Orchestrator.
Variable E : Externals.

Lemma download_events_app a b :
  download_events (a ++ b) = download_events a ++ download_events b.
Proof. unfold download_events. apply omap_app. Qed.

Lemma download_events_Download file tr :
  download_events (Download file <$> tr) = tr.
Proof.
  induction tr as [| ev tr IH]; [done |].
  rewrite fmap_cons. unfold download_events in *. cbn. by rewrite IH.
Qed.

Lemma windowed_journal d file w w' r :
  windowed E file d w = (w', r) ->
  journal E w' = journal E w ++ [Windowing file d].
Proof.
  unfold windowed, bind, act. intros H.
  destruct (read_local E file _ (log E [Windowing file d] w))
    as [w1 r1] eqn:Hread.
  apply read_local_frame in Hread as ->.
  by destruct r1; injection H as <- _.
Qed.

(** The flag and the journal of the fetch-and-read step. *)
Lemma windowed_or_refetched_flag d file downloaded w w' b feed :
  windowed_or_refetched E file d downloaded w = (w', Ok (b, feed)) ->
  exists acts,
    journal E w' = journal E w ++ acts
    /\ ((b = downloaded /\ download_events acts = [])
        \/ (b = true /\ Retry.Invoke ∈ download_events acts)).
Proof.
  unfold windowed_or_refetched.
  destruct (windowed E file d w) as [w1 [feed1 | e]] eqn:Hw;
    apply windowed_journal in Hw.
  - intros [= <- <- _]. exists [Windowing file d]. split; [done |]. by left.
  - destruct (decide (exn_cls e = BadZipFile)); [| done].
    intros H. apply bind_Ok in H as (w2 & b2 & Hget & H).
    apply bind_Ok in H as (w3 & feed3 & Hw3 & H).
    injection H as <- <- _. apply windowed_journal in Hw3.
    apply get_gtfs_file_returns in Hget as (_ & Hfalse & Htrue & _).
    destruct b2.
    + destruct (Htrue eq_refl) as (tr & Hj & Hinv).
      exists ([Windowing file d] ++ (Download file <$> tr) ++ [Windowing file d]).
      split; [rewrite Hw3, Hj, Hw; by rewrite <- !app_assoc |].
      right. split; [done |].
      rewrite !download_events_app, download_events_Download.
      apply elem_of_app. right. apply elem_of_app. by left.
    + by destruct (Hfalse eq_refl) as [_ ?].
Qed.

Lemma filtered_flag d file downloaded w w' b feed :
  filtered E file d downloaded w = (w', Ok (b, feed)) ->
  b = downloaded /\ journal E w' = journal E w ++ [Filtering file d].
Proof.
  unfold filtered, bind at 1, act. intros H.
  apply bind_Ok in H as (w2 & z & Hread & H).
  apply read_local_frame in Hread as ->.
  destruct (ptg_feed E z); [| done]. by injection H as <- <- _.
Qed.

(** X6.  When the handler of a date returns, its answer is [True]
    exactly when an attempt to download a snapshot was made during the
    call, and [False] exactly when the call made no download attempt,
    reported no failure and slept on nothing. *)
Theorem handle_gtfs_date_flag d file w w' b :
  handle_gtfs_date E d file w = (w', Ok b) ->
  exists acts,
    journal E w' = journal E w ++ acts
    /\ (b = true <-> Retry.Invoke ∈ download_events acts)
    /\ (b = false <-> download_events acts = []).
Proof.
  unfold handle_gtfs_date. intros H.
  apply bind_Ok in H as (w1 & [b1 ts] & Hts & H).
  apply bind_Ok in H as (w2 & [] & Hact & H).
  apply bind_Ok in H as (w3 & rs & Hrs & H).
  apply bind_Ok in H as (w4 & [] & Hp & H).
  injection H as <- <-. injection Hact as <-.
  unfold lift in Hrs. injection Hrs as <- _. injection Hp as <-.
  cbn [journal log].
  assert (exists acts,
            journal E w1 = journal E w ++ acts
            /\ ((b1 = false /\ download_events acts = [])
                \/ (b1 = true /\ Retry.Invoke ∈ download_events acts)))
    as (acts & Hj & Hflag).
  { unfold trip_stats_for in Hts.
    destruct (output_folder E w !! (d, trip_stats)) as [ts0 |].
    - injection Hts as <- <- _. exists [ReadPickle d trip_stats].
      split; [done |]. by left.
    - apply bind_Ok in Hts as (v1 & b0 & Hget & Hts).
      apply bind_Ok in Hts as (v2 & [b2 feed] & Hread & Hts).
      apply bind_Ok in Hts as (v3 & [] & Hact & Hts).
      apply bind_Ok in Hts as (v4 & ts4 & Hc & Hts).
      apply bind_Ok in Hts as (v5 & [] & Hp & Hts).
      injection Hts as <- <- _. injection Hact as <-.
      unfold lift in Hc. injection Hc as <- _. injection Hp as <-.
      cbn [journal log fst].
      apply get_gtfs_file_returns in Hget as (_ & Hfalse & Htrue & _).
      assert (exists a0, journal E v1 = journal E w ++ a0
                /\ ((b0 = false /\ download_events a0 = [])
                    \/ (b0 = true /\ Retry.Invoke ∈ download_events a0)))
        as (a0 & Hj0 & H0).
      { destruct b0.
        - destruct (Htrue eq_refl) as (tr & Hj & Hinv).
          exists (Download file <$> tr). split; [done |]. right.
          by rewrite download_events_Download.
        - destruct (Hfalse eq_refl) as [-> _]. exists [].
          split; [by rewrite app_nil_r |]. by left. }
      assert (exists a1, journal E v2 = journal E v1 ++ a1
                /\ ((b2 = b0 /\ download_events a1 = [])
                    \/ (b2 = true /\ Retry.Invoke ∈ download_events a1)))
        as (a1 & Hj1 & H1).
      { destruct (WRITE_FILTERED_FEED E).
        - apply filtered_flag in Hread as [-> Hj1].
          exists [Filtering file d]. split; [done |]. by left.
        - by apply windowed_or_refetched_flag in Hread. }
      exists (a0 ++ a1 ++ [TripRollup d; ToPickle d trip_stats]).
      split.
      { rewrite Hj1, Hj0. rewrite <- !app_assoc. done. }
      rewrite !download_events_app. cbn [download_events omap list_omap].
      rewrite app_nil_r.
      destruct H1 as [[-> Ha1] | [-> Ha1]].
      + rewrite Ha1, app_nil_r. exact H0.
      + right. split; [done |]. apply elem_of_app. by right. }
  exists (acts ++ [RouteRollup d; ToPickle d route_stats]).
  split; [rewrite Hj; by rewrite <- !app_assoc |].
  rewrite download_events_app. cbn [download_events omap list_omap].
  rewrite app_nil_r.
  destruct Hflag as [[-> Hnil] | [-> Hin]].
  - rewrite Hnil. split; [| done]. split; [done |].
    intros Hin. by apply elem_of_nil in Hin.
  - split; [done |]. split; [done |]. intros Hnil.
    rewrite Hnil in Hin. by apply elem_of_nil in Hin.
Qed.

(** X7.  The file handler looks at the answer for the last date only:
    after the earlier dates, whatever they downloaded, the snapshot is
    removed exactly when deletion is enabled and the handler of the
    last date answers [True]. *)
Theorem handle_gtfs_file_last file ds d del w w1 b w2 b2 :
  handle_dates E file ds false w = (w1, Ok b) ->
  handle_gtfs_date E d file w1 = (w2, Ok b2) ->
  handle_gtfs_file E file (ds ++ [d]) del w
  = if del && b2 then os_remove E file w2 else (w2, Ok tt).
Proof.
  intros Hds Hd. unfold handle_gtfs_file, bind at 1.
  rewrite (handle_dates_last E file ds d false w). unfold bind at 1.
  rewrite Hds, Hd. by destruct (del && b2).
Qed.

Lemma handle_dates_frame file dates b w w' r :
  handle_dates E file dates b w = (w', r) ->
  file_frame E dates file w w'
  /\ (is_Some (gtfs_folder E w !! file) -> is_Some (gtfs_folder E w' !! file)).
Proof.
  revert b w. induction dates as [| d dates IH]; intros b w; simpl.
  - intros [= <- _]. by repeat split.
  - intros H.
    apply bind_inv in H as [(w1 & b1 & Hd & H) | (e & Hd & _)];
      apply handle_gtfs_date_frame in Hd
        as (Ho & Ht & Hs & Hg & Hk & _ & Hj).
    + apply IH in H as ((Ho' & Ht' & Hs' & Hg' & Hj') & Hk').
      split; [| auto]. split; [| split; [| split; [| split]]].
      * intros d' k Hd'. apply not_elem_of_cons in Hd' as [Hne Hnin].
        by rewrite Ho', Ho.
      * intros d0 ts Hts. apply Ht'.
        destruct (decide (d0 = d)) as [-> | Hne]; [by apply Ht |].
        by rewrite Ho.
      * auto.
      * intros f Hne. by rewrite Hg', Hg.
      * by etransitivity.
    + split; [| done]. split; [| split; [| split; [| split]]]; try done.
      * intros d' k Hd'. apply not_elem_of_cons in Hd' as [Hne Hnin].
        by apply Ho.
      * intros d0 ts Hts.
        destruct (decide (d0 = d)) as [-> | Hne]; [by apply Ht |].
        by rewrite Ho.
Qed.

(** X8.  Whether it returns or raises, the file handler changes no
    output file of a date that is not scheduled, never changes or
    removes a trip artifact that exists, removes no output file and
    touches no local snapshot but its own; with deletion disabled its
    own snapshot, once in the local folder, stays there. *)
Theorem handle_gtfs_file_frame file dates del w w' r :
  handle_gtfs_file E file dates del w = (w', r) ->
  (forall d' k, d' ∉ dates ->
                output_folder E w' !! (d', k) = output_folder E w !! (d', k))
  /\ (forall d ts, output_folder E w !! (d, trip_stats) = Some ts ->
                   output_folder E w' !! (d, trip_stats) = Some ts)
  /\ (forall k, is_Some (output_folder E w !! k) ->
                is_Some (output_folder E w' !! k))
  /\ (forall f, f <> file -> gtfs_folder E w' !! f = gtfs_folder E w !! f)
  /\ journal E w `prefix_of` journal E w'
  /\ (del = false -> is_Some (gtfs_folder E w !! file) ->
      is_Some (gtfs_folder E w' !! file)).
Proof.
  unfold handle_gtfs_file. intros H.
  apply bind_inv in H as [(w1 & b & Hds & H) | (e & Hds & _)];
    apply handle_dates_frame in Hds as ((Ho & Ht & Hs & Hg & Hj) & Hk);
    [| split_and!; auto].
  destruct (del && b) eqn:Hdel.
  - unfold os_remove in H.
    destruct (gtfs_folder E w1 !! file) as [z |];
      injection H as <- _; cbn [output_folder gtfs_folder journal].
    + split_and!; try done.
      * intros f Hne. rewrite lookup_delete_ne by done. by apply Hg.
      * etransitivity; [exact Hj |]. by apply prefix_app_r.
      * intros ->. done.
    + split_and!; try done. intros ->. done.
  - injection H as <- _. split_and!; auto.
Qed.

(** X9.  When the trip artifact of every scheduled date is persisted,
    the file handler fetches nothing, reads no snapshot, runs no trip
    rollup and removes nothing, with deletion enabled or not: the
    bucket and the local folder are as before. *)
Theorem handle_gtfs_file_all_persisted file dates del w w' r :
  (forall d, d ∈ dates -> is_Some (output_folder E w !! (d, trip_stats))) ->
  handle_gtfs_file E file dates del w = (w', r) ->
  net E w' = net E w
  /\ gtfs_folder E w' = gtfs_folder E w
  /\ filtered_folder E w' = filtered_folder E w
  /\ exists acts,
       journal E w' = journal E w ++ acts
       /\ Forall (fun a => fetches_or_builds_trips a = false
                            /\ a <> Remove file) acts.
Proof.
  intros Hall. unfold handle_gtfs_file.
  assert (forall b w w' r,
            (forall d, d ∈ dates ->
                       is_Some (output_folder E w !! (d, trip_stats))) ->
            handle_dates E file dates b w = (w', r) ->
            net E w' = net E w
            /\ gtfs_folder E w' = gtfs_folder E w
            /\ filtered_folder E w' = filtered_folder E w
            /\ (exists acts,
                  journal E w' = journal E w ++ acts
                  /\ Forall (fun a => fetches_or_builds_trips a = false
                                       /\ a <> Remove file)
                            acts)
            /\ (r = Ok true -> b = true /\ dates = [])) as Hloop.
  { clear. induction dates as [| d dates IH]; intros b w w' r Hall; simpl.
    - unfold ret. intros [= <- <-]. split_and!; try done.
      + exists []. split; [by rewrite app_nil_r | constructor].
      + by intros [= <-].
    - destruct (Hall d) as [ts Hts]; [by left |].
      unfold bind. rewrite (handle_gtfs_date_persisted E d file w ts Hts).
      destruct (Stats.compute_route_stats_base_partridge _ _ _ _) as [rs | e].
      + intros H. apply IH in H as (Hn & Hg & Hf & (acts & Hj & Hacts) & Hr).
        * cbn [net gtfs_folder filtered_folder journal] in *.
          split_and!; try done.
          -- exists ([ReadPickle d trip_stats; RouteRollup d;
                      ToPickle d route_stats] ++ acts).
             split; [by rewrite Hj, <- !app_assoc |].
             apply Forall_app. split; [| done].
             by repeat constructor.
          -- intros Htrue. by destruct (Hr Htrue) as [? ?].
        * intros d' Hd'. cbn [output_folder].
          rewrite lookup_insert_ne; [| done]. apply Hall. by right.
      + intros [= <- <-]. unfold log. cbn [net gtfs_folder filtered_folder journal].
        split_and!; try done.
        exists [ReadPickle d trip_stats; RouteRollup d]. split; [done |].
        by repeat constructor. }
  intros H.
  apply bind_inv in H as [(w1 & b & Hds & H) | (e & Hds & _)];
    apply (Hloop _ _ _ _ Hall) in Hds as (Hn & Hg & Hf & Hacts & Hr);
    [| by split_and!].
  assert (del && b = false) as Hdel.
  { destruct b; [| by destruct del]. by destruct (Hr eq_refl). }
  rewrite Hdel in H. injection H as <- _. by split_and!.
Qed.

End FileFacts.

Lemma handle_gtfs_file_last_witness :
  Orchestrator.handle_gtfs_file example_env (Zip (ymd 2024 1 1))
    ([ymd 2024 1 1] ++ [ymd 2024 1 2]) true fresh_world
  = if true && false
    then Orchestrator.os_remove example_env (Zip (ymd 2024 1 1))
           (Orchestrator.handle_gtfs_date example_env (ymd 2024 1 2)
              (Zip (ymd 2024 1 1)) persisted_world).1
    else ((Orchestrator.handle_gtfs_date example_env (ymd 2024 1 2)
             (Zip (ymd 2024 1 1)) persisted_world).1, Ok tt).
Proof.
  apply (handle_gtfs_file_last example_env (Zip (ymd 2024 1 1))
           [ymd 2024 1 1] (ymd 2024 1 2) true fresh_world persisted_world
           true).
  - vm_compute. reflexivity.
  - vm_compute. reflexivity.
Defined.

Lemma handle_gtfs_file_frame_witness :
  Orchestrator.file_frame example_env [ymd 2024 1 1] (Zip (ymd 2024 1 1))
    fresh_world
    (Orchestrator.handle_gtfs_file example_env (Zip (ymd 2024 1 1))
       [ymd 2024 1 1] false fresh_world).1
  /\ (false = false ->
      is_Some (Orchestrator.gtfs_folder example_env fresh_world
                 !! Zip (ymd 2024 1 1)) ->
      is_Some (Orchestrator.gtfs_folder example_env
                 (Orchestrator.handle_gtfs_file example_env (Zip (ymd 2024 1 1))
                    [ymd 2024 1 1] false fresh_world).1
                 !! Zip (ymd 2024 1 1))).
Proof.
  destruct (handle_gtfs_file_frame example_env (Zip (ymd 2024 1 1))
              [ymd 2024 1 1] false fresh_world
              (Orchestrator.handle_gtfs_file example_env (Zip (ymd 2024 1 1))
                 [ymd 2024 1 1] false fresh_world).1 (Ok tt))
    as (H1 & H2 & H3 & H4 & H5 & H6).
  - vm_compute. reflexivity.
  - split; [| exact H6]. by repeat split.
Defined.

Lemma handle_gtfs_file_all_persisted_witness :
  let w' := (Orchestrator.handle_gtfs_file example_env (Zip (ymd 2024 1 1))
               [ymd 2024 1 1] true persisted_world).1 in
  Orchestrator.net example_env w' = Orchestrator.net example_env persisted_world
  /\ Orchestrator.gtfs_folder example_env w'
     = Orchestrator.gtfs_folder example_env persisted_world
  /\ Orchestrator.filtered_folder example_env w'
     = Orchestrator.filtered_folder example_env persisted_world
  /\ exists acts,
       Orchestrator.journal example_env w'
       = Orchestrator.journal example_env persisted_world ++ acts
       /\ Forall (fun a => Orchestrator.fetches_or_builds_trips a = false
                           /\ a <> Orchestrator.Remove (Zip (ymd 2024 1 1)))
                 acts.
Proof.
  intros w'.
  apply (handle_gtfs_file_all_persisted example_env (Zip (ymd 2024 1 1))
           [ymd 2024 1 1] true persisted_world w' (Ok tt)).
  - intros d Hd. apply list_elem_of_singleton in Hd as ->.
    vm_compute. by eexists.
  - vm_compute. reflexivity.
Defined.

Lemma handle_gtfs_date_flag_witness :
  exists acts,
    Orchestrator.journal example_env persisted_world
    = Orchestrator.journal example_env fresh_world ++ acts
    /\ (true = true <-> Retry.Invoke ∈ download_events acts)
    /\ (true = false <-> download_events acts = []).
Proof.
  apply (handle_gtfs_date_flag example_env (ymd 2024 1 1) (Zip (ymd 2024 1 1))
           fresh_world persisted_world true).
  vm_compute. reflexivity.
Defined.

Lemma get_gtfs_file_returns_witness :
  let w' := (Orchestrator.get_gtfs_file example_env (Zip (ymd 2024 1 1)) false
                                        fresh_world).1 in
  is_Some (Orchestrator.gtfs_folder example_env w' !! Zip (ymd 2024 1 1))
  /\ (true = false -> w' = fresh_world /\ false = false)
  /\ (true = true ->
      exists tr,
        Orchestrator.journal example_env w'
        = Orchestrator.journal example_env fresh_world
            ++ (Orchestrator.Download (Zip (ymd 2024 1 1)) <$> tr)
        /\ Retry.Invoke ∈ tr)
  /\ Orchestrator.output_folder example_env w'
     = Orchestrator.output_folder example_env fresh_world
  /\ Orchestrator.filtered_folder example_env w'
     = Orchestrator.filtered_folder example_env fresh_world
  /\ (forall f, f <> Zip (ymd 2024 1 1) ->
                Orchestrator.gtfs_folder example_env w' !! f
                = Orchestrator.gtfs_folder example_env fresh_world !! f).
Proof.
  intros w'.
  apply (get_gtfs_file_returns example_env (Zip (ymd 2024 1 1)) false
           fresh_world w' true).
  vm_compute. reflexivity.
Defined.

(** ** A corrupt local snapshot *)

Section CorruptSnapshot.
Import Orchestrator.
Variable E : Externals.

Lemma windowed_eq d file w z :
  gtfs_folder E w !! file = Some z ->
  windowed E file d w
  = (log E [Windowing file d] w, get_partridge_feed_by_date E z d).
Proof.
  intros Hz. unfold windowed, bind, act, read_local. cbn [log gtfs_folder].
  rewrite Hz. by destruct (get_partridge_feed_by_date E z d).
Qed.

(** A forced fetch, whatever the bucket answers: one call of the retry
    wrapper, of at most eight attempts. *)
Lemma get_gtfs_file_forced file w :
  exists w1 tr rf,
    get_gtfs_file E file true w = (w1, rf)
    /\ journal E w1 = journal E w ++ (Download file <$> tr)
    /\ (invokes tr <= 8)%nat
    /\ output_folder E w1 = output_folder E w
    /\ filtered_folder E w1 = filtered_folder E w
    /\ (forall f, f <> file -> gtfs_folder E w1 !! f = gtfs_folder E w !! f)
    /\ (forall b, rf = Ok b ->
          b = true /\ is_Some (gtfs_folder E w1 !! file)
          /\ Retry.Invoke ∈ tr).
Proof.
  set (kwargs := ({["report" := PyCallable "logger.error"]}
                   : gmap string pyval)).
  unfold get_gtfs_file. cbn [negb andb].
  unfold bind, s3_download, Retry.wrapped, ret. fold kwargs.
  assert (kwargs !! "report" = Some (PyCallable "logger.error")) as ->
    by apply lookup_singleton_eq.
  pose proof (loop_bounded is_Exception (s3_download_body E)
                (PyCallable "logger.error") file kwargs
                Retry.default_delays [] w) as Hbounded.
  unfold Retry.chain_delays.
  destruct (Retry.loop is_Exception (s3_download_body E)
              (PyCallable "logger.error") file kwargs
              ((Some <$> Retry.default_delays) ++ [None]) [] w)
    as [[w1 tr] r] eqn:Hloop.
  destruct Hbounded as (Hpre & Hinv & Hnone).
  pose proof (loop_preserves is_Exception (s3_download_body E)
                (fetched_only E file) (PyCallable "logger.error") file
                kwargs (fetched_only_refl E file) (fetched_only_trans E file)
                (s3_download_body_fetched E file kwargs)
                _ _ _ _ _ _ Hloop) as (Ho & Hf & Hj & Hg).
  assert (invokes tr <= 8)%nat as Hle.
  { rewrite Hinv. apply prefix_length in Hpre. simpl in Hpre. lia. }
  destruct r as [[[] |] | e]; [| done |].
  - eexists _, tr, _. split; [reflexivity |].
    cbn [log journal output_folder filtered_folder gtfs_folder].
    split; [by rewrite Hj |]. do 4 (split; [done |]).
    intros b [= <-]. split; [done |].
    destruct (loop_Ok _ _ _ _ _ _ _ _ _ _ _ Hloop) as (w0 & Hbody & Hinvoke).
    split; [| done]. by apply (s3_download_body_Ok E _ _ _ _ Hbody).
  - eexists _, tr, _. split; [reflexivity |].
    cbn [log journal output_folder filtered_folder gtfs_folder].
    split; [by rewrite Hj |]. do 4 (split; [done |]). done.
Qed.

(** X10.  A local snapshot that cannot be read as a zip file is fetched
    again by one forced call of the retrying download, of at most eight
    attempts, which changes no output.  When that fetch raises, the
    handler raises the same exception.  When it returns, after however
    many attempts, the snapshot is read again: when the second reading
    fails, whatever the exception, the handler raises it and writes no
    output; when it succeeds and both rollups do, the handler writes
    both artifacts and answers [True]. *)
Theorem corrupt_snapshot_refetched_once d file w z e :
  WRITE_FILTERED_FEED E = false ->
  output_folder E w !! (d, trip_stats) = None ->
  gtfs_folder E w !! file = Some z ->
  get_partridge_feed_by_date E z d = Raise e ->
  exn_cls e = BadZipFile ->
  exists w1 tr rf,
    get_gtfs_file E file true (log E [Windowing file d] w) = (w1, rf)
    /\ journal E w1
       = journal E w ++ Windowing file d :: (Download file <$> tr)
    /\ (invokes tr <= 8)%nat
    /\ output_folder E w1 = output_folder E w
    /\ (forall ef,
          rf = Raise ef -> handle_gtfs_date E d file w = (w1, Raise ef))
    /\ (forall b,
          rf = Ok b ->
          Retry.Invoke ∈ tr
          /\ exists z1,
               gtfs_folder E w1 !! file = Some z1
               /\ (forall e1,
                     get_partridge_feed_by_date E z1 d = Raise e1 ->
                     exists w',
                       handle_gtfs_date E d file w = (w', Raise e1)
                       /\ output_folder E w' = output_folder E w
                       /\ gtfs_folder E w' = gtfs_folder E w1
                       /\ journal E w' = journal E w1 ++ [Windowing file d])
               /\ (forall feed ts rs,
                     get_partridge_feed_by_date E z1 d = Ok feed ->
                     Stats.compute_trip_stats_partridge (Point E) (distance E)
                       (build_geometry_by_stop E) feed (get_zones_df E)
                     = Ok ts ->
                     Stats.compute_route_stats_base_partridge
                       (get_peak_indices E) (tag d ts) (hms 7 0 0) (hms 19 0 0)
                     = Ok rs ->
                     exists w',
                       handle_gtfs_date E d file w = (w', Ok true)
                       /\ output_folder E w'
                          = <[(d, route_stats) := tag d rs]>
                              (<[(d, trip_stats) := tag d ts]>
                                 (output_folder E w))
                       /\ gtfs_folder E w' = gtfs_folder E w1
                       /\ journal E w'
                          = journal E w1
                              ++ [Windowing file d; TripRollup d;
                                  ToPickle d trip_stats; RouteRollup d;
                                  ToPickle d route_stats])).
Proof.
  intros Hmode Hnone Hz Hbad Hcls.
  destruct (get_gtfs_file_forced file (log E [Windowing file d] w))
    as (w1 & tr & rf & Hget & Hj & Hle & Ho & Hf & Hg & Hok).
  cbn [log journal output_folder] in Hj, Ho.
  assert (trip_stats_for E d file w
          = bind E (fun _ =>
                      match rf with
                      | Ok downloaded =>
                          bind E (windowed E file d)
                               (fun feed => ret E (downloaded, feed)) w1
                      | Raise ef => (w1, Raise ef)
                      end)
                   (fun df =>
                      bind E (act E (TripRollup d)) (fun _ =>
                      bind E (lift E (Stats.compute_trip_stats_partridge
                                        (Point E) (distance E)
                                        (build_geometry_by_stop E) df.2
                                        (get_zones_df E))) (fun ts =>
                      bind E (to_pickle E d trip_stats (tag d ts)) (fun _ =>
                        ret E (df.1, tag d ts))))) w) as Hfetch.
  { unfold trip_stats_for. rewrite Hnone, Hmode.
    unfold bind at 1. unfold get_gtfs_file at 1. rewrite Hz.
    cbn [negb andb]. rewrite bool_decide_eq_true_2 by by eexists.
    unfold bind at 1 6. f_equal.
    unfold windowed_or_refetched. rewrite (windowed_eq d file w z Hz), Hbad.
    rewrite decide_True by done.
    unfold bind at 1. rewrite Hget. by destruct rf. }
  exists w1, tr, rf. split; [done |].
  split; [by rewrite Hj, <- app_assoc |].
  split; [done |]. split; [done |].
  split.
  - intros ef ->. unfold handle_gtfs_date, bind at 1. rewrite Hfetch.
    by unfold bind at 1.
  - intros b ->. destruct (Hok b eq_refl) as (-> & [z1 Hz1] & Hinvoke).
    split; [done |]. exists z1. split; [done |].
    assert (forall r1,
              get_partridge_feed_by_date E z1 d = r1 ->
              bind E (windowed E file d) (fun feed => ret E (true, feed)) w1
              = (log E [Windowing file d] w1,
                 match r1 with
                 | Ok feed => Ok (true, feed)
                 | Raise e1 => Raise e1
                 end)) as Hread.
    { intros r1 Hr1. unfold bind at 1.
      rewrite (windowed_eq d file w1 z1 Hz1), Hr1. by destruct r1. }
    split.
    + intros e1 He1. eexists.
      unfold handle_gtfs_date, bind at 1. rewrite Hfetch.
      unfold bind at 1. rewrite (Hread _ He1).
      split; [reflexivity |]. by split_and!.
    + intros feed ts rs Hfeed Hts Hrs. eexists.
      unfold handle_gtfs_date, bind at 1. rewrite Hfetch.
      unfold bind at 1. rewrite (Hread _ Hfeed).
      unfold bind, act, lift, to_pickle, ret, log.
      cbn [net gtfs_folder filtered_folder output_folder journal fst snd].
      rewrite Hts.
      cbn [net gtfs_folder filtered_folder output_folder journal fst snd].
      rewrite Hrs. split; [reflexivity |].
      cbn [output_folder gtfs_folder journal]. rewrite <- !app_assoc.
      rewrite Ho. by split_and!.
Qed.

End CorruptSnapshot.

Lemma corrupt_snapshot_refetched_once_witness :
  (exists w',
     Orchestrator.handle_gtfs_date slow_bucket_env (ymd 2024 1 1)
       (Zip (ymd 2024 1 1)) slow_bucket_world = (w', Ok true)
     /\ invokes (download_events (Orchestrator.journal slow_bucket_env w'))
        = 3%nat
     /\ sleeps (download_events (Orchestrator.journal slow_bucket_env w'))
        = [0%N; 1%N])
  /\ exists w1 tr rf,
    Orchestrator.get_gtfs_file slow_bucket_env (Zip (ymd 2024 1 1)) true
      (Orchestrator.log slow_bucket_env
         [Orchestrator.Windowing (Zip (ymd 2024 1 1)) (ymd 2024 1 1)]
         slow_bucket_world)
    = (w1, rf)
    /\ Orchestrator.journal slow_bucket_env w1
       = Orchestrator.journal slow_bucket_env slow_bucket_world
           ++ Orchestrator.Windowing (Zip (ymd 2024 1 1)) (ymd 2024 1 1)
              :: (Orchestrator.Download (Zip (ymd 2024 1 1)) <$> tr)
    /\ (invokes tr <= 8)%nat
    /\ Orchestrator.output_folder slow_bucket_env w1
       = Orchestrator.output_folder slow_bucket_env slow_bucket_world
    /\ (forall ef,
          rf = Raise ef ->
          Orchestrator.handle_gtfs_date slow_bucket_env (ymd 2024 1 1)
            (Zip (ymd 2024 1 1)) slow_bucket_world = (w1, Raise ef))
    /\ (forall b,
          rf = Ok b ->
          Retry.Invoke ∈ tr
          /\ exists z1,
               Orchestrator.gtfs_folder slow_bucket_env w1
                 !! Zip (ymd 2024 1 1) = Some z1
               /\ (forall e1,
                     Orchestrator.get_partridge_feed_by_date slow_bucket_env
                       z1 (ymd 2024 1 1) = Raise e1 ->
                     exists w',
                       Orchestrator.handle_gtfs_date slow_bucket_env
                         (ymd 2024 1 1) (Zip (ymd 2024 1 1)) slow_bucket_world
                       = (w', Raise e1)
                       /\ Orchestrator.output_folder slow_bucket_env w'
                          = Orchestrator.output_folder slow_bucket_env
                              slow_bucket_world
                       /\ Orchestrator.gtfs_folder slow_bucket_env w'
                          = Orchestrator.gtfs_folder slow_bucket_env w1
                       /\ Orchestrator.journal slow_bucket_env w'
                          = Orchestrator.journal slow_bucket_env w1
                              ++ [Orchestrator.Windowing (Zip (ymd 2024 1 1))
                                    (ymd 2024 1 1)])
               /\ (forall feed ts rs,
                     Orchestrator.get_partridge_feed_by_date slow_bucket_env
                       z1 (ymd 2024 1 1) = Ok feed ->
                     Stats.compute_trip_stats_partridge
                       (Orchestrator.Point slow_bucket_env)
                       (Orchestrator.distance slow_bucket_env)
                       (Orchestrator.build_geometry_by_stop slow_bucket_env)
                       feed (Orchestrator.get_zones_df slow_bucket_env)
                     = Ok ts ->
                     Stats.compute_route_stats_base_partridge
                       (Orchestrator.get_peak_indices slow_bucket_env)
                       (Orchestrator.tag (ymd 2024 1 1) ts)
                       (hms 7 0 0) (hms 19 0 0)
                     = Ok rs ->
                     exists w',
                       Orchestrator.handle_gtfs_date slow_bucket_env
                         (ymd 2024 1 1) (Zip (ymd 2024 1 1)) slow_bucket_world
                       = (w', Ok true)
                       /\ Orchestrator.output_folder slow_bucket_env w'
                          = <[(ymd 2024 1 1, route_stats)
                              := Orchestrator.tag (ymd 2024 1 1) rs]>
                              (<[(ymd 2024 1 1, trip_stats)
                                 := Orchestrator.tag (ymd 2024 1 1) ts]>
                                 (Orchestrator.output_folder slow_bucket_env
                                    slow_bucket_world))
                       /\ Orchestrator.gtfs_folder slow_bucket_env w'
                          = Orchestrator.gtfs_folder slow_bucket_env w1
                       /\ Orchestrator.journal slow_bucket_env w'
                          = Orchestrator.journal slow_bucket_env w1
                              ++ [Orchestrator.Windowing (Zip (ymd 2024 1 1))
                                    (ymd 2024 1 1);
                                  Orchestrator.TripRollup (ymd 2024 1 1);
                                  Orchestrator.ToPickle (ymd 2024 1 1)
                                    trip_stats;
                                  Orchestrator.RouteRollup (ymd 2024 1 1);
                                  Orchestrator.ToPickle (ymd 2024 1 1)
                                    route_stats])).
Proof.
  split.
  { eexists. split; [vm_compute; reflexivity |].
    split; vm_compute; reflexivity. }
  apply (corrupt_snapshot_refetched_once slow_bucket_env (ymd 2024 1 1)
           (Zip (ymd 2024 1 1)) slow_bucket_world None
           (Exn BadZipFile "File is not a zip file")).
  - reflexivity.
  - vm_compute. reflexivity.
  - vm_compute. reflexivity.
  - reflexivity.
  - reflexivity.
Defined.

(** ** The forward-fill plan as a whole *)

Section PlanFacts.
Import Scheduler.

(** The keys of the plan: a file is a key exactly when some entry of
    the filled series names it. *)
Lemma foldl_dict_append_lookup (s : list (date * option date))
    (m : gmap fname (list date)) (k : fname) :
  foldl (fun ffill p => dict_append (file_of p.2) p.1 ffill) m s !! k
  = match (filter (fun p : date * option date => file_of p.2 = k) s).*1 with
    | [] => m !! k
    | l => Some (default [] (m !! k) ++ l)
    end.
Proof.
  revert m. induction s as [| [d v] s IH]; intros m; [done |].
  cbn [foldl]. rewrite IH. unfold dict_append. rewrite filter_cons.
  cbn [fst snd].
  destruct (decide (file_of v = k)) as [<- | Hne].
  - rewrite lookup_insert_eq, fmap_cons. cbn [default fst].
    destruct ((filter (fun p : date * option date => file_of p.2 = file_of v)
                      s).*1) as [| x l]; simpl.
    + done.
    + by rewrite <- app_assoc.
  - by rewrite lookup_insert_ne.
Qed.

Lemma applicable_None (V : list date) (d : date) :
  applicable V d = None <-> (forall s, s ∈ V -> ~ (s <= d <= s + 59)).
Proof.
  split.
  - intros Hnone s Hs Hd.
    destruct (latest V d) as [m |] eqn:Hm.
    + pose proof Hm as Hm'. apply latest_Some in Hm' as (Hin & Hle & Hmax).
      specialize (Hmax s Hs ltac:(lia)).
      unfold applicable in Hnone. rewrite Hm in Hnone.
      destruct (Z.leb_spec (d - m) 59); [done | lia].
    + pose proof (proj1 (latest_None V d) Hm s Hs). lia.
  - intros Hall. destruct (applicable V d) as [s |] eqn:Hs; [| done].
    apply applicable_Some in Hs as (Hin & Hd & _). by destruct (Hall s Hin).
Qed.

Lemma length_date_range a b : length (date_range a b) = Z.to_nat (b - a + 1).
Proof. unfold date_range. by rewrite length_fmap, length_seq. Qed.

Lemma StronglySorted_date_range a b : StronglySorted Z.lt (date_range a b).
Proof.
  remember (Z.to_nat (b - a + 1)) as m eqn:Hm. revert a Hm.
  induction m as [| m IH]; intros a Hm.
  - rewrite date_range_empty by lia. constructor.
  - rewrite date_range_cons by lia. constructor; [apply IH; lia |].
    apply Forall_forall. intros x Hx. apply elem_of_date_range in Hx. lia.
Qed.

Lemma StronglySorted_filter {A} (R : A -> A -> Prop) (P : A -> Prop)
    `{!forall x, Decision (P x)} (l : list A) :
  StronglySorted R l -> StronglySorted R (filter P l).
Proof.
  induction 1 as [| x l Hl IH Hall]; [constructor |].
  rewrite filter_cons. destruct (decide (P x)); [| done].
  constructor; [done |].
  apply Forall_forall. intros y Hy. apply list_elem_of_filter in Hy as [_ Hy].
  by eapply Forall_forall in Hall.
Qed.

(** The plan, with its keys. *)
Lemma get_forward_fill_dict_lookup (V : list date) (future_days : Z) :
  V <> [] -> 0 <= future_days ->
  exists ffill lo hi,
    dates_min V = Some lo /\ dates_max V = Some hi
    /\ (forall s, s ∈ V -> lo <= s <= hi)
    /\ get_forward_fill_dict V future_days = Ok ffill
    /\ forall k,
         ffill !! k
         = appended (filter (fun d => file_of (applicable V d) = k)
                            (date_range lo (hi + future_days))).
Proof.
  intros HV Hfd.
  destruct (dates_min_max V HV) as (lo & hi & Hlo & Hhi & Hbounds).
  eexists _, lo, hi. split; [done |]. split; [done |]. split; [done |].
  unfold get_forward_fill_dict. rewrite Hlo, Hhi.
  rewrite set_labels_marked.
  2:{ intros l Hl. apply elem_of_date_range. specialize (Hbounds l Hl). lia. }
  cbn [rbind]. split; [reflexivity |].
  intros k. rewrite foldl_dict_append_lookup, lookup_empty.
  unfold fillna_ffill.
  rewrite (ffill_marked V _ lo (hi + future_days) None 0 eq_refl).
  - rewrite filter_applied. by destruct (filter _ _).
  - symmetry. apply latest_None. intros s Hs. specialize (Hbounds s Hs). lia.
  - done.
Qed.

Lemma default_appended {A} (l : list A) : default [] (appended l) = l.
Proof. by destruct l. Qed.

(** X11.  The plan covers the whole range from the earliest snapshot
    to the latest one plus [future_days]: every date of the range is in
    the list of some file and no other date is planned.  The dates
    under ['NaT.zip'] are those of the range with no snapshot in the 59
    days up to them; with [future_days] above 59 there always are
    some. *)
Theorem forward_fill_plan_total (valid_files : list date) (future_days : Z) :
  valid_files <> [] ->
  0 <= future_days ->
  exists ffill lo hi,
    dates_min valid_files = Some lo
    /\ dates_max valid_files = Some hi
    /\ get_forward_fill_dict valid_files future_days = Ok ffill
    /\ (forall d, lo <= d <= hi + future_days
                  <-> exists k, d ∈ default [] (ffill !! k))
    /\ (forall d, d ∈ default [] (ffill !! NaT_zip)
                  <-> lo <= d <= hi + future_days
                      /\ forall s, s ∈ valid_files -> ~ (s <= d <= s + 59))
    /\ (59 < future_days -> hi + 60 ∈ default [] (ffill !! NaT_zip)).
Proof.
  intros HV Hfd.
  destruct (get_forward_fill_dict_lookup valid_files future_days HV Hfd)
    as (ffill & lo & hi & Hlo & Hhi & Hbounds & Hok & Hlook).
  exists ffill, lo, hi. split; [done |]. split; [done |]. split; [done |].
  assert (forall k d, d ∈ default [] (ffill !! k)
                      <-> file_of (applicable valid_files d) = k
                          /\ lo <= d <= hi + future_days) as Hin.
  { intros k d. rewrite Hlook, default_appended, list_elem_of_filter.
    by rewrite elem_of_date_range. }
  assert (forall d, file_of (applicable valid_files d) = NaT_zip
                    <-> forall s, s ∈ valid_files -> ~ (s <= d <= s + 59))
    as Hnat.
  { intros d. rewrite <- applicable_None.
    destruct (applicable valid_files d); simpl; split; done. }
  split; [| split].
  - intros d. split.
    + intros Hd. exists (file_of (applicable valid_files d)). by apply Hin.
    + intros [k Hk]. by apply Hin in Hk as [_ ?].
  - intros d. rewrite Hin, Hnat. tauto.
  - intros Hbig. apply Hin. split; [| split].
    + apply Hnat. intros s Hs. specialize (Hbounds s Hs). lia.
    + destruct valid_files as [| s0 V]; [done |].
      specialize (Hbounds s0 ltac:(by left)). lia.
    + lia.
Qed.

(** X12.  The files of the plan other than ['NaT.zip'] are exactly the
    snapshots.  The list of a snapshot starts with its own date and is
    the run of consecutive days from there to its last entry, in
    ascending order, at most 60 days long. *)
Theorem forward_fill_snapshot_runs (valid_files : list date) (future_days : Z) :
  valid_files <> [] ->
  0 <= future_days ->
  exists ffill,
    get_forward_fill_dict valid_files future_days = Ok ffill
    /\ (forall s, is_Some (ffill !! Zip s) <-> s ∈ valid_files)
    /\ (forall s l,
          ffill !! Zip s = Some l ->
          head l = Some s
          /\ StronglySorted Z.lt l
          /\ (forall d d', d ∈ l -> s <= d' <= d -> d' ∈ l)
          /\ (length l <= 60)%nat).
Proof.
  intros HV Hfd.
  destruct (get_forward_fill_dict_lookup valid_files future_days HV Hfd)
    as (ffill & lo & hi & Hlo & Hhi & Hbounds & Hok & Hlook).
  exists ffill. split; [done |].
  set (range := date_range lo (hi + future_days)) in *.
  assert (forall s d,
            d ∈ filter (fun d => file_of (applicable valid_files d) = Zip s)
                       range
            <-> (lo <= d <= hi + future_days)
                /\ s ∈ valid_files /\ s <= d <= s + 59
                /\ (forall s', s' ∈ valid_files -> s' <= d -> s' <= s)) as Hin.
  { intros s d. unfold range.
    rewrite list_elem_of_filter, elem_of_date_range, file_of_Zip,
      applicable_Some. tauto. }
  assert (forall s, s ∈ valid_files ->
            s ∈ filter (fun d => file_of (applicable valid_files d) = Zip s)
                       range) as Hown.
  { intros s Hs. apply Hin. specialize (Hbounds s Hs).
    split; [lia |]. split; [done |]. split; [lia | done]. }
  split.
  - intros s. rewrite Hlook. split.
    + intros [l Hl].
      destruct (filter _ range) as [| d l'] eqn:Hf; [done |].
      assert (d ∈ filter (fun d => file_of (applicable valid_files d) = Zip s)
                         range) as Hd by (rewrite Hf; by left).
      by apply Hin in Hd as (_ & ? & _).
    + intros Hs. specialize (Hown s Hs).
      destruct (filter _ range) as [| d l'] eqn:Hf; [| by eexists].
      by apply elem_of_nil in Hown.
  - intros s l Hl. rewrite Hlook in Hl.
    assert (l = filter (fun d => file_of (applicable valid_files d) = Zip s)
                       range) as ->.
    { destruct (filter _ range); [done | by injection Hl]. }
    assert (StronglySorted Z.lt
              (filter (fun d => file_of (applicable valid_files d) = Zip s)
                      range)) as Hsorted.
    { apply StronglySorted_filter, StronglySorted_date_range. }
    assert (s ∈ valid_files) as Hs.
    { destruct (filter _ range) as [| d l'] eqn:Hf; [done |].
      assert (d ∈ filter (fun d => file_of (applicable valid_files d) = Zip s)
                         range) as Hd by (rewrite Hf; by left).
      by apply Hin in Hd as (_ & ? & _). }
    split; [| split; [done | split]].
    + pose proof (Hown s Hs) as Hmem.
      destruct (filter _ range) as [| d l'] eqn:Hf;
        [by apply elem_of_nil in Hmem |].
      simpl. f_equal.
      assert (s <= d) as Hge.
      { assert (d ∈ d :: l') as Hd by by left.
        rewrite <- Hf in Hd. apply Hin in Hd. lia. }
      apply elem_of_cons in Hmem as [-> | Hmem]; [done |].
      apply StronglySorted_inv in Hsorted as [_ Hall].
      eapply Forall_forall in Hall; [| exact Hmem]. simpl in Hall. lia.
    + intros d d' Hd Hd'. apply Hin in Hd as (Hr & _ & Hgap & Hmax).
      apply Hin. specialize (Hbounds s Hs).
      split; [lia |]. split; [done |]. split; [lia |].
      intros s' Hs' Hle. apply Hmax; [done | lia].
    + assert (filter (fun d => file_of (applicable valid_files d) = Zip s) range
              ⊆ date_range s (s + 59)) as Hsub.
      { intros d Hd. apply Hin in Hd. apply elem_of_date_range. lia. }
      assert (NoDup (filter (fun d => file_of (applicable valid_files d) = Zip s)
                            range)) as Hnd.
      { apply NoDup_filter, NoDup_date_range. }
      pose proof (submseteq_length _ _ (NoDup_submseteq _ _ Hnd Hsub)) as Hlen.
      rewrite length_date_range in Hlen. lia.
Qed.

End PlanFacts.

Lemma forward_fill_plan_total_witness :
  exists ffill lo hi,
    Scheduler.dates_min [ymd 2024 1 1; ymd 2024 4 1] = Some lo
    /\ Scheduler.dates_max [ymd 2024 1 1; ymd 2024 4 1] = Some hi
    /\ Scheduler.get_forward_fill_dict [ymd 2024 1 1; ymd 2024 4 1] 60
       = Ok ffill
    /\ (forall d, lo <= d <= hi + 60
                  <-> exists k, d ∈ default [] (ffill !! k))
    /\ (forall d, d ∈ default [] (ffill !! NaT_zip)
                  <-> lo <= d <= hi + 60
                      /\ forall s, s ∈ [ymd 2024 1 1; ymd 2024 4 1] ->
                                   ~ (s <= d <= s + 59))
    /\ (59 < 60 -> hi + 60 ∈ default [] (ffill !! NaT_zip)).
Proof.
  apply (forward_fill_plan_total [ymd 2024 1 1; ymd 2024 4 1] 60).
  - discriminate.
  - lia.
Defined.

Lemma forward_fill_snapshot_runs_witness :
  exists ffill,
    Scheduler.get_forward_fill_dict [ymd 2024 1 1; ymd 2024 3 1] 3 = Ok ffill
    /\ (forall s, is_Some (ffill !! Zip s)
                  <-> s ∈ [ymd 2024 1 1; ymd 2024 3 1])
    /\ (forall s l,
          ffill !! Zip s = Some l ->
          head l = Some s
          /\ StronglySorted Z.lt l
          /\ (forall d d', d ∈ l -> s <= d' <= d -> d' ∈ l)
          /\ (length l <= 60)%nat).
Proof.
  apply (forward_fill_snapshot_runs [ymd 2024 1 1; ymd 2024 3 1] 3).
  - discriminate.
  - lia.
Defined.

(** ** Work lists: [get_dates_without_output] and [get_valid_file_dates_dict] *)

Section WorkListFacts.
Import Scheduler.

(** Only an existing [route_stats] output takes a date off the list. *)
Lemma elem_of_get_dates_without_output (V : list date)
    (existing : list (date * output_kind)) (d : date) :
  d ∈ get_dates_without_output V existing
  <-> d ∈ V /\ (d, route_stats) ∉ existing.
Proof.
  unfold get_dates_without_output. rewrite list_elem_of_filter.
  assert (d ∈ (filter (fun g : date * output_kind => g.2 = route_stats)
                      existing).*1
          <-> (d, route_stats) ∈ existing) as Hdone.
  { rewrite list_elem_of_fmap. split.
    - intros ([d' k] & -> & Hin). apply list_elem_of_filter in Hin as [Hk Hin].
      simpl in *. by subst.
    - intros Hin. exists (d, route_stats). split; [done |].
      by apply list_elem_of_filter. }
  rewrite Hdone. tauto.
Qed.

Lemma foldl_dict_append_own (l : list date) (m : gmap fname (list date)) :
  foldl (fun files d => dict_append (Zip d) d files) m l
  = foldl (fun ffill p => dict_append (file_of p.2) p.1 ffill) m
          ((fun d => (d, Some d)) <$> l).
Proof.
  revert m. induction l as [| d l IH]; intros m; [done |].
  rewrite fmap_cons. cbn [foldl]. by rewrite IH.
Qed.

(** X13.  Without forward fill the scheduler never raises; a date is
    scheduled exactly when it is the date of a valid file and has no
    [route_stats] output, always under its own file; no file is kept
    with an empty list, and ['NaT.zip'] is never a key.  An existing
    [trip_stats] output does not take a date off the work. *)
Theorem direct_mode_work_lists (bucket_valid_files : list date)
    (existing_output_files : list (date * output_kind)) (future_days : Z) :
  exists work,
    get_valid_file_dates_dict bucket_valid_files existing_output_files
                              false future_days = Ok work
    /\ (forall k d,
          d ∈ default [] (work !! k)
          <-> k = Zip d /\ d ∈ bucket_valid_files
              /\ (d, route_stats) ∉ existing_output_files)
    /\ (forall k, work !! k <> Some [])
    /\ work !! NaT_zip = None.
Proof.
  eexists. split; [reflexivity |].
  set (todo := get_dates_without_output bucket_valid_files
                                        existing_output_files).
  assert (forall k,
            foldl (fun files d => dict_append (Zip d) d files) ∅ todo !! k
            = appended (filter (fun d => Zip d = k) todo)) as Hlook.
  { intros k. rewrite foldl_dict_append_own, foldl_dict_append_lookup,
      lookup_empty.
    rewrite (filter_applied Some k todo). by destruct (filter _ todo). }
  split; [| split].
  - intros k d. rewrite Hlook, default_appended, list_elem_of_filter.
    unfold todo. rewrite elem_of_get_dates_without_output.
    split; intros (Hk & ?); (split; [by rewrite Hk | done]).
  - intros k. rewrite Hlook. by destruct (filter _ todo).
  - rewrite Hlook.
    assert (forall l : list date, filter (fun d => Zip d = NaT_zip) l = [])
      as ->; [| done].
    induction l as [| d l IH]; [done |].
    rewrite filter_cons. by rewrite decide_False.
Qed.

(** X14.  With forward fill the work lists are the lists of the plan
    without the dates that have a [route_stats] output, in the same
    order; the dates left under ['NaT.zip'] are scheduled like the
    others; and a file whose dates are all done stays in the
    dictionary, with an empty list. *)
Theorem forward_mode_work_lists (bucket_valid_files : list date)
    (existing_output_files : list (date * output_kind)) (future_days : Z) :
  bucket_valid_files <> [] ->
  0 <= future_days ->
  exists ffill work,
    get_forward_fill_dict bucket_valid_files future_days = Ok ffill
    /\ get_valid_file_dates_dict bucket_valid_files existing_output_files
                                 true future_days = Ok work
    /\ (forall k, is_Some (work !! k) <-> is_Some (ffill !! k))
    /\ (forall k d,
          d ∈ default [] (work !! k)
          <-> d ∈ default [] (ffill !! k)
              /\ (d, route_stats) ∉ existing_output_files)
    /\ (forall k, default [] (work !! k) `sublist_of` default [] (ffill !! k))
    /\ (forall k l,
          ffill !! k = Some l ->
          (forall d, d ∈ l -> (d, route_stats) ∈ existing_output_files) ->
          work !! k = Some []).
Proof.
  intros HV Hfd.
  destruct (get_forward_fill_dict_spec bucket_valid_files future_days HV Hfd)
    as (ffill & lo & hi & _ & _ & Hok & _).
  exists ffill. eexists. split; [done |].
  unfold get_valid_file_dates_dict. rewrite Hok. cbn [rbind].
  split; [reflexivity |].
  split; [| split; [| split]].
  - intros k. rewrite lookup_fmap. apply fmap_is_Some.
  - intros k d. rewrite lookup_fmap.
    destruct (ffill !! k) as [l |]; simpl.
    + rewrite elem_of_get_dates_without_output. tauto.
    + rewrite elem_of_nil. tauto.
  - intros k. rewrite lookup_fmap.
    destruct (ffill !! k) as [l |]; simpl; [| done].
    apply sublist_filter.
  - intros k l Hl Hdone. rewrite lookup_fmap, Hl. simpl. f_equal.
    unfold get_dates_without_output. clear Hl.
    induction l as [| d l IH]; [done |].
    rewrite filter_cons.
    assert ((d, route_stats) ∈ existing_output_files) as Hd
      by (apply Hdone; by left).
    rewrite decide_False.
    + apply IH. intros d' Hd'. apply Hdone. by right.
    + intros Hnot. apply Hnot. apply list_elem_of_fmap.
      exists (d, route_stats). split; [done |]. by apply list_elem_of_filter.
Qed.

End WorkListFacts.

Lemma forward_mode_work_lists_witness :
  exists ffill work,
    Scheduler.get_forward_fill_dict [ymd 2024 1 1; ymd 2024 1 3] 0 = Ok ffill
    /\ Scheduler.get_valid_file_dates_dict [ymd 2024 1 1; ymd 2024 1 3]
         [(ymd 2024 1 1, route_stats); (ymd 2024 1 2, route_stats)] true 0
       = Ok work
    /\ (forall k, is_Some (work !! k) <-> is_Some (ffill !! k))
    /\ (forall k d,
          d ∈ default [] (work !! k)
          <-> d ∈ default [] (ffill !! k)
              /\ (d, route_stats)
                   ∉ [(ymd 2024 1 1, route_stats); (ymd 2024 1 2, route_stats)])
    /\ (forall k, default [] (work !! k) `sublist_of` default [] (ffill !! k))
    /\ (forall k l,
          ffill !! k = Some l ->
          (forall d, d ∈ l ->
             (d, route_stats)
               ∈ [(ymd 2024 1 1, route_stats); (ymd 2024 1 2, route_stats)]) ->
          work !! k = Some []).
Proof.
  apply (forward_mode_work_lists [ymd 2024 1 1; ymd 2024 1 3]
           [(ymd 2024 1 1, route_stats); (ymd 2024 1 2, route_stats)] 0).
  - discriminate.
  - lia.
Defined.

(** ** The sweep: bounds *)

Section SweepBounds.
Import Stats.

Lemma StronglySorted_last_max (l : list Z) (t : Z) :
  StronglySorted Z.lt l -> last l = Some t -> forall x, x ∈ l -> x <= t.
Proof.
  induction 1 as [| a l Hl IH Hall]; [done |].
  intros Hlast x Hx. destruct l as [| b l'].
  - injection Hlast as <-. apply list_elem_of_singleton in Hx. lia.
  - change (last (a :: b :: l')) with (last (b :: l')) in Hlast.
    apply elem_of_cons in Hx as [-> | Hx]; [| by apply IH].
    assert (t ∈ b :: l') as Ht.
    { apply list_elem_of_lookup. exists (length l').
      by rewrite <- Hlast, last_lookup. }
    eapply Forall_forall in Hall; [| exact Ht]. simpl in Hall. lia.
Qed.

Lemma length_filter_all {A} (P : A -> Prop) `{!forall x, Decision (P x)}
    (l : list A) :
  Forall P l -> length (filter P l) = length l.
Proof.
  induction 1 as [| x l Hx Hl IH]; [done |].
  rewrite filter_cons, decide_True by done. simpl. by rewrite IH.
Qed.

(** X15.  When no interval ends before it starts, every count of the
    sweep lies between 0 and the number of intervals, and for a
    non-empty list the last entry, at the latest end, counts 0. *)
Theorem sweep_bounds (intervals : list (Z * Z)) :
  Forall (fun i : Z * Z => i.1 <= i.2) intervals ->
  let s := get_active_trips_df (VInt <$> intervals.*1)
                               (VInt <$> intervals.*2) in
  Forall (fun p : Z * option Z =>
            exists c, p.2 = Some c /\ 0 <= c <= Z.of_nat (length intervals)) s
  /\ (intervals <> [] ->
      exists t, last s = Some (t, Some 0)
                /\ forall i, i ∈ intervals -> i.1 <= t /\ i.2 <= t).
Proof.
  intros Hwf s. subst s. rewrite get_active_trips_df_eq.
  set (events := ((fun t => (t, 1)) <$> intervals.*1)
                 ++ ((fun t => (t, -1)) <$> intervals.*2)).
  pose proof (sorted_groupby_sum events) as Hsorted.
  assert (forall t, t ∈ (groupby_sum events).*1
                    <-> t ∈ intervals.*1 \/ t ∈ intervals.*2) as Hkeys.
  { intros t. unfold groupby_sum. rewrite keys_groupby_sum_from.
    unfold events. rewrite fmap_app, elem_of_app, !keys_of_events.
    simpl. rewrite elem_of_nil. tauto. }
  assert (forall t v, (t, v) ∈ cumsum_from 0 (groupby_sum events) ->
                      v = Some (active_at intervals t)) as Hentry.
  { intros t v Hin. rewrite (cumsum_entry _ _ _ _ Hsorted Hin).
    rewrite weight_le_groupby_sum. unfold events.
    by rewrite weight_le_intervals. }
  split.
  - apply Forall_forall. intros [t v] Hin. exists (active_at intervals t).
    split; [by apply Hentry |].
    rewrite (active_at_open intervals t Hwf).
    pose proof (length_filter (fun i : Z * Z => i.1 <= t < i.2) intervals).
    lia.
  - intros Hne.
    destruct (last (cumsum_from 0 (groupby_sum events))) as [[t v] |] eqn:Hlast.
    + assert ((t, v) ∈ cumsum_from 0 (groupby_sum events)) as Hin.
      { apply list_elem_of_lookup. eexists. by rewrite <- Hlast, last_lookup. }
      assert (forall x, x ∈ (groupby_sum events).*1 -> x <= t) as Hmax.
      { apply StronglySorted_last_max; [done |].
        rewrite <- (keys_cumsum 0), fmap_last, Hlast. done. }
      assert (forall i, i ∈ intervals -> i.1 <= t /\ i.2 <= t) as Hall.
      { intros i Hi. split; apply Hmax, Hkeys.
        - left. apply list_elem_of_fmap. by exists i.
        - right. apply list_elem_of_fmap. by exists i. }
      exists t. split; [| done]. f_equal. f_equal.
      rewrite (Hentry t v Hin). f_equal. unfold active_at.
      rewrite !length_filter_all; [lia | |];
        apply Forall_forall; intros i Hi; by apply Hall.
    + exfalso. apply last_None in Hlast.
      destruct intervals as [| i l]; [done |].
      assert (i.1 ∈ (groupby_sum events).*1) as Hk.
      { apply Hkeys. left. rewrite fmap_cons. by left. }
      rewrite <- (keys_cumsum 0), Hlast in Hk. by apply elem_of_nil in Hk.
Qed.

End SweepBounds.

Lemma sweep_bounds_witness :
  let s := Stats.get_active_trips_df (VInt <$> [(0, 10); (5, 15)].*1)
                                     (VInt <$> [(0, 10); (5, 15)].*2) in
  Forall (fun p : Z * option Z =>
            exists c, p.2 = Some c
                      /\ 0 <= c <= Z.of_nat (length [(0, 10); (5, 15)])) s
  /\ ([(0, 10); (5, 15)] <> [] ->
      exists t, last s = Some (t, Some 0)
                /\ forall i, i ∈ [(0, 10); (5, 15)] -> i.1 <= t /\ i.2 <= t).
Proof.
  apply (sweep_bounds [(0, 10); (5, 15)]).
  repeat constructor; simpl; lia.
Defined.

(** ** Headways: sign, size and mean *)

Section HeadwayBounds.
Import Stats.

Lemma np_diff_cons2 (a b : Z) (l : list Z) :
  np_diff (a :: b :: l) = (b - a) :: np_diff (b :: l).
Proof. reflexivity. Qed.

Lemma elem_of_np_diff (l : list Z) (x : Z) :
  x ∈ np_diff l -> exists a b, a ∈ l /\ b ∈ l /\ x = b - a.
Proof.
  induction l as [| a [| b l] IH]; [by intros ?%elem_of_nil
                                    | by intros ?%elem_of_nil |].
  rewrite np_diff_cons2. intros [-> | Hx]%elem_of_cons.
  - exists a, b. split; [by left |]. split; [right; by left | done].
  - destruct (IH Hx) as (a' & b' & Ha & Hb & ->).
    exists a', b'. split; [by right |]. split; [by right | done].
Qed.

Lemma np_diff_sorted_nonneg (l : list Z) :
  Sorted Z.le l -> Forall (fun h => 0 <= h) (np_diff l).
Proof.
  induction 1 as [| a l Hl IH Hhd]; [constructor |].
  destruct l as [| b l]; [constructor |].
  rewrite np_diff_cons2. constructor; [| done].
  apply HdRel_inv in Hhd. lia.
Qed.

Lemma foldl_add_acc (a : Z) (l : list Z) :
  foldl Z.add a l = a + foldl Z.add 0 l.
Proof.
  revert a. induction l as [| x l IH]; intros a; simpl; [lia |].
  rewrite (IH (a + x)), (IH (0 + x)). lia.
Qed.

Lemma list_sum_cons (x : Z) (l : list Z) :
  list_sum (x :: l) = x + list_sum l.
Proof. unfold list_sum. simpl. by rewrite foldl_add_acc. Qed.

(** The gaps of a list add up to its last entry minus its first. *)
Lemma np_diff_telescope (l : list Z) (a b : Z) :
  head l = Some a -> last l = Some b -> list_sum (np_diff l) = b - a.
Proof.
  revert a. induction l as [| x [| y l] IH]; intros a Hhead Hlast;
    [done | |].
  - injection Hhead as <-. injection Hlast as <-. unfold list_sum. simpl. lia.
  - injection Hhead as <-. rewrite np_diff_cons2, list_sum_cons.
    rewrite (IH y eq_refl Hlast). lia.
Qed.

Lemma qualifying_in_window hs he d direction_id start_time x :
  x ∈ qualifying hs he d direction_id start_time -> hs <= x <= he.
Proof.
  unfold qualifying. intros Hx.
  apply list_elem_of_omap in Hx as ([c1 c2] & _ & Hsome).
  cbn [snd fst] in Hsome. destruct c2; try done.
  destruct (decide _) as [[_ ?] |]; [| done]. by injection Hsome as <-.
Qed.

(** X16.  For the direction ids of a route group and its start times
    converted from time strings, as the route rollup passes them: every
    headway is at least 0 and at most the length of the window, and the
    headways of one direction add up to the time from its first to its
    last start inside the window. *)
Theorem headways_bounded (hs he : Z) (direction_id start_time : list cell) :
  let stimes d :=
    window_stimes (timestr_to_seconds (VTime hs))
                  (timestr_to_seconds (VTime he)) d direction_id
                  (timestr_to_seconds <$> start_time) in
  Forall (fun h => 0 <= h <= he - hs)
         (compute_headways (timestr_to_seconds (VTime hs))
                           (timestr_to_seconds (VTime he)) direction_id
                           (timestr_to_seconds <$> start_time))
  /\ (forall d a b,
        head (stimes d) = Some a -> last (stimes d) = Some b ->
        list_sum (np_diff (stimes d)) = b - a /\ hs <= a /\ b <= he).
Proof.
  intros stimes.
  assert (forall d x, x ∈ stimes d -> hs <= x <= he) as Hwin.
  { intros d x Hx. unfold stimes, window_stimes in Hx.
    change (timestr_to_seconds (VTime hs)) with (VInt hs) in Hx.
    change (timestr_to_seconds (VTime he)) with (VInt he) in Hx.
    rewrite merge_sort_Permutation, window_stimes_qualifying in Hx.
    by eapply qualifying_in_window. }
  assert (forall d, Forall (fun h => 0 <= h <= he - hs) (np_diff (stimes d)))
    as Hdir.
  { intros d.
    pose proof (np_diff_sorted_nonneg (stimes d)
                  (Sorted_merge_sort Z.le _)) as Hpos.
    apply Forall_forall. intros x Hx.
    eapply Forall_forall in Hpos; [| exact Hx].
    destruct (elem_of_np_diff _ _ Hx) as (a & b & Ha & Hb & ->).
    pose proof (Hwin d a Ha). pose proof (Hwin d b Hb). lia. }
  split.
  - rewrite compute_headways_eq. apply Forall_app. split; apply Hdir.
  - intros d a b Hhead Hlast. split; [by apply np_diff_telescope |].
    assert (a ∈ stimes d) as Ha.
    { destruct (stimes d); [done |]. injection Hhead as <-. by left. }
    assert (b ∈ stimes d) as Hb.
    { apply list_elem_of_lookup. eexists. by rewrite <- Hlast, last_lookup. }
    pose proof (Hwin d a Ha). pose proof (Hwin d b Hb). lia.
Qed.

Lemma mask_list_none {A} (mask : list bool) (l : list A) :
  Forall (fun b => b = false) mask -> Frame.mask_list mask l = [].
Proof.
  unfold Frame.mask_list. intros Hmask. revert l.
  induction Hmask as [| b mask -> Hmask IH]; intros [| x l]; try done.
  cbn [zip zip_with]. rewrite filter_cons. cbn [fst].
  rewrite decide_False by done. apply IH.
Qed.

(** X17.  Trips whose direction id is not the number 0 or 1, as an
    integer or as a float (a missing direction, for one), take no part
    in the headways: a route with only such trips has no headway, and
    its three statistics are NaN however many trips start inside the
    window. *)
Theorem headways_need_direction (headway_start headway_end : cell)
    (direction_id start_time : list cell) :
  Forall (fun c => ~ has_direction c 0 /\ ~ has_direction c 1) direction_id ->
  compute_headways headway_start headway_end direction_id start_time = []
  /\ headway_stats (compute_headways headway_start headway_end
                                     direction_id start_time)
     = (VNaN, VNaN, VNaN).
Proof.
  intros Hdir.
  assert (forall d, d = 0 \/ d = 1 ->
            window_stimes headway_start headway_end d direction_id start_time
            = []) as Hnone.
  { intros d Hd. unfold window_stimes, direction_stimes.
    rewrite mask_list_none; [done |].
    apply Forall_fmap. eapply Forall_impl; [exact Hdir |].
    intros c [H0 H1]. simpl.
    destruct (cell_eq_int c d) eqn:Heq; [| done].
    apply cell_eq_int_direction in Heq.
    destruct Hd as [-> | ->]; done. }
  assert (compute_headways headway_start headway_end direction_id start_time
          = []) as ->.
  { rewrite compute_headways_eq, !Hnone by auto. done. }
  done.
Qed.

Lemma list_sum_bounds (m M : Z) (l : list Z) :
  Forall (fun x => m <= x <= M) l ->
  m * Z.of_nat (length l) <= list_sum l <= M * Z.of_nat (length l).
Proof.
  induction 1 as [| x l Hx Hl IH].
  - unfold list_sum. simpl. lia.
  - rewrite list_sum_cons. simpl length. lia.
Qed.

Lemma Qdiv_le_compat (a b c : Q) :
  (0 < c)%Q -> (a <= b)%Q -> (a / c <= b / c)%Q.
Proof.
  intros Hc Hab. unfold Qdiv. apply Qmult_le_compat_r; [done |].
  apply Qlt_le_weak, Qinv_lt_0_compat, Hc.
Qed.

(** X18.  When there is a headway, the three statistics are numbers
    and the mean lies between the minimum and the maximum. *)
Theorem headway_stats_ordered (headways : list Z) :
  headways <> [] ->
  exists qmax qmin qmean,
    headway_stats headways = (VNum qmax, VNum qmin, VNum qmean)
    /\ (qmin <= qmean)%Q /\ (qmean <= qmax)%Q.
Proof.
  destruct headways as [| h hs]; [done |]. intros _.
  eexists _, _, _. split; [reflexivity |].
  set (l := h :: hs).
  assert (Forall (fun x => list_min h hs <= x <= list_max h hs) l) as Hbounds.
  { apply Forall_forall. intros x Hx.
    destruct (foldl_min_le hs h) as [Hm1 Hm2].
    destruct (foldl_max_ge hs h) as [HM1 HM2].
    unfold list_min, list_max.
    apply elem_of_cons in Hx as [-> | Hx]; [lia |].
    specialize (Hm2 x Hx). specialize (HM2 x Hx). lia. }
  apply list_sum_bounds in Hbounds.
  assert (0 < inject_Z (Z.of_nat (length l)))%Q as Hn.
  { change 0%Q with (inject_Z 0). rewrite <- Zlt_Qlt. simpl length. lia. }
  assert (0 < 60)%Q as H60 by done.
  rewrite !Qred_correct. split.
  - apply Qdiv_le_compat; [done |].
    apply Qle_shift_div_l; [done |].
    rewrite <- inject_Z_mult, <- Zle_Qle. lia.
  - apply Qdiv_le_compat; [done |].
    apply Qle_shift_div_r; [done |].
    rewrite <- inject_Z_mult, <- Zle_Qle. lia.
Qed.

End HeadwayBounds.

Lemma headways_need_direction_witness :
  Stats.compute_headways (VInt 25200) (VInt 68400)
                         [VNaN; VNum (5 # 2); VInt 2]
                         [VInt 25200; VInt 26100; VInt 27000] = []
  /\ Stats.headway_stats
       (Stats.compute_headways (VInt 25200) (VInt 68400)
                               [VNaN; VNum (5 # 2); VInt 2]
                               [VInt 25200; VInt 26100; VInt 27000])
     = (VNaN, VNaN, VNaN).
Proof.
  apply (headways_need_direction (VInt 25200) (VInt 68400)
           [VNaN; VNum (5 # 2); VInt 2] [VInt 25200; VInt 26100; VInt 27000]).
  repeat constructor; simpl; unfold Qeq; simpl; lia.
Defined.

Lemma headway_stats_ordered_witness :
  exists qmax qmin qmean,
    Stats.headway_stats [900; 1800]
    = (VNum qmax, VNum qmin, VNum qmean)
    /\ (qmin <= qmean)%Q /\ (qmean <= qmax)%Q.
Proof.
  apply (headway_stats_ordered [900; 1800]). discriminate.
Defined.

(** ** The trip rollup as a whole *)

Section TripRollupWhole.
Import Frame Stats.
Variable Point : Type.
Variable distance : Point -> Point -> Q.
Variable build_geometry_by_stop : Feed -> cell -> option Point.

Lemma my_agg_Ok geometry_by_stop group row0 rowN :
  head group = Some row0 ->
  last group = Some rowN ->
  is_Some (geometry_by_stop (stop_id row0)) ->
  is_Some (geometry_by_stop (stop_id rowN)) ->
  exists d,
    my_agg Point distance geometry_by_stop group = Ok d
    /\ d.*1 = trip_agg_columns
    /\ assoc "num_stops" d = Some (VInt (Z.of_nat (length group))).
Proof.
  intros Hhead Hlast [p0 H0] [pN HN].
  destruct group as [| r group]; [discriminate |].
  injection Hhead as ->.
  unfold my_agg. rewrite Hlast.
  unfold geometry_of. rewrite H0, HN. cbn [rbind].
  eexists. split; [reflexivity |]. split; [reflexivity |].
  repeat (rewrite assoc_cons_ne by discriminate). apply assoc_cons_eq.
Qed.

(** On a group with rows the aggregate can only fail for want of a
    point of the first or the last stop. *)
Lemma my_agg_Raise geometry_by_stop group e :
  group <> [] ->
  my_agg Point distance geometry_by_stop group = Raise e ->
  exn_cls e = KeyError.
Proof.
  intros Hne. unfold my_agg.
  destruct group as [| r group]; [done |].
  destruct (last (r :: group)) as [rN |] eqn:Hlast.
  - unfold geometry_of.
    destruct (geometry_by_stop (stop_id r)); cbn [rbind];
      [| by intros [= <-]].
    destruct (geometry_by_stop (stop_id rN)); cbn [rbind];
      [done | by intros [= <-]].
  - by apply last_None in Hlast.
Qed.

Lemma mapM_Ok {A B} (f : A -> result B) (g : A -> B) (l : list A) :
  (forall x, x ∈ l -> f x = Ok (g x)) -> mapM f l = Ok (g <$> l).
Proof.
  induction l as [| x l IH]; intros Hf; [done |].
  cbn [mapM]. rewrite (Hf x) by by left. cbn [rbind].
  rewrite IH; [done |]. intros y Hy. apply Hf. by right.
Qed.

Lemma mapM_Raise {A B} (f : A -> result B) (P : exn -> Prop) (l : list A) :
  (forall x e, x ∈ l -> f x = Raise e -> P e) ->
  (exists x e, x ∈ l /\ f x = Raise e) ->
  exists e, mapM f l = Raise e /\ P e.
Proof.
  induction l as [| x l IH]; intros HP (y & e & Hy & He).
  - by apply elem_of_nil in Hy.
  - cbn [mapM]. destruct (f x) as [b | e'] eqn:Hfx; cbn [rbind].
    + apply elem_of_cons in Hy as [-> | Hy]; [congruence |].
      destruct IH as (e1 & -> & HP1).
      * intros z e0 Hz. apply HP. by right.
      * by exists y, e.
      * by exists e1.
    + exists e'. split; [done |]. apply (HP x); [by left | done].
Qed.

Lemma notna_true (c : cell) : notna c = true <-> c <> VNaN.
Proof. by destruct c. Qed.

(** The keys of [groupby]: the values other than NaN, each once. *)
Lemma elem_of_group_keys (l : list cell) (k : cell) :
  k ∈ group_keys l <-> k <> VNaN /\ k ∈ l.
Proof.
  unfold group_keys.
  rewrite elem_of_remove_dups, merge_sort_Permutation, list_elem_of_filter.
  by rewrite notna_true.
Qed.

Lemma NoDup_group_keys (l : list cell) : NoDup (group_keys l).
Proof. apply NoDup_remove_dups. Qed.

(** The remaining lines of the builder, after [apply]. *)
Lemma trip_stats_tail (keys : list cell) (V : string -> list cell)
    (maxes : list cell) :
  exists h,
    (let h := {| index_name := Some "trip_id"; index := keys;
                 columns := (fun c => (c, V c)) <$> trip_agg_columns |} in
     let h := set_col h "distance" maxes in
     let h := reset_index h in
     let! dist := col h "distance" in
     let! duration := col h "duration" in
     let h := set_col h "speed"
                (div_scalar (div_cols dist duration) 1000) in
     applymap_cols seconds_to_timestr ["start_time"; "end_time"] h) = Ok h
    /\ (columns h).*1 = trip_stats_columns
    /\ col h "trip_id" = Ok keys
    /\ col h "num_stops" = Ok (V "num_stops")
    /\ index h = (fun i : nat => VInt (Z.of_nat i)) <$> seq 0 (length keys).
Proof.
  eexists. split; [vm_compute; reflexivity |].
  split; [vm_compute; reflexivity |].
  split; [vm_compute; reflexivity |].
  split; [vm_compute; reflexivity |].
  reflexivity.
Qed.

(** [apply] over groups that all give the same labels. *)
Lemma of_applied_columns (key_name : string) (rows : list (cell * OrderedDict))
    (cols : list string) :
  rows <> [] ->
  (forall x, x ∈ rows -> x.2.*1 = cols) ->
  of_applied key_name rows
  = {| index_name := Some key_name;
       index := rows.*1;
       columns := (fun c => (c, (fun r : cell * OrderedDict =>
                                   default VNaN (assoc c r.2)) <$> rows))
                    <$> cols |}.
Proof.
  intros Hne Hcols. destruct rows as [| [k0 d0] rest]; [done |].
  unfold of_applied. by rewrite <- (Hcols (k0, d0)) by by left.
Qed.

(** The groups of the sorted joined table, and the aggregate of each. *)
Lemma groups_aggregate feed zones :
  let f0 := merge_all feed zones in
  let f := merge_sort row_le f0 in
  (forall r, r ∈ f0 -> is_Some (build_geometry_by_stop feed (stop_id r))) ->
  forall k, k ∈ group_keys (trip_id <$> f) ->
    exists d,
      my_agg Point distance (build_geometry_by_stop feed)
             (filter (fun r => trip_id r = k) f) = Ok d
      /\ d.*1 = trip_agg_columns
      /\ assoc "num_stops" d
         = Some (VInt (Z.of_nat (length (filter (fun r => trip_id r = k) f0)))).
Proof.
  intros f0 f Hgeom k Hk.
  apply elem_of_group_keys in Hk as [_ Hk].
  apply list_elem_of_fmap in Hk as (r & -> & Hr).
  set (group := filter (fun r0 => trip_id r0 = trip_id r) f).
  assert (r ∈ group) as Hrg by by apply list_elem_of_filter.
  assert (group <> []) as Hne by (intros Heq; rewrite Heq in Hrg;
                                  by apply elem_of_nil in Hrg).
  destruct (proj2 (head_is_Some group) Hne) as [row0 Hhead].
  destruct (proj2 (last_is_Some group) Hne) as [rowN Hlast].
  assert (forall x, x ∈ group -> x ∈ f0) as Hsub.
  { intros x Hx. apply list_elem_of_filter in Hx as [_ Hx].
    unfold f in Hx. by rewrite merge_sort_Permutation in Hx. }
  destruct (my_agg_Ok (build_geometry_by_stop feed) group row0 rowN Hhead Hlast)
    as (d & Hd & Hcols & Hn).
  - apply Hgeom, Hsub. by apply head_Some_elem_of.
  - apply Hgeom, Hsub. by apply last_Some_elem_of.
  - exists d. split; [done |]. split; [done |].
    rewrite Hn. do 3 f_equal. apply Permutation_length.
    unfold group, f. by rewrite merge_sort_Permutation.
Qed.

(** X19.  When the joined table has a row with a trip id and every
    stop of it has a projected point, the trip rollup is built, has the
    30 columns of a trip-stats frame in their order, and has exactly
    one row for every trip id of the joined table, NaN apart, whose
    [num_stops] is the number of joined rows of that trip. *)
Theorem trip_rollup_one_row_per_trip feed zones :
  (exists r, r ∈ merge_all feed zones /\ trip_id r <> VNaN) ->
  (forall r, r ∈ merge_all feed zones ->
             is_Some (build_geometry_by_stop feed (stop_id r))) ->
  exists h keys,
    compute_trip_stats_partridge Point distance build_geometry_by_stop
                                 feed zones = Ok h
    /\ (columns h).*1 = trip_stats_columns
    /\ col h "trip_id" = Ok keys
    /\ NoDup keys
    /\ (forall k, k ∈ keys
                  <-> k <> VNaN
                      /\ exists r, r ∈ merge_all feed zones /\ trip_id r = k)
    /\ col h "num_stops"
       = Ok ((fun k => VInt (Z.of_nat (length (filter (fun r => trip_id r = k)
                                                       (merge_all feed zones)))))
               <$> keys)
    /\ nrows h = length keys.
Proof.
  intros (r1 & Hr1 & Hk1) Hgeom.
  set (f0 := merge_all feed zones) in *.
  set (f := merge_sort row_le f0).
  set (keys := group_keys (trip_id <$> f)).
  set (geom := build_geometry_by_stop feed).
  set (agg := fun k =>
                match my_agg Point distance geom
                        (filter (fun r => trip_id r = k) f) with
                | Ok d => d
                | Raise _ => []
                end).
  assert (forall k, k ∈ keys ->
            my_agg Point distance geom (filter (fun r => trip_id r = k) f)
            = Ok (agg k)
            /\ (agg k).*1 = trip_agg_columns
            /\ assoc "num_stops" (agg k)
               = Some (VInt (Z.of_nat (length (filter (fun r => trip_id r = k)
                                                      f0))))) as Hagg.
  { intros k Hk.
    destruct (groups_aggregate feed zones Hgeom k Hk) as (d & Hd & Hc & Hn).
    unfold agg, geom, f, f0. rewrite Hd. by split_and!. }
  assert (forall k, k ∈ keys
                    <-> k <> VNaN /\ exists r, r ∈ f0 /\ trip_id r = k) as Hkeys.
  { intros k. unfold keys. rewrite elem_of_group_keys, list_elem_of_fmap.
    split.
    - intros [Hna (r & -> & Hr)]. split; [done |]. exists r. split; [| done].
      unfold f in Hr. by rewrite merge_sort_Permutation in Hr.
    - intros [Hna (r & Hr & <-)]. split; [done |]. exists r. split; [done |].
      unfold f. by rewrite merge_sort_Permutation. }
  assert (apply_agg (my_agg Point distance geom) (groupby_trip_id f)
          = Ok ((fun k => (k, agg k)) <$> keys)) as Hrows.
  { unfold apply_agg, groupby_trip_id. fold keys.
    rewrite (mapM_Ok _ (fun kg : cell * list TripRow => (kg.1, agg kg.1))).
    - by rewrite <- list_fmap_compose.
    - intros [k group] Hx. apply list_elem_of_fmap in Hx as (k' & [= -> ->] & Hk').
      cbn [fst snd]. by rewrite (proj1 (Hagg k' Hk')). }
  assert (keys <> []) as Hne.
  { intros Heq. assert (trip_id r1 ∈ keys) as Hin.
    { apply Hkeys. split; [done |]. by exists r1. }
    rewrite Heq in Hin. by apply elem_of_nil in Hin. }
  unfold compute_trip_stats_partridge. fold f0 f geom. rewrite Hrows.
  cbn [rbind].
  set (rows := (fun k => (k, agg k)) <$> keys).
  set (maxes := (fun kg : cell * list TripRow =>
                   smax (shape_dist_traveled <$> kg.2))
                  <$> groupby_trip_id f).
  destruct (trip_stats_tail rows.*1
              (fun c => (fun r : cell * OrderedDict =>
                           default VNaN (assoc c r.2)) <$> rows) maxes)
    as (h & Hh & Hcols & Hid & Hns & Hidx).
  assert (rows.*1 = keys) as Hfst.
  { unfold rows. rewrite <- list_fmap_compose.
    rewrite <- (list_fmap_id keys) at 2. by apply list_fmap_ext. }
  exists h, keys. split; [| split; [done | split; [by rewrite <- Hfst |
                      split; [apply NoDup_group_keys | split; [done | split]]]]].
  - rewrite (of_applied_columns "trip_id" rows trip_agg_columns); [exact Hh | |].
    + unfold rows. by destruct keys.
    + intros x Hx. unfold rows in Hx.
      apply list_elem_of_fmap in Hx as (k & -> & Hk). cbn [snd].
      apply (Hagg k Hk).
  - rewrite Hns. f_equal. unfold rows. rewrite <- list_fmap_compose.
    apply list_fmap_ext. intros i k Hik. cbn [compose snd].
    assert (k ∈ keys) as Hk by (apply list_elem_of_lookup; by exists i).
    by rewrite (proj2 (proj2 (Hagg k Hk))).
  - unfold nrows. rewrite Hidx, length_fmap, length_seq. by rewrite Hfst.
Qed.

(** X20.  When all the rows of some trip of the joined table are at
    stops without a projected point, the trip rollup of the whole feed
    raises [KeyError]: no frame is returned for the other trips. *)
Theorem trip_rollup_needs_geometry feed zones k :
  k <> VNaN ->
  (exists r, r ∈ merge_all feed zones /\ trip_id r = k) ->
  (forall r, r ∈ merge_all feed zones -> trip_id r = k ->
             build_geometry_by_stop feed (stop_id r) = None) ->
  exists e,
    compute_trip_stats_partridge Point distance build_geometry_by_stop
                                 feed zones = Raise e
    /\ exn_cls e = KeyError.
Proof.
  intros Hna (r1 & Hr1 & Hk1) Hnone.
  set (f0 := merge_all feed zones) in *.
  set (f := merge_sort row_le f0).
  set (geom := build_geometry_by_stop feed).
  assert (forall x, x ∈ f <-> x ∈ f0) as Hperm.
  { intros x. unfold f. by rewrite merge_sort_Permutation. }
  assert (forall kg, kg ∈ groupby_trip_id f -> kg.2 <> []) as Hgroups.
  { intros [k' group] Hx. unfold groupby_trip_id in Hx.
    apply list_elem_of_fmap in Hx as (k0 & [= -> ->] & Hk0).
    apply elem_of_group_keys in Hk0 as [_ Hk0].
    apply list_elem_of_fmap in Hk0 as (r & -> & Hr). cbn [snd].
    intros Heq. assert (r ∈ filter (fun r0 => trip_id r0 = trip_id r) f) as Hin
      by by apply list_elem_of_filter.
    rewrite Heq in Hin. by apply elem_of_nil in Hin. }
  destruct (mapM_Raise
              (fun kg : cell * list TripRow =>
                 let! d := my_agg Point distance geom kg.2 in Ok (kg.1, d))
              (fun e => exn_cls e = KeyError) (groupby_trip_id f))
    as (e & He & Hcls).
  - intros kg e Hkg. destruct (my_agg Point distance geom kg.2) eqn:Ha;
      cbn [rbind]; [done |]. intros [= <-].
    eapply my_agg_Raise; [| exact Ha]. by apply Hgroups.
  - set (group := filter (fun r => trip_id r = k) f).
    assert (r1 ∈ group) as Hrg.
    { apply list_elem_of_filter. split; [done | by apply Hperm]. }
    assert (k ∈ group_keys (trip_id <$> f)) as Hk.
    { apply elem_of_group_keys. split; [done |].
      apply list_elem_of_fmap. exists r1. split; [done | by apply Hperm]. }
    exists (k, group).
    destruct group as [| row0 rest] eqn:Hgroup;
      [by apply elem_of_nil in Hrg |].
    assert (row0 ∈ filter (fun r => trip_id r = k) f) as H0.
    { unfold group in Hgroup. rewrite Hgroup. by left. }
    apply list_elem_of_filter in H0 as [Hk0 Hf0].
    destruct (last (row0 :: rest)) as [rowN |] eqn:Hlast;
      [| by apply last_None in Hlast].
    eexists. split.
    + unfold groupby_trip_id. apply list_elem_of_fmap. exists k.
      split; [| done]. unfold group in Hgroup. by rewrite Hgroup.
    + cbn [snd]. unfold my_agg. rewrite Hlast.
      unfold geometry_of, geom.
      rewrite (Hnone row0 (proj1 (Hperm row0) Hf0) Hk0). reflexivity.
  - exists e. split; [| done].
    unfold compute_trip_stats_partridge. fold f0 f geom.
    unfold apply_agg. by rewrite He.
Qed.

End TripRollupWhole.


Lemma trip_rollup_one_row_per_trip_witness :
  exists h keys,
    Stats.compute_trip_stats_partridge Q line_distance (fun _ => line_geometry)
      example_feed (Orchestrator.get_zones_df example_env) = Ok h
    /\ (columns h).*1 = Stats.trip_stats_columns
    /\ Frame.col h "trip_id" = Ok keys
    /\ NoDup keys
    /\ (forall k, k ∈ keys
                  <-> k <> VNaN
                      /\ exists r,
                           r ∈ Stats.merge_all example_feed
                                 (Orchestrator.get_zones_df example_env)
                           /\ Stats.trip_id r = k)
    /\ Frame.col h "num_stops"
       = Ok ((fun k =>
                VInt (Z.of_nat
                        (length (filter (fun r => Stats.trip_id r = k)
                                   (Stats.merge_all example_feed
                                      (Orchestrator.get_zones_df example_env))))))
               <$> keys)
    /\ Frame.nrows h = length keys.
Proof.
  apply (trip_rollup_one_row_per_trip Q line_distance (fun _ => line_geometry)
           example_feed (Orchestrator.get_zones_df example_env)).
  - eexists. split; [vm_compute; left | done].
  - apply Forall_forall. vm_compute. repeat (constructor || eexists).
Defined.

Lemma trip_rollup_needs_geometry_witness :
  exists e,
    Stats.compute_trip_stats_partridge Q line_distance (fun _ _ => None)
      example_feed (Orchestrator.get_zones_df example_env) = Raise e
    /\ exn_cls e = KeyError.
Proof.
  apply (trip_rollup_needs_geometry Q line_distance (fun _ _ => None)
           example_feed (Orchestrator.get_zones_df example_env) (VStr "t2")).
  - done.
  - eexists. split; [vm_compute; right; right; left | reflexivity].
  - reflexivity.
Defined.

(** ** Route rollup *)

Section RouteRollup.
Import Frame Stats.
Variable get_peak_indices : list Z -> list (option Z) -> result (nat * nat).

(** [unique] has more than one value when two entries differ. *)
Lemma unique_size (v : list cell) :
  (1 <? length (unique v))%nat = true
  <-> exists a b, a ∈ v /\ b ∈ v /\ a <> b.
Proof.
  unfold unique. rewrite Nat.ltb_lt.
  pose proof (NoDup_remove_dups v) as Hnd.
  assert (forall x, x ∈ remove_dups v <-> x ∈ v) as Hel
    by (intros x; apply elem_of_remove_dups).
  destruct (remove_dups v) as [| a [| b l]]; cbn [length].
  - split; [lia |]. intros (a & _ & Ha & _). apply Hel in Ha.
    by apply elem_of_nil in Ha.
  - split; [lia |]. intros (x & y & Hx & Hy & Hxy).
    apply Hel, list_elem_of_singleton in Hx.
    apply Hel, list_elem_of_singleton in Hy. congruence.
  - split; [| lia]. intros _. exists a, b. split_and!.
    + apply Hel. by left.
    + apply Hel. right. by left.
    + intros ->. apply NoDup_cons in Hnd as [Hnd _]. apply Hnd. by left.
Qed.

(** [any] holds when some entry is a number other than zero. *)
Lemma any_true (v : list cell) :
  any v = true
  <-> exists c q, c ∈ v /\ cell_to_Q c = Some q /\ ~ (q == 0)%Q.
Proof.
  unfold any. rewrite existsb_exists. split.
  - intros (c & Hc & Hq). exists c.
    destruct (cell_to_Q c) as [q |]; [| done]. exists q.
    split; [by apply list_elem_of_In |]. split; [done |].
    intros Heq. apply Qeq_bool_iff in Heq. by rewrite Heq in Hq.
  - intros (c & q & Hc & Hq & Hne). exists c.
    split; [by apply list_elem_of_In |]. rewrite Hq.
    destruct (Qeq_bool q 0) eqn:Heq; [| done].
    by apply Qeq_bool_iff in Heq.
Qed.

(** What a built route row holds. *)
Lemma compute_route_stats_inv hs he group d :
  compute_route_stats get_peak_indices hs he group = Ok d ->
  exists dirs loops,
    col group "direction_id" = Ok dirs
    /\ col group "is_loop" = Ok loops
    /\ d.*1 = route_agg_columns
    /\ assoc "num_trips" d = Some (VInt (Z.of_nat (nrows group)))
    /\ assoc "is_bidirectional" d
       = Some (VInt (if (1 <? length (unique dirs))%nat then 1 else 0))
    /\ assoc "is_loop" d = Some (VInt (if any loops then 1 else 0)).
Proof.
  unfold compute_route_stats. intros H.
  repeat match type of H with
         | rbind ?e _ = Ok _ =>
             destruct e eqn:?; cbn [rbind] in H; [| discriminate]
         end.
  destruct (headway_stats _) as [[mx mn] mean].
  repeat match type of H with
         | rbind ?e _ = Ok _ =>
             destruct e eqn:?; cbn [rbind] in H; [| discriminate]
         end.
  injection H as <-.
  do 2 eexists. split; [reflexivity |]. split; [reflexivity |].
  split; [reflexivity |].
  split; [by rewrite !assoc_cons_ne, assoc_cons_eq by done |].
  split; by rewrite !assoc_cons_ne, assoc_cons_eq by done.
Qed.

(** X21.  In a row the route rollup built for a route, [num_trips] is
    the number of trips of the route, [is_bidirectional] is 1 exactly
    when two trips of the route differ in [direction_id], a missing
    direction counting as a value of its own, and [is_loop] is 1
    exactly when some trip of the route is a loop. *)
Theorem route_row_flags hs he group d :
  compute_route_stats get_peak_indices hs he group = Ok d ->
  exists dirs loops,
    col group "direction_id" = Ok dirs
    /\ col group "is_loop" = Ok loops
    /\ d.*1 = route_agg_columns
    /\ assoc "num_trips" d = Some (VInt (Z.of_nat (nrows group)))
    /\ (assoc "is_bidirectional" d = Some (VInt 1)
        <-> exists a b, a ∈ dirs /\ b ∈ dirs /\ a <> b)
    /\ (assoc "is_bidirectional" d = Some (VInt 0)
        <-> forall a b, a ∈ dirs -> b ∈ dirs -> a = b)
    /\ (assoc "is_loop" d = Some (VInt 1)
        <-> exists c q, c ∈ loops /\ cell_to_Q c = Some q /\ ~ (q == 0)%Q)
    /\ (assoc "is_loop" d = Some (VInt 0)
        <-> forall c q, c ∈ loops -> cell_to_Q c = Some q -> (q == 0)%Q).
Proof.
  intros H.
  destruct (compute_route_stats_inv hs he group d H)
    as (dirs & loops & Hd & Hl & Hcols & Hn & Hbi & Hloop).
  exists dirs, loops. split_and!; try done.
  - rewrite Hbi, <- unique_size.
    destruct (1 <? length (unique dirs))%nat; split; congruence.
  - rewrite Hbi. pose proof (unique_size dirs) as Hu.
    destruct (1 <? length (unique dirs))%nat.
    + split; [done |]. intros Hall.
      destruct (proj1 Hu eq_refl) as (a & b & Ha & Hb & Hab).
      by destruct Hab; apply Hall.
    + split; [| done]. intros _ a b Ha Hb.
      destruct (decide (a = b)) as [| Hab]; [done |].
      assert (false = true) by (apply Hu; by exists a, b). done.
  - rewrite Hloop, <- any_true. destruct (any loops); split; congruence.
  - rewrite Hloop. pose proof (any_true loops) as Hu.
    destruct (any loops).
    + split; [done |]. intros Hall.
      destruct (proj1 Hu eq_refl) as (c & q & Hc & Hq & Hne).
      destruct Hne. by apply (Hall c).
    + split; [| done]. intros _ c q Hc Hq.
      destruct (Qeq_dec q 0) as [| Hne]; [done |].
      assert (false = true) by (apply Hu; by exists c, q). done.
Qed.

Lemma assoc_assoc_set_ne {V} (k k' : string) (v : V) l :
  k <> k' -> assoc k' (assoc_set k v l) = assoc k' l.
Proof.
  intros Hne. induction l as [| [k0 v0] l IH]; cbn [assoc_set assoc].
  - by rewrite decide_False.
  - destruct (decide (k0 = k)) as [-> | Hk0]; cbn [assoc].
    + by rewrite !decide_False.
    + by rewrite IH.
Qed.

Lemma col_set_col_ne df c v c' :
  c <> c' -> col (set_col df c v) c' = col df c'.
Proof. intros Hne. unfold col, set_col. cbn. by rewrite assoc_assoc_set_ne. Qed.

(** [applymap] on some columns leaves the index and the other columns. *)
Lemma applymap_cols_other fn cs df df' :
  applymap_cols fn cs df = Ok df' ->
  index df' = index df /\ forall c, c ∉ cs -> col df' c = col df c.
Proof.
  revert df. induction cs as [| c0 cs IH]; intros df; cbn [applymap_cols].
  - by intros [= ->].
  - destruct (col df c0) as [v |]; cbn [rbind]; [| done]. intros H.
    destruct (IH _ H) as [Hi Hc]. split; [done |].
    intros c Hn. rewrite Hc by (intros Hin; apply Hn; by right).
    apply col_set_col_ne. intros ->. apply Hn. by left.
Qed.

(** The rows [apply] collects, group by group. *)
Lemma apply_agg_inv {G} (agg : G -> result OrderedDict) (g : list (cell * G))
    rows :
  apply_agg agg g = Ok rows ->
  Forall2 (fun kg x => x.1 = kg.1 /\ agg kg.2 = Ok x.2) g rows.
Proof.
  unfold apply_agg. revert rows.
  induction g as [| [k grp] g IH]; intros rows; cbn [mapM].
  - intros [= <-]. constructor.
  - cbn [fst snd]. destruct (agg grp) as [d |] eqn:Hd; cbn [rbind]; [| done].
    destruct (mapM _ g) as [rest |]; cbn [rbind]; [| done].
    intros [= <-]. constructor; [done |]. by apply IH.
Qed.

Lemma Forall2_fmap_eq {A B C} (R : A -> B -> Prop) (f : A -> C) (h : B -> C)
    l1 l2 :
  Forall2 R l1 l2 -> (forall a b, R a b -> f a = h b) -> f <$> l1 = h <$> l2.
Proof.
  intros HF HR. induction HF as [| a b l1 l2 Hab _ IH]; [done |].
  rewrite !fmap_cons. by rewrite (HR a b Hab), IH.
Qed.

(** The rows a mask built from a column selects. *)
Lemma length_mask_list {A} (k : cell) (ids : list cell) (l : list A) :
  length l = length ids ->
  length (mask_list ((fun x => bool_decide (x = k)) <$> ids) l)
  = length (filter (fun x => x = k) ids).
Proof.
  unfold mask_list. rewrite length_fmap. revert l.
  induction ids as [| x ids IH]; intros [| y l] Hlen; try done.
  rewrite fmap_cons. cbn [zip zip_with]. rewrite !filter_cons. cbn [fst].
  injection Hlen as Hlen. specialize (IH l Hlen).
  destruct (decide (x = k)) as [Hx | Hx].
  - rewrite bool_decide_true by done. rewrite decide_True by done.
    cbn [length]. by f_equal.
  - rewrite bool_decide_false by done. by rewrite decide_False by done.
Qed.

(** The remaining lines of the route rollup, after [apply]. *)
Lemma route_stats_tail (keys : list cell) (V : string -> list cell) :
  exists g,
    (let g := reset_index
                {| index_name := Some "route_id"; index := keys;
                   columns := (fun c => (c, V c)) <$> route_agg_columns |} in
     let! service_distance := col g "service_distance" in
     let! service_duration := col g "service_duration" in
     let g := set_col g "service_speed"
                (div_cols service_distance service_duration) in
     let! num_trips := col g "num_trips" in
     let g := set_col g "mean_trip_distance"
                (div_cols service_distance num_trips) in
     let g := set_col g "mean_trip_duration"
                (div_cols service_duration num_trips) in
     let! g := applymap_cols seconds_to_timestr
                 ["start_time"; "end_time"; "peak_start_time"; "peak_end_time"]
                 g in
     let! service_speed := col g "service_speed" in
     let g := set_col g "service_speed" (div_scalar service_speed 1000) in
     select_cols g route_stats_columns) = Ok g
    /\ (columns g).*1 = route_stats_columns
    /\ col g "route_id" = Ok keys
    /\ col g "num_trips" = Ok (V "num_trips")
    /\ index g = (fun i : nat => VInt (Z.of_nat i)) <$> seq 0 (length keys).
Proof.
  eexists. split; [vm_compute; reflexivity |].
  split; [vm_compute; reflexivity |].
  split; [vm_compute; reflexivity |].
  split; [vm_compute; reflexivity |].
  reflexivity.
Qed.

(** X22.  When the route rollup returns a frame, the frame has the 35
    columns of the final selection in that order and one row for every
    route id of the trip table, NaN apart, in the order of the groups,
    and there is at least one; and when the [route_id] column of the
    trip table is as long as the table, [num_trips] of a route is the
    number of trips that have its id. *)
Theorem route_rollup_one_row_per_route f hs he g ids :
  compute_route_stats_base_partridge get_peak_indices f hs he = Ok g ->
  col f "route_id" = Ok ids ->
  nrows f = length ids ->
  (columns g).*1 = route_stats_columns
  /\ col g "route_id" = Ok (group_keys ids)
  /\ nrows g = length (group_keys ids)
  /\ group_keys ids <> []
  /\ col g "num_trips"
     = Ok ((fun k => VInt (Z.of_nat (length (filter (fun x => x = k) ids))))
             <$> group_keys ids).
Proof.
  unfold compute_route_stats_base_partridge. intros H Hids Hlen.
  destruct (applymap_cols timestr_to_seconds _ f) as [f' |] eqn:Hf';
    cbn [rbind] in H; [| done].
  destruct (applymap_cols_other _ _ _ _ Hf') as [Hindex Hother].
  assert (col f' "route_id" = Ok ids) as Hids'.
  { rewrite Hother; [done |]. intros Hin.
    repeat (apply elem_of_cons in Hin as [[=] | Hin]).
    by apply elem_of_nil in Hin. }
  unfold groupby in H. rewrite Hids' in H. cbn [rbind] in H.
  set (keys := group_keys ids) in *.
  set (groups := (fun k => (k, mask_rows ((fun x => bool_decide (x = k)) <$> ids)
                                  f')) <$> keys) in *.
  destruct (apply_agg _ groups) as [rows |] eqn:Hrows; cbn [rbind] in H;
    [| done].
  apply apply_agg_inv in Hrows.
  assert (rows.*1 = keys) as Hfst.
  { transitivity (groups.*1).
    - symmetry. eapply Forall2_fmap_eq; [exact Hrows |]. by intros a b [-> _].
    - unfold groups. rewrite <- list_fmap_compose.
      rewrite <- (list_fmap_id keys) at 2. by apply list_fmap_ext. }
  assert ((fun r : cell * OrderedDict => default VNaN (assoc "num_trips" r.2))
            <$> rows
          = (fun k => VInt (Z.of_nat (length (filter (fun x => x = k) ids))))
              <$> keys) as Hnum.
  { symmetry.
    transitivity ((fun kg : cell * DataFrame => VInt (Z.of_nat (nrows kg.2)))
                    <$> groups).
    - unfold groups. rewrite <- list_fmap_compose. apply list_fmap_ext.
      intros i k _. cbn [compose snd]. do 2 f_equal.
      unfold nrows, mask_rows. cbn [index].
      symmetry. apply length_mask_list. rewrite Hindex. exact Hlen.
    - eapply Forall2_fmap_eq; [exact Hrows |].
      intros [k grp] [k' d] [_ Hd]. cbn [snd] in *.
      apply compute_route_stats_inv in Hd
        as (dirs & loops & _ & _ & _ & Hn & _). by rewrite Hn. }
  destruct rows as [| [k0 d0] rest] eqn:Hr.
  { cbn in H. done. }
  rewrite <- Hr in *.
  assert (of_applied "route_id" rows
          = {| index_name := Some "route_id"; index := rows.*1;
               columns := (fun c => (c, (fun r : cell * OrderedDict =>
                                           default VNaN (assoc c r.2)) <$> rows))
                            <$> route_agg_columns |}) as Hof.
  { apply of_applied_columns; [by rewrite Hr |].
    intros x Hx.
    assert (exists grp, compute_route_stats get_peak_indices
                          (timestr_to_seconds hs) (timestr_to_seconds he) grp
                        = Ok x.2) as [grp Hgrp].
    { clear -Hrows Hx. induction Hrows as [| a b l1 l2 [_ Hab] _ IH].
      - by apply elem_of_nil in Hx.
      - apply elem_of_cons in Hx as [-> | Hx]; [by exists a.2 | by apply IH]. }
    by apply compute_route_stats_inv in Hgrp as (_ & _ & _ & _ & ? & _). }
  rewrite Hof in H.
  destruct (route_stats_tail rows.*1
              (fun c => (fun r : cell * OrderedDict =>
                           default VNaN (assoc c r.2)) <$> rows))
    as (g' & Hg' & Hcols & Hid & Hnt & Hidx).
  pose proof (eq_trans (eq_sym Hg') H) as Heq. injection Heq as <-.
  split_and!.
  - done.
  - by rewrite Hid, Hfst.
  - unfold nrows. by rewrite Hidx, length_fmap, length_seq, Hfst.
  - rewrite <- Hfst, Hr. done.
  - by rewrite Hnt, Hnum.
Qed.

End RouteRollup.

Lemma route_row_flags_witness :
  exists dirs loops,
    Frame.col example_route_group "direction_id" = Ok dirs
    /\ Frame.col example_route_group "is_loop" = Ok loops
    /\ example_route_row.*1 = route_agg_columns
    /\ Frame.assoc "num_trips" example_route_row
       = Some (VInt (Z.of_nat (Frame.nrows example_route_group)))
    /\ (Frame.assoc "is_bidirectional" example_route_row = Some (VInt 1)
        <-> exists a b, a ∈ dirs /\ b ∈ dirs /\ a <> b)
    /\ (Frame.assoc "is_bidirectional" example_route_row = Some (VInt 0)
        <-> forall a b, a ∈ dirs -> b ∈ dirs -> a = b)
    /\ (Frame.assoc "is_loop" example_route_row = Some (VInt 1)
        <-> exists c q, c ∈ loops /\ cell_to_Q c = Some q /\ ~ (q == 0)%Q)
    /\ (Frame.assoc "is_loop" example_route_row = Some (VInt 0)
        <-> forall c q, c ∈ loops -> cell_to_Q c = Some q -> (q == 0)%Q).
Proof.
  apply (route_row_flags peak_indices (VInt 25200) (VInt 68400)
           example_route_group example_route_row).
  vm_compute. reflexivity.
Defined.

Lemma route_rollup_one_row_per_route_witness :
  (columns example_route_stats).*1 = Stats.route_stats_columns
  /\ Frame.col example_route_stats "route_id"
     = Ok (Frame.group_keys [VStr "r1"; VStr "r1"])
  /\ Frame.nrows example_route_stats
     = length (Frame.group_keys [VStr "r1"; VStr "r1"])
  /\ Frame.group_keys [VStr "r1"; VStr "r1"] <> []
  /\ Frame.col example_route_stats "num_trips"
     = Ok ((fun k => VInt (Z.of_nat (length (filter (fun x => x = k)
                                               [VStr "r1"; VStr "r1"]))))
             <$> Frame.group_keys [VStr "r1"; VStr "r1"]).
Proof.
  apply (route_rollup_one_row_per_route peak_indices example_trip_stats
           (hms 7 0 0) (hms 19 0 0) example_route_stats
           [VStr "r1"; VStr "r1"]).
  - vm_compute. reflexivity.
  - vm_compute. reflexivity.
  - vm_compute. reflexivity.
Defined.
